(** * Scan provider for orioledb tables: planner hooks, custom scan
      executor and explain walker of [src/tableam/scan.c].

    The C functions are embedded as functions of a small state-and-error
    monad.  Services of the host planner and executor that [scan.c] only
    calls (opening relations, the bitmap scan primitive, projection, the
    generic explain renderer, ...) are the fields of a host class. *)

From stdpp Require Import base list strings pretty gmap.
From Stdlib Require Import ZArith Lia.
From Stdlib Require PrimFloat.

Set Default Proof Using "Type".
#[local] Set Warnings "-register-all".
#[local] Open Scope Z_scope.

(** ** Node tags *)

(** The tags of the host's [NodeTag] enumeration that [scan.c] names.  Every
    other tag of the enumeration is [T_Other n]. *)
Inductive NodeTag : Set :=
| T_Path
| T_IndexPath
| T_BitmapHeapPath
| T_CustomPath
| T_SeqScan
| T_SampleScan
| T_BitmapHeapScan
| T_CustomScan
| T_Result
| T_BitmapAndState
| T_BitmapOrState
| T_BitmapIndexScanState
| T_CustomScanState
| T_Other (n : N).

#[global] Instance NodeTag_eq_dec : EqDecision NodeTag.
Proof. solve_decision. Defined.

(** ** Error reports *)

Inductive SqlErrCode : Set :=
| ERRCODE_FEATURE_NOT_SUPPORTED
| ERRCODE_INTERNAL_ERROR.

#[global] Instance SqlErrCode_eq_dec : EqDecision SqlErrCode.
Proof. solve_decision. Defined.

(** What [ereport(ERROR, ...)] and [elog(ERROR, ...)] hand to the error
    machinery: the classification, the formatted primary message and the
    optional detail line. *)
Record ErrorData : Set := mkErrorData {
  sqlerrcode : SqlErrCode;
  message : string;
  detail : option string
}.

(** The double-quote character of the C format strings. *)
Definition dquote : string := String (Ascii.ascii_of_nat 34) EmptyString.

(** ** Outcomes and the monad of the embedded functions *)

(** A C function either returns normally, leaves by [ereport(ERROR)] (the
    state is the one reached when the report was raised: everything the
    function had already written stays written), runs into behaviour that C
    leaves undefined, or - for the model of a loop - uses up its fuel. *)
Inductive outcome (W A : Type) : Type :=
| Ok (a : A) (w : W)
| Raise (e : ErrorData) (w : W)
| Undef (w : W)
| OutOfFuel.

Arguments Ok {W A} a w.
Arguments Raise {W A} e w.
Arguments Undef {W A} w.
Arguments OutOfFuel {W A}.

Definition M (W A : Type) : Type := W → outcome W A.

Definition ret {W A} (a : A) : M W A := λ w, Ok a w.

Definition bind {W A B} (m : M W A) (k : A → M W B) : M W B :=
  λ w, match m w with
       | Ok a w' => k a w'
       | Raise e w' => Raise e w'
       | Undef w' => Undef w'
       | OutOfFuel => OutOfFuel
       end.

Definition get {W} : M W W := λ w, Ok w w.
Definition modify {W} (f : W → W) : M W unit := λ w, Ok tt (f w).
Definition ereport {W A} (e : ErrorData) : M W A := λ w, Raise e w.
Definition undefined {W A} : M W A := λ w, Undef w.
Definition out_of_fuel {W A} : M W A := λ _, OutOfFuel.

Declare Scope scan_scope.
Delimit Scope scan_scope with scan.
Notation "x <- m ;; k" := (bind m (λ x, k))
  (at level 100, m at next level, right associativity) : scan_scope.
Notation "m ;;; k" := (bind m (λ _, k))
  (at level 100, right associativity) : scan_scope.
#[local] Open Scope scan_scope.

Definition raises {W A} (o : outcome W A) : Prop :=
  match o with Raise _ _ => True | _ => False end.

(** ** Host list primitives ([pg_list.h]) *)

Definition list_nth {W A} (l : list A) (n : nat) : M W A :=
  match l !! n with
  | Some x => ret x
  | None => undefined
  end.

Definition list_delete_nth_cell {A} (l : list A) (n : nat) : list A :=
  delete n l.

Definition list_insert_nth {A} (l : list A) (pos : nat) (datum : A) : list A :=
  take pos l ++ datum :: drop pos l.

(** ** Arrays *)

(** [a[i]] on a C array held as a list: reading past its end is undefined. *)
Definition array_get {W A} (a : list A) (i : nat) : M W A :=
  match a !! i with
  | Some x => ret x
  | None => undefined
  end.

(** [a = repalloc(a, n * sizeof *a); a[n - 1] = x]: the first cells are kept,
    the array is cut or padded to [n] cells and the last one is written. *)
Definition array_grow_set {A} (pad : A) (a : list A) (n : nat) (x : A) : list A :=
  <[pred n := x]> (resize n pad a).

(** [for (i = 0; i < n; i++) body(i)] *)
Fixpoint for_each {W A} (l : list A) (body : A → M W unit) : M W unit :=
  match l with
  | [] => ret tt
  | x :: l' => body x ;;; for_each l' body
  end.

(** [foreach] over a list whose cells the body updates in place. *)
Fixpoint map_in_place {W A} (body : A → M W A) (l : list A) : M W (list A) :=
  match l with
  | [] => ret []
  | x :: l' =>
      y <- body x ;;
      r <- map_in_place body l' ;;
      ret (y :: r)
  end.

(** ** Planner data *)

Definition Oid : Set := N.
Definition Index : Set := N.
(** Address of a host object that [scan.c] only hands on. *)
Definition Pointer : Set := N.
Definition Cost : Set := PrimFloat.float.
Definition Cardinality : Set := PrimFloat.float.
Definition PlannerInfo : Set := Pointer.
Definition RestrictInfo : Set := Pointer.

Inductive OPathTag : Set := O_BitmapHeapPath.

Record OPath : Set := { o_type : OPathTag }.

Record OBitmapHeapPath : Set := { o_path : OPath }.

(** Target of a [CustomPath]'s [methods] pointer: the static table of this
    file, or some other provider's. *)
Inductive CustomPathMethodsRef : Set :=
| o_path_methods
| foreign_path_methods (addr : Pointer).

(** [Path] with the fields [scan.c] reads or writes; [flags], [methods],
    [custom_paths] and [custom_private] are the extension of a [CustomPath]
    node and are zero on the others. *)
Inductive Path : Type := mkPath {
  type : NodeTag;
  pathtype : NodeTag;
  parent : Pointer;
  pathtarget : Pointer;
  param_info : Pointer;
  parallel_aware : bool;
  parallel_safe : bool;
  parallel_workers : Z;
  rows : Cardinality;
  startup_cost : Cost;
  total_cost : Cost;
  pathkeys : list Pointer;
  flags : Z;
  methods : option CustomPathMethodsRef;
  custom_paths : list Path;
  custom_private : list OBitmapHeapPath
}.

Definition IsA (path : Path) (tag : NodeTag) : bool :=
  bool_decide (type path = tag).

(** An [int] handed over as an [AttrNumber], which is an [int16]: the value
    is kept when it fits and wraps around otherwise. *)
Definition int16_of_int (z : Z) : Z := (z + 2 ^ 15) mod 2 ^ 16 - 2 ^ 15.

Record Var : Set := mkVar {
  varno : Index;
  varattno : Z;
  vartype : Oid;
  vartypmod : Z;
  varcollid : Oid;
  varlevelsup : Index
}.

(** [makeVar]; its [varattno] parameter is an [AttrNumber]. *)
Definition makeVar (varno : Index) (varattno : Z) (vartype : Oid)
  (vartypmod : Z) (varcollid : Oid) (varlevelsup : Index) : Var :=
  {| varno := varno;
     varattno := int16_of_int varattno;
     vartype := vartype;
     vartypmod := vartypmod;
     varcollid := varcollid;
     varlevelsup := varlevelsup |}.

Inductive Expr : Set :=
| EVar (v : Var)
| EOpaque (addr : Pointer).

Record TargetEntry : Set := mkTargetEntry {
  expr : Expr;
  resno : Z;
  resname : option string;
  resjunk : bool
}.

(** [makeTargetEntry]; its [resno] parameter is an [AttrNumber]. *)
Definition makeTargetEntry (expr : Expr) (resno : Z) (resname : option string)
  (resjunk : bool) : TargetEntry :=
  {| expr := expr;
     resno := int16_of_int resno;
     resname := resname;
     resjunk := resjunk |}.

(** [IndexOptInfo]; [rel_relid] is [index->rel->relid], the only use made of
    the back pointer. *)
Record IndexOptInfo : Set := mkIndexOptInfo {
  indexoid : Oid;
  rel_relid : Index;
  ncolumns : nat;
  nkeycolumns : nat;
  indexkeys : list Z;
  canreturn : list bool;
  indextlist : list TargetEntry;
  indpred : list Expr;
  predOK : bool;
  indrestrictinfo : list RestrictInfo
}.

Record IndexClauseSet : Set := mkIndexClauseSet {
  nonempty : bool;
  indexclauses : list (list RestrictInfo)
}.

Record RelOptInfo : Type := mkRelOptInfo {
  relid : Index;
  indexlist : list IndexOptInfo;
  pathlist : list Path;
  partial_pathlist : list Path
}.

Inductive RTEKind : Set :=
| RTE_RELATION
| RTE_SUBQUERY
| RTE_JOIN
| RTE_FUNCTION
| RTE_VALUES
| RTE_CTE
| RTE_OTHER.

Inductive RelKind : Set :=
| RELKIND_RELATION
| RELKIND_INDEX
| RELKIND_VIEW
| RELKIND_MATVIEW
| RELKIND_FOREIGN_TABLE
| RELKIND_PARTITIONED_TABLE
| RELKIND_OTHER.

#[global] Instance RTEKind_eq_dec : EqDecision RTEKind.
Proof. solve_decision. Defined.

#[global] Instance RelKind_eq_dec : EqDecision RelKind.
Proof. solve_decision. Defined.

Record RangeTblEntry : Set := mkRangeTblEntry {
  rtekind : RTEKind;
  relkind : RelKind;
  rte_relid : Oid
}.

Record FormData_pg_attribute : Set := mkAttribute {
  atttypid : Oid;
  atttypmod : Z;
  attcollation : Oid
}.

Record Relation : Set := mkRelation {
  rd_id : Oid;
  relname : string;
  rd_att : list FormData_pg_attribute
}.

Definition RelationGetRelationName (relation : Relation) : string :=
  relname relation.

(** [TupleDescAttr(tupdesc, i)] *)
Definition TupleDescAttr {W} (tupdesc : list FormData_pg_attribute) (i : Z)
  : M W FormData_pg_attribute :=
  if bool_decide (0 ≤ i) then array_get tupdesc (Z.to_nat i) else undefined.

Record ORelOids : Set := mkORelOids {
  datoid : Oid;
  reloid : Oid;
  relnode : Oid
}.

#[global] Instance ORelOids_eq_dec : EqDecision ORelOids.
Proof. solve_decision. Defined.

Record OTableIndexField : Set := mkOTableIndexField {
  attnum : Z
}.

Record OTableIndex : Set := mkOTableIndex {
  nfields : nat;
  fields : list OTableIndexField
}.

Record OTable : Set := mkOTable {
  has_primary : bool;
  indices : list OTableIndex
}.

Record OIndexDescr : Set := mkOIndexDescr {
  oids : ORelOids
}.

Record OTableDescr : Set := mkOTableDescr {
  nIndices : nat;
  descr_indices : list OIndexDescr
}.

(** What the planner hooks leave behind besides their return value: the
    [RelOptInfo] they were handed, updated in place, and the calls they made
    to the services that have an effect of their own. *)
Inductive PlannerEvent : Type :=
| EvRelationOpen (relation_oid : Oid)
| EvRelationClose (relation_oid : Oid)
| EvTableFree
| EvOldHook (root : PlannerInfo) (rel : RelOptInfo) (rti : Index)
    (rte : RangeTblEntry).

Record PlannerWorld : Type := mkPlannerWorld {
  pw_rel : RelOptInfo;
  pw_trace : list PlannerEvent
}.

Definition emit (ev : PlannerEvent) : M PlannerWorld unit :=
  modify (λ w, {| pw_rel := pw_rel w; pw_trace := pw_trace w ++ [ev] |}).

Definition get_rel : M PlannerWorld RelOptInfo :=
  w <- get ;; ret (pw_rel w).

Definition put_rel (rel : RelOptInfo) : M PlannerWorld unit :=
  modify (λ w, {| pw_rel := rel; pw_trace := pw_trace w |}).

Definition set_pathlist (l : list Path) (rel : RelOptInfo) : RelOptInfo :=
  {| relid := relid rel; indexlist := indexlist rel; pathlist := l;
     partial_pathlist := partial_pathlist rel |}.

Definition set_partial_pathlist (l : list Path) (rel : RelOptInfo)
  : RelOptInfo :=
  {| relid := relid rel; indexlist := indexlist rel; pathlist := pathlist rel;
     partial_pathlist := l |}.

Definition set_indexlist (l : list IndexOptInfo) (rel : RelOptInfo)
  : RelOptInfo :=
  {| relid := relid rel; indexlist := l; pathlist := pathlist rel;
     partial_pathlist := partial_pathlist rel |}.

(** The extension's descriptor cache. *)
Class TableDescrs : Type := mkTableDescrs {
  relation_get_descr : Relation → OTableDescr
}.

(** The services the planner hooks call and the hook that was installed
    before this one. *)
Class PlannerHost : Type := mkPlannerHost {
  planner_descrs :: TableDescrs;
  (** [relation_open] / [table_open] with [NoLock]: the relation cache entry. *)
  open_relation : Oid → Relation;
  is_orioledb_rel : Relation → bool;
  ORelOidsSetFromRel : Relation → ORelOids;
  o_tables_get : ORelOids → OTable;
  PrimaryIndexNumber : nat;
  (** The planner's clause matcher; it fills the clause set it is handed. *)
  match_restriction_clauses_to_index :
    PlannerInfo → IndexOptInfo → IndexClauseSet → IndexClauseSet;
  old_set_rel_pathlist_hook :
    option (PlannerInfo → RelOptInfo → Index → RangeTblEntry → RelOptInfo)
}.

(** ** The planner hooks *)

Definition is_NIL {A} (l : list A) : bool :=
  match l with
  | [] => true
  | _ :: _ => false
  end.

(** [makeNode(CustomPath)] filled in from the source path. *)
Definition transform_path (src_path : Path) (descr : OTableDescr) : Path :=
  {| type := T_CustomPath;
     pathtype := T_CustomScan;
     parent := parent src_path;
     pathtarget := pathtarget src_path;
     param_info := param_info src_path;
     parallel_aware := parallel_aware src_path;
     parallel_safe := parallel_safe src_path;
     parallel_workers := parallel_workers src_path;
     rows := rows src_path;
     startup_cost := startup_cost src_path;
     total_cost := total_cost src_path;
     pathkeys := pathkeys src_path;
     flags := 0;
     methods := Some o_path_methods;
     custom_paths := [src_path];
     custom_private :=
       if IsA src_path T_BitmapHeapPath
       then [ {| o_path := {| o_type := O_BitmapHeapPath |} |} ]
       else [] |}.

(** The report raised for a sample scan. *)
Definition tablesample_error (relation : Relation) : ErrorData :=
  {| sqlerrcode := ERRCODE_FEATURE_NOT_SUPPORTED;
     message := "orioledb table " +:+ dquote
                +:+ RelationGetRelationName relation +:+ dquote
                +:+ " does not support TABLESAMPLE";
     detail := Some ("Sample scan is not supported for "
                     +:+ "OrioleDB tables yet. Please send a "
                     +:+ "bug report.") |}.

(** Is this the kind of range-table entry both hooks act on? *)
Definition is_plain_or_matview (rte : RangeTblEntry) : bool :=
  bool_decide (rtekind rte = RTE_RELATION)
  && (bool_decide (relkind rte = RELKIND_RELATION)
      || bool_decide (relkind rte = RELKIND_MATVIEW)).

(** The first [while] loop of [orioledb_set_rel_pathlist_hook], entered with
    loop counter [i]. *)
Fixpoint pathlist_loop (fuel : nat) (relation : Relation)
  (descr : OTableDescr) (i : nat) : M PlannerWorld unit :=
  rel <- get_rel ;;
  if bool_decide (i < length (pathlist rel))%nat then
    match fuel with
    | O => out_of_fuel
    | S fuel' =>
        path <- list_nth (pathlist rel) i ;;
        if IsA path T_Path || IsA path T_BitmapHeapPath then
          (if IsA path T_Path && bool_decide (pathtype path = T_SampleScan)
           then ereport (tablesample_error relation)
           else ret tt) ;;;
          (if negb (IsA path T_Path) then
             let custom_path := transform_path path descr in
             (rel <- get_rel ;;
              put_rel (set_pathlist
                         (list_delete_nth_cell (pathlist rel) i) rel)) ;;;
             (rel <- get_rel ;;
              put_rel (set_pathlist
                         (list_insert_nth (pathlist rel) i custom_path) rel))
           else ret tt) ;;;
          pathlist_loop fuel' relation descr (S i)
        else
          pathlist_loop fuel' relation descr (S i)
    end
  else ret tt.

(** The second [while] loop, over the partial path list. *)
Fixpoint partial_pathlist_loop (fuel : nat) (i : nat) : M PlannerWorld unit :=
  rel <- get_rel ;;
  if bool_decide (i < length (partial_pathlist rel))%nat then
    match fuel with
    | O => out_of_fuel
    | S fuel' =>
        path <- list_nth (partial_pathlist rel) i ;;
        if negb (IsA path T_Path) then
          put_rel (set_partial_pathlist
                     (list_delete_nth_cell (partial_pathlist rel) i) rel) ;;;
          partial_pathlist_loop fuel' i
        else
          partial_pathlist_loop fuel' (S i)
    end
  else ret tt.

Section planner_hooks.
Context `{PlannerHost}.

Definition table_open (relation_oid : Oid) : M PlannerWorld Relation :=
  emit (EvRelationOpen relation_oid) ;;; ret (open_relation relation_oid).

Definition table_close (relation : Relation) : M PlannerWorld unit :=
  emit (EvRelationClose (rd_id relation)).

Definition relation_open (relation_oid : Oid) : M PlannerWorld Relation :=
  table_open relation_oid.

Definition relation_close (relation : Relation) : M PlannerWorld unit :=
  table_close relation.

Definition o_table_free (o_table : OTable) : M PlannerWorld unit :=
  emit EvTableFree.

Definition call_old_set_rel_pathlist_hook (root : PlannerInfo) (rti : Index)
  (rte : RangeTblEntry) : M PlannerWorld unit :=
  match old_set_rel_pathlist_hook with
  | Some hook =>
      rel <- get_rel ;;
      emit (EvOldHook root rel rti rte) ;;;
      put_rel (hook root rel rti rte)
  | None => ret tt
  end.

(** Removes all index and base relation scan paths for a orioledb TableAm
    table.  Each loop is given as many rounds as its list has cells when the
    loop is entered. *)
Definition orioledb_set_rel_pathlist_hook (root : PlannerInfo) (rti : Index)
  (rte : RangeTblEntry) : M PlannerWorld unit :=
  (if is_plain_or_matview rte then
     relation <- table_open (rte_relid rte) ;;
     (if is_orioledb_rel relation then
        let descr := relation_get_descr relation in
        (rel <- get_rel ;;
         pathlist_loop (length (pathlist rel)) relation descr 0) ;;;
        (rel <- get_rel ;;
         partial_pathlist_loop (length (partial_pathlist rel)) 0)
      else ret tt) ;;;
     table_close relation
   else ret tt) ;;;
  call_old_set_rel_pathlist_hook root rti rte.

(** The inner [for] loop over the columns of an index: is [key] among the
    first [ncolumns] cells of [indexkeys]? *)
Fixpoint key_is_member (keys : list Z) (key : Z) (cols : list nat)
  : M PlannerWorld bool :=
  match cols with
  | [] => ret false
  | col :: cols' =>
      k <- array_get keys col ;;
      if bool_decide (key = k) then ret true else key_is_member keys key cols'
  end.

(** Body of the [foreach] over [rel->indexlist] for one primary key field. *)
Definition add_pkey_field (relation : Relation) (pk_field : OTableIndexField)
  (index : IndexOptInfo) : M PlannerWorld IndexOptInfo :=
  member <- key_is_member (indexkeys index) (attnum pk_field + 1)
              (seq 0 (ncolumns index)) ;;
  if negb member then
    let ncolumns' := S (ncolumns index) in
    let indexkeys' :=
      array_grow_set 0 (indexkeys index) ncolumns' (attnum pk_field + 1) in
    let canreturn' :=
      array_grow_set false (canreturn index) ncolumns' true in
    att_tup <- TupleDescAttr (rd_att relation) (attnum pk_field) ;;
    let indexvar :=
      EVar (makeVar (rel_relid index) (attnum pk_field + 1)
              (atttypid att_tup) (atttypmod att_tup) (attcollation att_tup)
              0%N) in
    ret {| indexoid := indexoid index;
           rel_relid := rel_relid index;
           ncolumns := ncolumns';
           nkeycolumns := nkeycolumns index;
           indexkeys := indexkeys';
           canreturn := canreturn';
           indextlist :=
             indextlist index
             ++ [makeTargetEntry indexvar (Z.of_nat ncolumns') None false];
           indpred := indpred index;
           predOK := predOK index;
           indrestrictinfo := indrestrictinfo index |}
  else ret index.

(** The loop over the fields of the primary index. *)
Definition pkey_fields_loop (relation : Relation) (primary : OTableIndex)
  : M PlannerWorld unit :=
  for_each (seq 0 (nfields primary)) (λ i,
    pk_field <- array_get (fields primary) i ;;
    rel <- get_rel ;;
    indexlist' <- map_in_place (add_pkey_field relation pk_field)
                    (indexlist rel) ;;
    put_rel (set_indexlist indexlist' rel)).

(** [MemSet(&rclauseset, 0, sizeof(rclauseset))] *)
Definition empty_clauseset : IndexClauseSet :=
  {| nonempty := false; indexclauses := [] |}.

(** The second [foreach] over [rel->indexlist]; [result] is the value the C
    variable holds when the loop reaches this cell. *)
Fixpoint restriction_loop (root : PlannerInfo) (l : list IndexOptInfo)
  (result : bool) : bool :=
  match l with
  | [] => result
  | index :: l' =>
      if negb (is_NIL (indpred index)) && negb (predOK index) then
        restriction_loop root l' result
      else
        let rclauseset :=
          match_restriction_clauses_to_index root index empty_clauseset in
        restriction_loop root l' (negb (nonempty rclauseset))
  end.

Definition orioledb_set_plain_rel_pathlist_hook (root : PlannerInfo)
  (rte : RangeTblEntry) : M PlannerWorld bool :=
  if is_plain_or_matview rte then
    relation <- relation_open (rte_relid rte) ;;
    result <-
      (if is_orioledb_rel relation then
         let oids := ORelOidsSetFromRel relation in
         let o_table := o_tables_get oids in
         result <-
           (if has_primary o_table then
              primary <- array_get (indices o_table) PrimaryIndexNumber ;;
              pkey_fields_loop relation primary ;;;
              rel <- get_rel ;;
              ret (restriction_loop root (indexlist rel) true)
            else ret true) ;;
         o_table_free o_table ;;;
         ret result
       else ret true) ;;
    relation_close relation ;;;
    ret result
  else ret true.

End planner_hooks.

(** ** Executor data *)

(** A C pointer to an allocated object: null, pointing to a live object, or
    left dangling after the object was released. *)
Inductive ptr (A : Type) : Type :=
| NULL
| Live (v : A)
| Freed.

Arguments NULL {A}.
Arguments Live {A} v.
Arguments Freed {A}.

(** [p == NULL] *)
Definition is_null {A} (p : ptr A) : bool :=
  match p with
  | NULL => true
  | Live _ | Freed => false
  end.

(** [pfree] and the other release functions: valid on a live object only. *)
Definition release {W A} (p : ptr A) : M W (ptr A) :=
  match p with
  | Live _ => ret Freed
  | NULL | Freed => undefined
  end.

(** [OPlanTag] is a C enumeration, hence an [int]. *)
Definition OPlanTag : Set := Z.

(** The words of an [OEACallsCounters] structure; [scan.c] never looks
    inside one. *)
Definition OEACallsCounters : Set := list Z.

(** The row a tuple table slot holds: a datum or a null for each column. *)
Definition TupleTableSlot : Set := list (option Z).

Definition Snapshot : Set := Pointer.
Definition OSnapshot : Set := list Z.

Record EState : Set := mkEState {
  es_snapshot : Snapshot;
  es_query_cxt : Pointer
}.

(** [Plan] nodes, with what [o_create_custom_scan_state] reads of a
    [BitmapHeapScan]. *)
Inductive Plan : Set := mkPlan {
  plan_type : NodeTag;
  lefttree : option Plan;
  bitmapqualorig_of : list Expr;
  indexid : Oid
}.

(** [PlanState] trees: [ps_plan] is [planstate->plan], [nplans] the member
    count of a [BitmapAndState] or [BitmapOrState], [ps_children] the child
    states in the order the host's [planstate_tree_walker] visits them. *)
Inductive PlanState : Set := mkPlanState {
  ps_type : NodeTag;
  ps_plan : Plan;
  nplans : Z;
  ps_children : list PlanState
}.

Record MemoryContextData : Set := mkMemoryContext {
  mc_parent : Pointer;
  mc_name : string
}.

(** Modelled from the spec: the cursor of the storage engine's bitmap scan
    ([tableam/bitmap_scan.h] is not part of [scan.c]), "an opaque cursor"
    made from "(runtime plan-state, target relation, leading-key type,
    snapshot, arena)".  It is held as what it was made from and how many
    rows were pulled from it so far. *)
Record OBitmapScan : Set := mkOBitmapScan {
  bs_planstate : ptr PlanState;
  bs_rel : Relation;
  bs_typeoid : Oid;
  bs_snapshot : OSnapshot;
  bs_cxt : ptr MemoryContextData;
  bs_fetched : nat
}.

Record OBitmapHeapPlanState : Set := mkOBitmapHeapPlanState {
  ops_type : OPlanTag;
  typeoid : Oid;
  bitmapqualplan : option Plan;
  bitmapqualorig : list Expr;
  bitmapqualplanstate : ptr PlanState;
  bitmap_eaCounters : ptr (list OEACallsCounters);
  oSnapshot : OSnapshot;
  cxt : ptr MemoryContextData;
  scan : ptr OBitmapScan
}.

Inductive CustomExecMethodsRef : Set :=
| o_scan_exec_methods
| foreign_exec_methods (addr : Pointer).

Inductive SlotOpsRef : Set :=
| TTSOpsOrioleDB
| foreign_slot_ops (addr : Pointer).

(** [CustomScanState] with the members of [css.ss] and [css.ss.ps] that
    [scan.c] uses. *)
Record CustomScanState : Set := mkCustomScanState {
  css_type : NodeTag;
  css_methods : option CustomExecMethodsRef;
  slotOps : option SlotOpsRef;
  ss_currentRelation : Relation;
  ps_ProjInfo : Pointer;
  ps_ExprContext : Pointer;
  ps_instrument : Pointer
}.

Record OCustomScanState : Set := mkOCustomScanState {
  css : CustomScanState;
  useEaCounters : bool;
  eaCounters : OEACallsCounters;
  o_plan_state : OBitmapHeapPlanState
}.

(** Calls to the host that the executor callbacks make, in order.
    [EvBitmapFetch] records what the process-wide [ea_counters] slot held
    when the row was pulled. *)
Inductive ExecEvent : Set :=
| EvExecInitNode (plan : option Plan)
| EvExecEndNode
| EvMakeBitmapScan
| EvBitmapFetch (slot_value : option N)
| EvFreeBitmapScan
| EvProject (scan_tuple : option TupleTableSlot)
| EvPfreeCounters
| EvMemoryContextDelete
| EvStopEventScanEnd.

(** The executor's state: the scan states by address, the global
    [OEACallsCounters *ea_counters] (the address of the scan state whose
    [eaCounters] member it points to, or null) and the host calls made. *)
Record ExecWorld : Type := mkExecWorld {
  heap : gmap N OCustomScanState;
  ea_counters : option N;
  ex_trace : list ExecEvent
}.

Definition load (node : N) : M ExecWorld OCustomScanState :=
  w <- get ;;
  match heap w !! node with
  | Some ocstate => ret ocstate
  | None => undefined
  end.

Definition store (node : N) (ocstate : OCustomScanState) : M ExecWorld unit :=
  modify (λ w, {| heap := <[node := ocstate]> (heap w);
                  ea_counters := ea_counters w;
                  ex_trace := ex_trace w |}).

Definition set_ea_counters (p : option N) : M ExecWorld unit :=
  modify (λ w, {| heap := heap w; ea_counters := p; ex_trace := ex_trace w |}).

Definition log (ev : ExecEvent) : M ExecWorld unit :=
  modify (λ w, {| heap := heap w; ea_counters := ea_counters w;
                  ex_trace := ex_trace w ++ [ev] |}).

Definition set_o_plan_state (s : OBitmapHeapPlanState)
  (ocstate : OCustomScanState) : OCustomScanState :=
  {| css := css ocstate; useEaCounters := useEaCounters ocstate;
     eaCounters := eaCounters ocstate; o_plan_state := s |}.

Definition set_scan (p : ptr OBitmapScan) (s : OBitmapHeapPlanState)
  : OBitmapHeapPlanState :=
  {| ops_type := ops_type s; typeoid := typeoid s;
     bitmapqualplan := bitmapqualplan s; bitmapqualorig := bitmapqualorig s;
     bitmapqualplanstate := bitmapqualplanstate s;
     bitmap_eaCounters := bitmap_eaCounters s; oSnapshot := oSnapshot s;
     cxt := cxt s; scan := p |}.

Definition set_bitmap_eaCounters (p : ptr (list OEACallsCounters))
  (s : OBitmapHeapPlanState) : OBitmapHeapPlanState :=
  {| ops_type := ops_type s; typeoid := typeoid s;
     bitmapqualplan := bitmapqualplan s; bitmapqualorig := bitmapqualorig s;
     bitmapqualplanstate := bitmapqualplanstate s;
     bitmap_eaCounters := p; oSnapshot := oSnapshot s;
     cxt := cxt s; scan := scan s |}.

Definition set_bitmapqualplanstate (p : ptr PlanState)
  (s : OBitmapHeapPlanState) : OBitmapHeapPlanState :=
  {| ops_type := ops_type s; typeoid := typeoid s;
     bitmapqualplan := bitmapqualplan s; bitmapqualorig := bitmapqualorig s;
     bitmapqualplanstate := p;
     bitmap_eaCounters := bitmap_eaCounters s; oSnapshot := oSnapshot s;
     cxt := cxt s; scan := scan s |}.

Definition set_cxt (p : ptr MemoryContextData) (s : OBitmapHeapPlanState)
  : OBitmapHeapPlanState :=
  {| ops_type := ops_type s; typeoid := typeoid s;
     bitmapqualplan := bitmapqualplan s; bitmapqualorig := bitmapqualorig s;
     bitmapqualplanstate := bitmapqualplanstate s;
     bitmap_eaCounters := bitmap_eaCounters s; oSnapshot := oSnapshot s;
     cxt := p; scan := scan s |}.

Definition set_oSnapshot (o : OSnapshot) (s : OBitmapHeapPlanState)
  : OBitmapHeapPlanState :=
  {| ops_type := ops_type s; typeoid := typeoid s;
     bitmapqualplan := bitmapqualplan s; bitmapqualorig := bitmapqualorig s;
     bitmapqualplanstate := bitmapqualplanstate s;
     bitmap_eaCounters := bitmap_eaCounters s; oSnapshot := o;
     cxt := cxt s; scan := scan s |}.

(** The services of the host executor and of the rest of the extension that
    the scan callbacks call. *)
Class ExecutorHost : Type := mkExecutorHost {
  executor_descrs :: TableDescrs;
  O_BitmapHeapPlan : OPlanTag;
  is_explain_analyze : CustomScanState → bool;
  (** [eanalyze_counters_init(eacc, descr)]: the new content of [*eacc]. *)
  eanalyze_counters_init : OEACallsCounters → OTableDescr → OEACallsCounters;
  (** The content of a [palloc0]'ed [OEACallsCounters]. *)
  zeroed_counters : OEACallsCounters;
  (** [ExecInitNode]: the state tree of a plan, null for a null plan. *)
  init_node : option Plan → EState → Z → option PlanState;
  O_LOAD_SNAPSHOT : Snapshot → OSnapshot;
  (** The row the bitmap scan primitive yields at a cursor position, if any. *)
  bitmap_row : OBitmapScan → option TupleTableSlot;
  project : Pointer → Pointer → option TupleTableSlot
            → option TupleTableSlot → option TupleTableSlot
}.

(** ** The custom scan callbacks *)

Definition set_useEaCounters (b : bool) (ocstate : OCustomScanState)
  : OCustomScanState :=
  {| css := css ocstate; useEaCounters := b;
     eaCounters := eaCounters ocstate; o_plan_state := o_plan_state ocstate |}.

Definition set_eaCounters (c : OEACallsCounters) (ocstate : OCustomScanState)
  : OCustomScanState :=
  {| css := css ocstate; useEaCounters := useEaCounters ocstate;
     eaCounters := c; o_plan_state := o_plan_state ocstate |}.

Section executor.
Context `{ExecutorHost}.

Definition ExecInitNode (plan : option Plan) (estate : EState) (eflags : Z)
  : M ExecWorld (ptr PlanState) :=
  log (EvExecInitNode plan) ;;;
  ret (match init_node plan estate eflags with
       | Some planstate => Live planstate
       | None => NULL
       end).

Definition ExecEndNode (planstate : ptr PlanState)
  : M ExecWorld (ptr PlanState) :=
  log EvExecEndNode ;;; release planstate.

Definition AllocSetContextCreate (parent : Pointer) (name : string)
  : ptr MemoryContextData :=
  Live {| mc_parent := parent; mc_name := name |}.

Definition MemoryContextDelete (context : ptr MemoryContextData)
  : M ExecWorld (ptr MemoryContextData) :=
  log EvMemoryContextDelete ;;; release context.

Definition pfree_counters (p : ptr (list OEACallsCounters))
  : M ExecWorld (ptr (list OEACallsCounters)) :=
  log EvPfreeCounters ;;; release p.

(** Modelled from the spec: the "bitmap-scan construction primitive ...
    returning an opaque cursor"; a new cursor has pulled no row. *)
Definition o_make_bitmap_scan (bitmap_state : OBitmapHeapPlanState)
  (rel : Relation) : M ExecWorld (ptr OBitmapScan) :=
  log EvMakeBitmapScan ;;;
  ret (Live {| bs_planstate := bitmapqualplanstate bitmap_state;
               bs_rel := rel;
               bs_typeoid := typeoid bitmap_state;
               bs_snapshot := oSnapshot bitmap_state;
               bs_cxt := cxt bitmap_state;
               bs_fetched := 0 |}).

(** Modelled from the spec: the "cursor-release primitive". *)
Definition o_free_bitmap_scan (p : ptr OBitmapScan)
  : M ExecWorld (ptr OBitmapScan) :=
  log EvFreeBitmapScan ;;; release p.

(** Modelled from the spec: the "fetch-next-row primitive on that cursor",
    called as [o_exec_bitmap_fetch(bitmap_state->scan, node)]; it "pulls the
    next visibility-qualified row from that cursor; if none remain, returns
    the end-of-scan marker".  The cursor is read through the node and moves
    on by one row; which row it yields is the host's [bitmap_row]. *)
Definition o_exec_bitmap_fetch (node : N)
  : M ExecWorld (option TupleTableSlot) :=
  ocstate <- load node ;;
  match scan (o_plan_state ocstate) with
  | Live cursor =>
      w <- get ;;
      log (EvBitmapFetch (ea_counters w)) ;;;
      let cursor' :=
        {| bs_planstate := bs_planstate cursor; bs_rel := bs_rel cursor;
           bs_typeoid := bs_typeoid cursor; bs_snapshot := bs_snapshot cursor;
           bs_cxt := bs_cxt cursor; bs_fetched := S (bs_fetched cursor) |} in
      store node (set_o_plan_state
                    (set_scan (Live cursor') (o_plan_state ocstate))
                    ocstate) ;;;
      ret (bitmap_row cursor)
  | NULL | Freed => undefined
  end.

(** Modelled from the spec: the "generic projection" every produced row is
    passed through; its output is the host's [project]. *)
Definition o_exec_project (projInfo econtext : Pointer)
  (scanTuple innerTuple : option TupleTableSlot)
  : M ExecWorld (option TupleTableSlot) :=
  log (EvProject scanTuple) ;;;
  ret (project projInfo econtext scanTuple innerTuple).

(** The loop of [o_begin_custom_scan] that initialises the counter sets of
    the array one after the other. *)
Definition init_counters_loop (descr : OTableDescr)
  (counters : list OEACallsCounters) : list OEACallsCounters :=
  foldl (λ a i, alter (λ c, eanalyze_counters_init c descr) i a)
    counters (seq 0 (nIndices descr)).

(** Initializes OCustomScanState and prepares for scan. *)
Definition o_begin_custom_scan (node : N) (estate : EState) (eflags : Z)
  : M ExecWorld unit :=
  ocstate <- load node ;;
  store node (set_useEaCounters (is_explain_analyze (css ocstate)) ocstate) ;;;
  ocstate <- load node ;;
  (if useEaCounters ocstate then
     let descr := relation_get_descr (ss_currentRelation (css ocstate)) in
     store node (set_eaCounters
                   (eanalyze_counters_init (eaCounters ocstate) descr)
                   ocstate)
   else ret tt) ;;;
  ocstate <- load node ;;
  if bool_decide (ops_type (o_plan_state ocstate) = O_BitmapHeapPlan) then
    let bitmap_state := o_plan_state ocstate in
    planstate <- ExecInitNode (bitmapqualplan bitmap_state) estate eflags ;;
    let bitmap_state := set_bitmapqualplanstate planstate bitmap_state in
    let bitmap_state :=
      if useEaCounters ocstate then
        let descr := relation_get_descr (ss_currentRelation (css ocstate)) in
        set_bitmap_eaCounters
          (Live (init_counters_loop descr
                   (replicate (nIndices descr) zeroed_counters)))
          bitmap_state
      else bitmap_state in
    let bitmap_state :=
      set_oSnapshot (O_LOAD_SNAPSHOT (es_snapshot estate)) bitmap_state in
    let bitmap_state :=
      set_cxt (AllocSetContextCreate (es_query_cxt estate)
                 "orioledb_cs plan data")
        bitmap_state in
    store node (set_o_plan_state bitmap_state ocstate)
  else ret tt.

(** Iterates custom scan. *)
Definition o_exec_custom_scan (node : N)
  : M ExecWorld (option TupleTableSlot) :=
  ocstate <- load node ;;
  (if useEaCounters ocstate
   then set_ea_counters (Some node)
   else set_ea_counters None) ;;;
  slot <-
    (if bool_decide (ops_type (o_plan_state ocstate) = O_BitmapHeapPlan) then
       let bitmap_state := o_plan_state ocstate in
       (if is_null (scan bitmap_state) then
          let rel := ss_currentRelation (css ocstate) in
          cursor <- o_make_bitmap_scan bitmap_state rel ;;
          store node (set_o_plan_state (set_scan cursor bitmap_state) ocstate)
        else ret tt) ;;;
       o_exec_bitmap_fetch node
     else ret None) ;;
  o_exec_project (ps_ProjInfo (css ocstate)) (ps_ExprContext (css ocstate))
    slot None.

(** Restarts the scan. *)
Definition o_rescan_custom_scan (node : N) : M ExecWorld unit :=
  ocstate <- load node ;;
  if bool_decide (ops_type (o_plan_state ocstate) = O_BitmapHeapPlan) then
    let bitmap_state := o_plan_state ocstate in
    (if negb (is_null (scan bitmap_state))
     then o_free_bitmap_scan (scan bitmap_state) ;;; ret tt
     else ret tt) ;;;
    counters <-
      (if useEaCounters ocstate
       then pfree_counters (bitmap_eaCounters bitmap_state)
       else ret (bitmap_eaCounters bitmap_state)) ;;
    store node (set_o_plan_state
                  (set_scan NULL (set_bitmap_eaCounters counters bitmap_state))
                  ocstate)
  else ret tt.

(** Ends custom scan. *)
Definition o_end_custom_scan (node : N) : M ExecWorld unit :=
  ocstate <- load node ;;
  log EvStopEventScanEnd ;;;
  (if bool_decide (ops_type (o_plan_state ocstate) = O_BitmapHeapPlan) then
     let bitmap_state := o_plan_state ocstate in
     planstate <-
       (if negb (is_null (bitmapqualplanstate bitmap_state))
        then ExecEndNode (bitmapqualplanstate bitmap_state)
        else ret (bitmapqualplanstate bitmap_state)) ;;
     cursor <-
       (if negb (is_null (scan bitmap_state))
        then o_free_bitmap_scan (scan bitmap_state)
        else ret (scan bitmap_state)) ;;
     counters <-
       (if useEaCounters ocstate
        then pfree_counters (bitmap_eaCounters bitmap_state)
        else ret (bitmap_eaCounters bitmap_state)) ;;
     MemoryContextDelete (cxt bitmap_state) ;;;
     store node
       (set_o_plan_state
          (set_cxt NULL
             (set_bitmap_eaCounters counters
                (set_scan cursor
                   (set_bitmapqualplanstate planstate bitmap_state))))
          ocstate)
   else ret tt) ;;;
  set_ea_counters None.

(** [Open], then [n] times [Fetch]. *)
Fixpoint fetches (node : N) (n : nat) : M ExecWorld unit :=
  match n with
  | O => ret tt
  | S n' => o_exec_custom_scan node ;;; fetches node n'
  end.

End executor.

(** ** The explain walker *)

Inductive ExplainFormat : Set :=
| EXPLAIN_FORMAT_TEXT
| EXPLAIN_FORMAT_XML
| EXPLAIN_FORMAT_JSON
| EXPLAIN_FORMAT_YAML.

(** [StringInfoData]: the bytes of the buffer and the length in use. *)
Record StringInfoData : Set := mkStringInfo {
  data : list Ascii.ascii;
  len : Z
}.

Record ExplainState : Set := mkExplainState {
  str : StringInfoData;
  format : ExplainFormat;
  indent : Z
}.

Record OExplainContext : Set := mkOExplainContext {
  ancestors : list Pointer;
  ec_ocstate : OCustomScanState;
  ec_descr : OTableDescr
}.

Definition set_nplans (n : Z) (planstate : PlanState) : PlanState :=
  {| ps_type := ps_type planstate; ps_plan := ps_plan planstate; nplans := n;
     ps_children := ps_children planstate |}.

Definition add_indent (d : Z) (es : ExplainState) : ExplainState :=
  {| str := str es; format := format es; indent := indent es + d |}.

Definition set_len (n : Z) (es : ExplainState) : ExplainState :=
  {| str := {| data := data (str es); len := n |}; format := format es;
     indent := indent es |}.

Definition newline : Ascii.ascii := Ascii.ascii_of_nat 10.
Definition space : Ascii.ascii := Ascii.ascii_of_nat 32.

(** [for (i = n; i > 0; i--) if (stop(data[i - 1])) break;] - the value of
    [i] when the loop is left. *)
Fixpoint scan_back {W} (stop : Ascii.ascii → bool) (buf : list Ascii.ascii)
  (n : nat) : M W nat :=
  match n with
  | O => ret O
  | S n' =>
      c <- array_get buf n' ;;
      if stop c then ret (S n') else scan_back stop buf n'
  end.

(** The same loop entered with the C [int] it starts from: it does not run
    when that is not positive. *)
Definition scan_back_from {W} (stop : Ascii.ascii → bool)
  (buf : list Ascii.ascii) (start : Z) : M W Z :=
  if bool_decide (0 < start) then
    i <- scan_back stop buf (Z.to_nat start) ;; ret (Z.of_nat i)
  else ret start.

(** The loop that looks up the ordinal of the index a probe node scans: the
    first position whose descriptor has the relation oid, [nIndices] when
    there is none. *)
Fixpoint find_ix_num {W} (descr : OTableDescr) (target : Oid)
  (candidates : list nat) : M W nat :=
  match candidates with
  | [] => ret (nIndices descr)
  | ix_num :: rest =>
      indexDescr <- array_get (descr_indices descr) ix_num ;;
      if bool_decide (reloid (oids indexDescr) = target)
      then ret ix_num
      else find_ix_num descr target rest
  end.

(** The host's walk over the children of a plan state: the walker is called
    on each in turn and the walk stops at the first that answers true. *)
Definition planstate_walk_members {W} (walker : PlanState → M W bool)
  : list PlanState → M W bool :=
  fix go (members : list PlanState) : M W bool :=
    match members with
    | [] => ret false
    | child :: rest =>
        stop <- walker child ;;
        if stop then ret true else go rest
    end.

(** The explain services of the host and of the rest of the extension. *)
Class ExplainHost : Type := mkExplainHost {
  ExplainNode : PlanState → list Pointer → string → option string
                → ExplainState → ExplainState;
  ExplainCloseGroup : string → string → bool → ExplainState → ExplainState;
  eanalyze_counters_explain : OTableDescr → OEACallsCounters
                              → ExplainState → ExplainState;
  (** The number the host's enumeration gives a tag, as [%d] prints it. *)
  nodeTag_number : NodeTag → Z
}.

Section explain.
Context `{ExplainHost}.

(** The report of the [default:] branch. *)
Definition cant_explain_error (tag : NodeTag) : ErrorData :=
  {| sqlerrcode := ERRCODE_INTERNAL_ERROR;
     message := "can't explain node: " +:+ pretty (nodeTag_number tag);
     detail := None |}.

(** The [T_BitmapOrState] and [T_BitmapAndState] branches: the node is
    rendered with its member count hidden, which is then put back. *)
Definition explain_bitmap_combiner (planstate : PlanState)
  (ec : OExplainContext) : M ExplainState unit :=
  let saved_nplans := nplans planstate in
  let node := set_nplans 0 planstate in
  modify (ExplainNode node (ancestors ec) "Outer" None) ;;;
  modify (add_indent 3).

(** The [T_BitmapIndexScanState] branch. *)
Definition explain_bitmap_index_scan (planstate : PlanState)
  (ec : OExplainContext) : M ExplainState unit :=
  let ocstate := ec_ocstate ec in
  modify (ExplainNode planstate (ancestors ec) "Outer" None) ;;;
  es <- get ;;
  (match format es with
   | EXPLAIN_FORMAT_TEXT => modify (add_indent 3)
   | EXPLAIN_FORMAT_JSON =>
       modify (λ es, set_len (len (str es) - 1) es) ;;;
       es <- get ;;
       i <- scan_back_from (λ c, bool_decide (c = newline))
              (data (str es)) (len (str es)) ;;
       modify (λ es, set_len (len (str es) - ((len (str es) - i) + 1)) es) ;;;
       es <- get ;;
       i <- scan_back_from (λ c, negb (bool_decide (c = space)))
              (data (str es)) (len (str es)) ;;
       modify (add_indent 1)
   | EXPLAIN_FORMAT_XML =>
       modify (λ es, set_len (len (str es) - 1) es) ;;;
       es <- get ;;
       i <- scan_back_from (λ c, bool_decide (c = newline))
              (data (str es)) (len (str es)) ;;
       modify (λ es, set_len (len (str es) - (len (str es) - i)) es) ;;;
       modify (add_indent 1)
   | EXPLAIN_FORMAT_YAML => modify (add_indent 1)
   end) ;;;
  (if useEaCounters ocstate then
     let bm_scan := ps_plan planstate in
     let o_bm_state := o_plan_state ocstate in
     let descr := ec_descr ec in
     ix_num <- find_ix_num descr (indexid bm_scan) (seq 0 (nIndices descr)) ;;
     match bitmap_eaCounters o_bm_state with
     | Live counters =>
         c <- array_get counters ix_num ;;
         modify (eanalyze_counters_explain descr c)
     | NULL | Freed => undefined
     end
   else ret tt) ;;;
  es <- get ;;
  match format es with
  | EXPLAIN_FORMAT_TEXT => modify (add_indent (-3))
  | EXPLAIN_FORMAT_JSON | EXPLAIN_FORMAT_XML | EXPLAIN_FORMAT_YAML =>
      modify (ExplainCloseGroup "Plan" "Plan" true)
  end.

(** [o_explain_node] on a plan state that is not null. *)
Fixpoint o_explain_node_at (planstate : PlanState) (ec : OExplainContext)
  {struct planstate} : M ExplainState bool :=
  (match ps_type planstate with
   | T_BitmapOrState => explain_bitmap_combiner planstate ec
   | T_BitmapAndState => explain_bitmap_combiner planstate ec
   | T_BitmapIndexScanState => explain_bitmap_index_scan planstate ec
   | tag => ereport (cant_explain_error tag)
   end) ;;;
  result <- planstate_walk_members (λ child, o_explain_node_at child ec)
              (ps_children planstate) ;;
  (match ps_type planstate with
   | T_BitmapOrState => modify (add_indent (-3))
   | T_BitmapAndState => modify (add_indent (-3))
   | _ => ret tt
   end) ;;;
  ret result.

Definition o_explain_node (planstate : option PlanState)
  (ec : OExplainContext) : M ExplainState bool :=
  match planstate with
  | None => ret false
  | Some planstate => o_explain_node_at planstate ec
  end.

End explain.

(** ** Closed forms used to state the properties of the hooks *)

(** The path the first loop raises the report for. *)
Definition is_sample_scan (path : Path) : bool :=
  IsA path T_Path && bool_decide (pathtype path = T_SampleScan).

(** What the first loop leaves in the cell of a path it has passed. *)
Definition rewritten (descr : OTableDescr) (path : Path) : Path :=
  if IsA path T_BitmapHeapPath then transform_path path descr else path.

(** The path list as the first loop leaves it, and whether it left by the
    report: the cells before the first sample scan are rewritten, the sample
    scan and the cells behind it are as they were. *)
Fixpoint rewrite_until_sample (descr : OTableDescr) (l : list Path)
  : list Path * bool :=
  match l with
  | [] => ([], false)
  | path :: l' =>
      if is_sample_scan path then (path :: l', true)
      else
        let '(r, b) := rewrite_until_sample descr l' in
        (rewritten descr path :: r, b)
  end.

Definition is_old_hook_call (ev : PlannerEvent) : bool :=
  match ev with
  | EvOldHook _ _ _ _ => true
  | _ => false
  end.

(** How often the trace has the previously installed hook called. *)
Definition old_hook_calls (tr : list PlannerEvent) : nat :=
  length (List.filter is_old_hook_call tr).

(** The state after the call of the previously installed hook, made on the
    state [w]. *)
Definition after_old_hook `{PlannerHost} (root : PlannerInfo) (rti : Index)
  (rte : RangeTblEntry) (w : PlannerWorld) : PlannerWorld :=
  match old_set_rel_pathlist_hook with
  | Some hook =>
      {| pw_rel := hook root (pw_rel w) rti rte;
         pw_trace := pw_trace w ++ [EvOldHook root (pw_rel w) rti rte] |}
  | None => w
  end.

(** ** Closed forms used to state the properties of the plain-scan hook *)

#[global] Instance FormData_pg_attribute_inhabited
  : Inhabited FormData_pg_attribute :=
  populate {| atttypid := 0%N; atttypmod := 0; attcollation := 0%N |}.

(** The key is among the columns of the index. *)
Definition has_key (index : IndexOptInfo) (key : Z) : Prop :=
  key ∈ take (ncolumns index) (indexkeys index).

#[global] Instance has_key_dec index key : Decision (has_key index key).
Proof. unfold has_key. apply _. Defined.

(** The arrays of an index have one cell for each of its columns. *)
Definition index_arrays_ok (index : IndexOptInfo) : Prop :=
  length (indexkeys index) = ncolumns index
  ∧ length (canreturn index) = ncolumns index.

(** The attribute number of a primary key field names an attribute of the
    relation. *)
Definition pk_field_ok (relation : Relation) (pk_field : OTableIndexField)
  : Prop :=
  0 ≤ attnum pk_field < Z.of_nat (length (rd_att relation)).

(** The target-list entry made for the primary key field that becomes
    column number [col] (counted from zero) of an index. *)
Definition pkey_entry (relation : Relation) (index_relid : Index) (col : nat)
  (pk_field : OTableIndexField) : TargetEntry :=
  let att_tup := rd_att relation !!! Z.to_nat (attnum pk_field) in
  makeTargetEntry
    (EVar (makeVar index_relid (attnum pk_field + 1) (atttypid att_tup)
             (atttypmod att_tup) (attcollation att_tup) 0%N))
    (Z.of_nat (S col)) None false.

(** The index with one primary key column appended to its key columns,
    marked returnable and given a target-list entry. *)
Definition append_pkey_column (relation : Relation)
  (pk_field : OTableIndexField) (index : IndexOptInfo) : IndexOptInfo :=
  {| indexoid := indexoid index;
     rel_relid := rel_relid index;
     ncolumns := S (ncolumns index);
     nkeycolumns := nkeycolumns index;
     indexkeys := indexkeys index ++ [attnum pk_field + 1];
     canreturn := canreturn index ++ [true];
     indextlist :=
       indextlist index
       ++ [pkey_entry relation (rel_relid index) (ncolumns index) pk_field];
     indpred := indpred index;
     predOK := predOK index;
     indrestrictinfo := indrestrictinfo index |}.

(** The column is appended when the index lacks it. *)
Definition with_pkey_field (relation : Relation)
  (pk_field : OTableIndexField) (index : IndexOptInfo) : IndexOptInfo :=
  if decide (has_key index (attnum pk_field + 1)) then index
  else append_pkey_column relation pk_field index.

Definition with_pkey_fields (relation : Relation)
  (pk_fields : list OTableIndexField) (index : IndexOptInfo) : IndexOptInfo :=
  foldl (λ ix pk_field, with_pkey_field relation pk_field ix) index pk_fields.

(** [index'] is [index] with the primary key fields [added] appended, in
    this order, as returnable columns with their target-list entries, and
    nothing else changed. *)
Definition extended_by (relation : Relation) (added : list OTableIndexField)
  (index index' : IndexOptInfo) : Prop :=
  index'
  = {| indexoid := indexoid index;
       rel_relid := rel_relid index;
       ncolumns := ncolumns index + length added;
       nkeycolumns := nkeycolumns index;
       indexkeys := indexkeys index ++ ((λ f, attnum f + 1) <$> added);
       canreturn := canreturn index ++ replicate (length added) true;
       indextlist :=
         indextlist index
         ++ imap (λ k f, pkey_entry relation (rel_relid index)
                           (ncolumns index + k) f) added;
       indpred := indpred index;
       predOK := predOK index;
       indrestrictinfo := indrestrictinfo index |}.

(** The fields of the primary index that the first loop of the plain-scan
    hook goes through. *)
Definition pkey_fields (primary : OTableIndex) : list OTableIndexField :=
  take (nfields primary) (fields primary).

(** The second loop looks at the index: it is not a partial index whose
    predicate the query does not imply. *)
Definition examined (index : IndexOptInfo) : bool :=
  negb (negb (is_NIL (indpred index)) && negb (predOK index)).

(** The planner matched at least one restriction clause to the index. *)
Definition has_matching_clause `{PlannerHost} (root : PlannerInfo)
  (index : IndexOptInfo) : bool :=
  nonempty (match_restriction_clauses_to_index root index empty_clauseset).

(** ** A table to run the hooks on *)

(** Table [o_accounts (id int4 primary key, status text, owner int4)] with
    a secondary index on [status], and the query restriction
    [status = 'x'] as restriction clause number 2. *)
Module Example.
Import PrimFloat.

Definition relation : Relation :=
  {| rd_id := 16384%N;
     relname := "o_accounts";
     rd_att := [ {| atttypid := 23%N; atttypmod := -1; attcollation := 0%N |};
                 {| atttypid := 25%N; atttypmod := -1; attcollation := 100%N |};
                 {| atttypid := 23%N; atttypmod := -1; attcollation := 0%N |} ] |}.

Definition rte : RangeTblEntry :=
  {| rtekind := RTE_RELATION; relkind := RELKIND_RELATION;
     rte_relid := 16384%N |}.

Definition root : PlannerInfo := 1%N.
Definition rti : Index := 1%N.

Definition primary_oids : ORelOids :=
  {| datoid := 5%N; reloid := 16390%N; relnode := 16390%N |}.

Definition status_oids : ORelOids :=
  {| datoid := 5%N; reloid := 16395%N; relnode := 16395%N |}.

Definition descr : OTableDescr :=
  {| nIndices := 2;
     descr_indices := [ {| oids := primary_oids |}; {| oids := status_oids |} ] |}.

Definition primary : OTableIndex :=
  {| nfields := 1; fields := [ {| attnum := 0 |} ] |}.

Definition o_table : OTable :=
  {| has_primary := true;
     indices := [ primary;
                  {| nfields := 1; fields := [ {| attnum := 1 |} ] |} ] |}.

Definition restrictions : list RestrictInfo := [2%N].

Definition primary_index : IndexOptInfo :=
  {| indexoid := 16390%N; rel_relid := 1%N; ncolumns := 1; nkeycolumns := 1;
     indexkeys := [1]; canreturn := [true];
     indextlist :=
       [makeTargetEntry (EVar (makeVar 1%N 1 23%N (-1) 0%N 0%N)) 1 None false];
     indpred := []; predOK := false; indrestrictinfo := restrictions |}.

Definition status_index : IndexOptInfo :=
  {| indexoid := 16395%N; rel_relid := 1%N; ncolumns := 1; nkeycolumns := 1;
     indexkeys := [2]; canreturn := [true];
     indextlist :=
       [makeTargetEntry (EVar (makeVar 1%N 2 25%N (-1) 100%N 0%N)) 1 None
          false];
     indpred := []; predOK := false; indrestrictinfo := restrictions |}.

(** Restriction clause number [k] restricts attribute number [k]; it
    matches an index that has this attribute among its key columns. *)
Definition clause_matches (clause : RestrictInfo) (index : IndexOptInfo)
  : bool :=
  bool_decide (Z.of_N clause ∈ take (nkeycolumns index) (indexkeys index)).

(** The planner's matcher on these clauses: every clause of the index's
    restriction list that matches is recorded and raises [nonempty]. *)
Definition match_clauses (root : PlannerInfo) (index : IndexOptInfo)
  (clauseset : IndexClauseSet) : IndexClauseSet :=
  foldl (λ cs clause,
           if clause_matches clause index
           then {| nonempty := true;
                   indexclauses := [clause] :: indexclauses cs |}
           else cs)
    clauseset (indrestrictinfo index).

(** A previously installed hook that leaves the [RelOptInfo] alone. *)
Definition old_hook (root : PlannerInfo) (rel : RelOptInfo) (rti : Index)
  (rte : RangeTblEntry) : RelOptInfo := rel.

Definition host : PlannerHost :=
  {| planner_descrs := {| relation_get_descr := λ _, descr |};
     open_relation := λ _, relation;
     is_orioledb_rel := λ _, true;
     ORelOidsSetFromRel := λ r,
       {| datoid := 5%N; reloid := rd_id r; relnode := rd_id r |};
     o_tables_get := λ _, o_table;
     PrimaryIndexNumber := 0;
     match_restriction_clauses_to_index := match_clauses;
     old_set_rel_pathlist_hook := Some old_hook |}.

Definition seq_path : Path :=
  {| type := T_Path; pathtype := T_SeqScan; parent := 100%N;
     pathtarget := 101%N; param_info := 0%N; parallel_aware := false;
     parallel_safe := true; parallel_workers := 0;
     rows := 1000%float; startup_cost := 0%float;
     total_cost := 25%float; pathkeys := [];
     flags := 0; methods := None; custom_paths := []; custom_private := [] |}.

Definition bitmap_path : Path :=
  {| type := T_BitmapHeapPath; pathtype := T_BitmapHeapScan; parent := 100%N;
     pathtarget := 101%N; param_info := 0%N; parallel_aware := false;
     parallel_safe := true; parallel_workers := 2;
     rows := 10%float; startup_cost := 4%float;
     total_cost := 12%float; pathkeys := [7%N];
     flags := 0; methods := None; custom_paths := []; custom_private := [] |}.

Definition sample_path : Path :=
  {| type := T_Path; pathtype := T_SampleScan; parent := 100%N;
     pathtarget := 101%N; param_info := 0%N; parallel_aware := false;
     parallel_safe := true; parallel_workers := 0;
     rows := 100%float; startup_cost := 0%float;
     total_cost := 9%float; pathkeys := [];
     flags := 0; methods := None; custom_paths := []; custom_private := [] |}.

Definition rel : RelOptInfo :=
  {| relid := 1%N; indexlist := [status_index; primary_index];
     pathlist := [seq_path; bitmap_path];
     partial_pathlist := [bitmap_path; seq_path] |}.

Definition world : PlannerWorld := {| pw_rel := rel; pw_trace := [] |}.

(** The same table with the indexes listed the other way round. *)
Definition world_primary_first : PlannerWorld :=
  {| pw_rel := set_indexlist [primary_index; status_index] rel;
     pw_trace := [] |}.

(** The same table with the index on [status] alone. *)
Definition world_status_only : PlannerWorld :=
  {| pw_rel := set_indexlist [status_index] rel; pw_trace := [] |}.

(** A [TABLESAMPLE] query whose path list has a bitmap heap path before the
    sample scan. *)
Definition world_sampled : PlannerWorld :=
  {| pw_rel := set_pathlist [bitmap_path; sample_path] rel; pw_trace := [] |}.

End Example.

(** ** Closed forms used to state the properties of the scan callbacks *)

Section executor_closed_forms.
Context `{ExecutorHost}.

(** The plan state is the bitmap heap variant. *)
Definition is_bitmap_heap_plan (ocstate : OCustomScanState) : bool :=
  bool_decide (ops_type (o_plan_state ocstate) = O_BitmapHeapPlan).

(** The counter array [Open] builds: one initialised counter set for each
    index of the table descriptor. *)
Definition fresh_counters (descr : OTableDescr) : list OEACallsCounters :=
  replicate (nIndices descr) (eanalyze_counters_init zeroed_counters descr).

(** The scan state [Open] leaves. *)
Definition opened (estate : EState) (eflags : Z) (ocstate : OCustomScanState)
  : OCustomScanState :=
  let instrumented := is_explain_analyze (css ocstate) in
  let descr := relation_get_descr (ss_currentRelation (css ocstate)) in
  let bitmap_state := o_plan_state ocstate in
  {| css := css ocstate;
     useEaCounters := instrumented;
     eaCounters :=
       if instrumented
       then eanalyze_counters_init (eaCounters ocstate) descr
       else eaCounters ocstate;
     o_plan_state :=
       if is_bitmap_heap_plan ocstate then
         {| ops_type := ops_type bitmap_state;
            typeoid := typeoid bitmap_state;
            bitmapqualplan := bitmapqualplan bitmap_state;
            bitmapqualorig := bitmapqualorig bitmap_state;
            bitmapqualplanstate :=
              match init_node (bitmapqualplan bitmap_state) estate eflags with
              | Some planstate => Live planstate
              | None => NULL
              end;
            bitmap_eaCounters :=
              if instrumented then Live (fresh_counters descr)
              else bitmap_eaCounters bitmap_state;
            oSnapshot := O_LOAD_SNAPSHOT (es_snapshot estate);
            cxt := Live {| mc_parent := es_query_cxt estate;
                           mc_name := "orioledb_cs plan data" |};
            scan := scan bitmap_state |}
       else bitmap_state |}.

(** What [Fetch] puts into the process-wide slot. *)
Definition slot_for (node : N) (ocstate : OCustomScanState) : option N :=
  if useEaCounters ocstate then Some node else None.

(** The cursor [Fetch] pulls from: the one the scan has, or the one it makes
    on the first call. *)
Definition fetch_cursor (ocstate : OCustomScanState) : OBitmapScan :=
  let bitmap_state := o_plan_state ocstate in
  match scan bitmap_state with
  | Live cursor => cursor
  | NULL | Freed =>
      {| bs_planstate := bitmapqualplanstate bitmap_state;
         bs_rel := ss_currentRelation (css ocstate);
         bs_typeoid := typeoid bitmap_state;
         bs_snapshot := oSnapshot bitmap_state;
         bs_cxt := cxt bitmap_state;
         bs_fetched := 0 |}
  end.

(** The slot [Fetch] hands to the projection. *)
Definition fetched_row (ocstate : OCustomScanState) : option TupleTableSlot :=
  if is_bitmap_heap_plan ocstate
  then bitmap_row (fetch_cursor ocstate)
  else None.

(** The scan state one [Fetch] leaves. *)
Definition after_fetch (ocstate : OCustomScanState) : OCustomScanState :=
  if is_bitmap_heap_plan ocstate then
    let cursor := fetch_cursor ocstate in
    set_o_plan_state
      (set_scan
         (Live {| bs_planstate := bs_planstate cursor;
                  bs_rel := bs_rel cursor;
                  bs_typeoid := bs_typeoid cursor;
                  bs_snapshot := bs_snapshot cursor;
                  bs_cxt := bs_cxt cursor;
                  bs_fetched := S (bs_fetched cursor) |})
         (o_plan_state ocstate))
      ocstate
  else ocstate.

(** The host calls one [Fetch] makes. *)
Definition fetch_events (node : N) (ocstate : OCustomScanState)
  : list ExecEvent :=
  (if is_bitmap_heap_plan ocstate then
     (if is_null (scan (o_plan_state ocstate))
      then [EvMakeBitmapScan] else [])
     ++ [EvBitmapFetch (slot_for node ocstate)]
   else [])
  ++ [EvProject (fetched_row ocstate)].

(** The pointers of a scan state are as [Open] and [Fetch] leave them:
    nothing that [Fetch] or [End] uses has been released. *)
Definition ready (ocstate : OCustomScanState) : Prop :=
  is_bitmap_heap_plan ocstate = true →
  scan (o_plan_state ocstate) ≠ Freed
  ∧ bitmapqualplanstate (o_plan_state ocstate) ≠ Freed
  ∧ (∃ c, cxt (o_plan_state ocstate) = Live c)
  ∧ (useEaCounters ocstate = true →
     ∃ counters, bitmap_eaCounters (o_plan_state ocstate) = Live counters).

End executor_closed_forms.

(** The plan state kinds the explain walker renders. *)
Definition supported_shape (tag : NodeTag) : bool :=
  match tag with
  | T_BitmapAndState | T_BitmapOrState | T_BitmapIndexScanState => true
  | _ => false
  end.

(** ** A scan to run the callbacks and the explain walker on *)

(** A bitmap heap scan of [o_accounts] through the index on [status], run
    under [EXPLAIN ANALYZE]; the bitmap scan yields two rows. *)
Module ExampleScan.

Definition probe_plan : Plan :=
  {| plan_type := T_Other 30; lefttree := None; bitmapqualorig_of := [];
     indexid := 16395%N |}.

Definition stored_rows : list TupleTableSlot :=
  [ [Some 1; Some 10; None]; [Some 2; Some 10; Some 7] ].

Definition host : ExecutorHost :=
  {| executor_descrs := {| relation_get_descr := λ _, Example.descr |};
     O_BitmapHeapPlan := 0;
     is_explain_analyze := λ node, negb (N.eqb (ps_instrument node) 0);
     eanalyze_counters_init := λ _ descr,
       Z.of_nat (nIndices descr) :: replicate (2 * nIndices descr) 0;
     zeroed_counters := [0; 0; 0; 0; 0];
     init_node := λ plan _ _,
       (λ p, {| ps_type := T_BitmapIndexScanState; ps_plan := p; nplans := 0;
                ps_children := [] |}) <$> plan;
     O_LOAD_SNAPSHOT := λ snapshot, [Z.of_N snapshot];
     bitmap_row := λ cursor, stored_rows !! bs_fetched cursor;
     project := λ _ _ scanTuple _, take 2 <$> scanTuple |}.

Definition node_state (instrument : Pointer) : CustomScanState :=
  {| css_type := T_CustomScanState;
     css_methods := Some o_scan_exec_methods;
     slotOps := Some TTSOpsOrioleDB;
     ss_currentRelation := Example.relation;
     ps_ProjInfo := 200%N;
     ps_ExprContext := 201%N;
     ps_instrument := instrument |}.

(** The scan state as [o_create_custom_scan_state] and the executor's own
    initialisation leave it. *)
Definition created (instrument : Pointer) : OCustomScanState :=
  {| css := node_state instrument;
     useEaCounters := false;
     eaCounters := [0; 0; 0; 0; 0];
     o_plan_state :=
       {| ops_type := 0; typeoid := 25%N;
          bitmapqualplan := Some probe_plan; bitmapqualorig := [];
          bitmapqualplanstate := NULL; bitmap_eaCounters := NULL;
          oSnapshot := []; cxt := NULL; scan := NULL |} |}.

Definition node : N := 4096%N.

Definition estate : EState := {| es_snapshot := 77%N; es_query_cxt := 500%N |}.

(** The scan under [EXPLAIN ANALYZE] ... *)
Definition world : ExecWorld :=
  {| heap := {[ node := created 300%N ]}; ea_counters := None;
     ex_trace := [] |}.

(** ... and in a plain execution. *)
Definition world_plain : ExecWorld :=
  {| heap := {[ node := created 0%N ]}; ea_counters := None;
     ex_trace := [] |}.

(** The instrumented scan after [Open]. *)
Definition world_opened : ExecWorld :=
  {| heap := {[ node := opened (H := host) estate 0 (created 300%N) ]};
     ea_counters := None;
     ex_trace := [EvExecInitNode (Some probe_plan)] |}.

(** A scan state whose plan tag is not the bitmap heap one. *)
Definition other_kind : OCustomScanState :=
  set_o_plan_state
    {| ops_type := 1; typeoid := 25%N;
       bitmapqualplan := None; bitmapqualorig := [];
       bitmapqualplanstate := NULL; bitmap_eaCounters := NULL;
       oSnapshot := []; cxt := NULL; scan := NULL |}
    (created 0%N).

Definition world_other_kind : ExecWorld :=
  {| heap := {[ node := other_kind ]}; ea_counters := None; ex_trace := [] |}.

Definition explain_host : ExplainHost :=
  {| ExplainNode := λ planstate _ _ _ es, es;
     ExplainCloseGroup := λ _ _ _ es, es;
     eanalyze_counters_explain := λ _ _ es, es;
     nodeTag_number := λ tag,
       match tag with
       | T_Result => 325
       | T_SeqScan => 335
       | T_Other n => Z.of_N n
       | _ => 0
       end |}.

Definition es : ExplainState :=
  {| str := {| data := []; len := 0 |}; format := EXPLAIN_FORMAT_TEXT;
     indent := 2 |}.

Definition ec : OExplainContext :=
  {| ancestors := []; ec_ocstate := created 300%N; ec_descr := Example.descr |}.

(** A [Result] state where a bitmap index probe is expected, alone and as
    the first member of a [BitmapOr]. *)
Definition result_state : PlanState :=
  {| ps_type := T_Result; ps_plan := probe_plan; nplans := 0;
     ps_children := [] |}.

Definition or_state : PlanState :=
  {| ps_type := T_BitmapOrState; ps_plan := probe_plan; nplans := 1;
     ps_children := [result_state] |}.

End ExampleScan.

(** ** The plan compiler and the creation of the scan state *)

(** A C [unsigned int] read as an [int] and back, as [makeInteger] and
    [intVal] do with an [Oid]. *)
Definition int_of_uint32 (n : N) : Z :=
  let z := Z.of_N n mod 2 ^ 32 in
  if bool_decide (z < 2 ^ 31) then z else z - 2 ^ 32.

Definition uint32_of_int (i : Z) : N := Z.to_N (i mod 2 ^ 32).

(** Target of a [CustomScan]'s [methods] pointer. *)
Inductive CustomScanMethodsRef : Set :=
| o_scan_methods
| foreign_scan_methods (addr : Pointer).

#[global] Instance CustomScanMethodsRef_eq_dec : EqDecision CustomScanMethodsRef.
Proof. solve_decision. Defined.

#[global] Instance CustomExecMethodsRef_eq_dec : EqDecision CustomExecMethodsRef.
Proof. solve_decision. Defined.

(** [CustomScan]: the members of [scan.plan] that [o_plan_custom_path]
    writes, and its own.  [cscan_custom_private] holds the values of the
    [Integer] nodes of the list. *)
Record CustomScan : Set := mkCustomScan {
  cscan_targetlist : list TargetEntry;
  cscan_qual : list Expr;
  cscan_lefttree : option Plan;
  cscan_righttree : option Plan;
  cscan_initPlan : list Pointer;
  scanrelid : Index;
  cscan_flags : Z;
  cscan_methods : option CustomScanMethodsRef;
  cscan_custom_plans : list Plan;
  cscan_custom_relids : option Pointer;
  cscan_custom_private : list Z
}.

Definition is_o_custom_scan (scan : CustomScan) : bool :=
  bool_decide (cscan_methods scan = Some o_scan_methods).

Definition is_o_custom_scan_state (scan : CustomScanState) : bool :=
  bool_decide (css_methods scan = Some o_scan_exec_methods).

(** [linitial] and [lsecond]: undefined on a list that is too short. *)
Definition linitial {W A} (l : list A) : M W A := array_get l 0.
Definition lsecond {W A} (l : list A) : M W A := array_get l 1.

(** [p->...] on a pointer that may be null. *)
Definition deref {W A} (p : option A) : M W A :=
  match p with
  | Some x => ret x
  | None => undefined
  end.

(** [custom_plan = linitial(custom_plans); if (IsA(custom_plan, Result))
    custom_plan = outerPlan(custom_plan);] *)
Definition unwrap_result (custom_plan : Plan) : option Plan :=
  if bool_decide (plan_type custom_plan = T_Result)
  then lefttree custom_plan
  else Some custom_plan.

(** What the plan compiler and [o_create_custom_scan_state] need besides
    the planner's and the executor's services. *)
Class PlanHost : Type := mkPlanHost {
  plan_planner :: PlannerHost;
  plan_executor :: ExecutorHost;
  planner_rt_fetch : Index → PlannerInfo → RangeTblEntry;
  (** [plan->targetlist] and [plan->qual] of a plan node. *)
  targetlist_of : Plan → list TargetEntry;
  qual_of : Plan → list Expr;
  (** [GET_PRIMARY(descr)->fields[0].inputtype] *)
  primary_inputtype : OTableDescr → Oid;
  (** The content of a [palloc0]'ed [OSnapshot]. *)
  zeroed_snapshot : OSnapshot
}.

Section plan_compiler.
Context `{PlanHost}.

(** Creates orioledb CustomScan plan from orioledb CustomPath. *)
Definition o_plan_custom_path (root : PlannerInfo) (best_path : Path)
  (tlist : list TargetEntry) (clauses : list Expr) (custom_plans : list Plan)
  : M PlannerWorld CustomScan :=
  descriptor <- linitial (custom_private best_path) ;;
  rel <- get_rel ;;
  let rte := planner_rt_fetch (relid rel) root in
  let reloid := rte_relid rte in
  relation <- table_open reloid ;;
  let descr := relation_get_descr (TableDescrs := planner_descrs) relation in
  custom_plan <- linitial custom_plans ;;
  let custom_plan := unwrap_result custom_plan in
  custom_scan <-
    (match o_type (o_path descriptor) with
     | O_BitmapHeapPath =>
         bh_scan <- deref custom_plan ;;
         ret {| cscan_targetlist := targetlist_of bh_scan;
                cscan_qual := qual_of bh_scan;
                cscan_lefttree := None;
                cscan_righttree := None;
                cscan_initPlan := [];
                scanrelid := relid rel;
                cscan_flags := flags best_path;
                cscan_methods := Some o_scan_methods;
                cscan_custom_plans := custom_plans;
                cscan_custom_relids := None;
                cscan_custom_private :=
                  [O_BitmapHeapPlan;
                   int_of_uint32 (primary_inputtype descr)] |}
     end) ;;
  table_close relation ;;;
  ret custom_scan.

(** Creates OCustomScanState.  [blank] is the [CustomScanState] part of the
    zero-filled block; the executor fills in its relation and projection
    members before [Open]. *)
Definition o_create_custom_scan_state {W} (blank : CustomScanState)
  (cscan : CustomScan) : M W OCustomScanState :=
  plan_tag <- linitial (cscan_custom_private cscan) ;;
  let node :=
    {| css_type := T_CustomScanState;
       css_methods := Some o_scan_exec_methods;
       slotOps := Some TTSOpsOrioleDB;
       ss_currentRelation := ss_currentRelation blank;
       ps_ProjInfo := ps_ProjInfo blank;
       ps_ExprContext := ps_ExprContext blank;
       ps_instrument := ps_instrument blank |} in
  custom_plan <- linitial (cscan_custom_plans cscan) ;;
  let custom_plan := unwrap_result custom_plan in
  if bool_decide (plan_tag = O_BitmapHeapPlan) then
    type_int <- lsecond (cscan_custom_private cscan) ;;
    bh_scan <- deref custom_plan ;;
    ret {| css := node;
           useEaCounters := false;
           eaCounters := zeroed_counters;
           o_plan_state :=
             {| ops_type := plan_tag;
                typeoid := uint32_of_int type_int;
                bitmapqualplan := lefttree bh_scan;
                bitmapqualorig := bitmapqualorig_of bh_scan;
                bitmapqualplanstate := NULL;
                bitmap_eaCounters := NULL;
                oSnapshot := zeroed_snapshot;
                cxt := NULL;
                scan := NULL |} |}
  else
    (* [ocstate->o_plan_state] is still null when its [type] is written *)
    undefined.

End plan_compiler.

(** ** Closed forms for further properties *)

(** The cursor after [k] more rows were pulled from it. *)
Definition cursor_after (cursor : OBitmapScan) (k : nat) : OBitmapScan :=
  {| bs_planstate := bs_planstate cursor;
     bs_rel := bs_rel cursor;
     bs_typeoid := bs_typeoid cursor;
     bs_snapshot := bs_snapshot cursor;
     bs_cxt := bs_cxt cursor;
     bs_fetched := bs_fetched cursor + k |}.

Definition is_make_bitmap_scan (ev : ExecEvent) : bool :=
  match ev with
  | EvMakeBitmapScan => true
  | _ => false
  end.

(** How many cursors the trace has made. *)
Definition cursors_made (tr : list ExecEvent) : nat :=
  length (List.filter is_make_bitmap_scan tr).

Definition is_live {A} (p : ptr A) : bool :=
  match p with
  | Live _ => true
  | NULL | Freed => false
  end.


(** Two scan states set a cursor up from the same things: node, sub-plan
    state, key type, snapshot and memory context. *)
Definition same_source (s1 s2 : OCustomScanState) : Prop :=
  css s2 = css s1
  ∧ bitmapqualplanstate (o_plan_state s2) = bitmapqualplanstate (o_plan_state s1)
  ∧ typeoid (o_plan_state s2) = typeoid (o_plan_state s1)
  ∧ oSnapshot (o_plan_state s2) = oSnapshot (o_plan_state s1)
  ∧ cxt (o_plan_state s2) = cxt (o_plan_state s1).

Section executor_runs.
Context `{ExecutorHost}.

(** [n] times [Fetch], with the slots returned. *)
Fixpoint fetch_rows (node : N) (n : nat)
  : M ExecWorld (list (option TupleTableSlot)) :=
  match n with
  | O => ret []
  | S n' =>
      slot <- o_exec_custom_scan node ;;
      rest <- fetch_rows node n' ;;
      ret (slot :: rest)
  end.

(** The slot the [k]-th [Fetch] (counted from zero) returns on a scan that
    starts from [ocstate]. *)
Definition row_at (ocstate : OCustomScanState) (k : nat)
  : option TupleTableSlot :=
  project (ps_ProjInfo (css ocstate)) (ps_ExprContext (css ocstate))
    (bitmap_row (cursor_after (fetch_cursor ocstate) k)) None.

End executor_runs.

(** The host's renderers leave the indentation and the format alone, and
    closing a group takes one level back in the structured formats (XML,
    JSON and YAML); nothing is asked of it in the text format, where the
    walker does not call it. *)
Definition renderers_balanced `{ExplainHost} : Prop :=
  (∀ planstate anc label name es,
     indent (ExplainNode planstate anc label name es) = indent es
     ∧ format (ExplainNode planstate anc label name es) = format es)
  ∧ (∀ descr counters es,
       indent (eanalyze_counters_explain descr counters es) = indent es
       ∧ format (eanalyze_counters_explain descr counters es) = format es)
  ∧ (∀ a b c es,
       format es ≠ EXPLAIN_FORMAT_TEXT →
       indent (ExplainCloseGroup a b c es) = indent es - 1
       ∧ format (ExplainCloseGroup a b c es) = format es).

(** Induction on plan state trees. *)
Fixpoint PlanState_tree_ind (P : PlanState → Prop)
  (step : ∀ planstate, Forall P (ps_children planstate) → P planstate)
  (planstate : PlanState) {struct planstate} : P planstate :=
  step planstate
    (match planstate as p return Forall P (ps_children p) with
     | mkPlanState _ _ _ children =>
         (fix go (l : list PlanState) : Forall P l :=
            match l with
            | [] => @List.Forall_nil _ P
            | child :: l' =>
                @List.Forall_cons _ P child l'
                  (PlanState_tree_ind P step child) (go l')
            end) children
     end).

(** Further inputs for the example table and scan. *)
Module ExampleMore.

(** The example host without a previously installed hook. *)
Definition host_no_old_hook : PlannerHost :=
  {| planner_descrs := {| relation_get_descr := λ _, Example.descr |};
     open_relation := λ _, Example.relation;
     is_orioledb_rel := λ _, true;
     ORelOidsSetFromRel := λ r,
       {| datoid := 5%N; reloid := rd_id r; relnode := rd_id r |};
     o_tables_get := λ _, Example.o_table;
     PrimaryIndexNumber := 0;
     match_restriction_clauses_to_index := Example.match_clauses;
     old_set_rel_pathlist_hook := None |}.

(** The same relation served by another access method. *)
Definition heap_host : PlannerHost :=
  {| planner_descrs := {| relation_get_descr := λ _, Example.descr |};
     open_relation := λ _, Example.relation;
     is_orioledb_rel := λ _, false;
     ORelOidsSetFromRel := λ r,
       {| datoid := 5%N; reloid := rd_id r; relnode := rd_id r |};
     o_tables_get := λ _, Example.o_table;
     PrimaryIndexNumber := 0;
     match_restriction_clauses_to_index := Example.match_clauses;
     old_set_rel_pathlist_hook := Some Example.old_hook |}.

(** A partial index on [owner] whose predicate the query does not imply,
    with a restriction clause on [owner]. *)
Definition partial_owner_index : IndexOptInfo :=
  {| indexoid := 16399%N; rel_relid := 1%N; ncolumns := 1; nkeycolumns := 1;
     indexkeys := [3]; canreturn := [true];
     indextlist :=
       [makeTargetEntry (EVar (makeVar 1%N 3 23%N (-1) 0%N 0%N)) 1 None false];
     indpred := [EOpaque 900%N]; predOK := false;
     indrestrictinfo := [3%N] |}.

Definition world_with_partial_index : PlannerWorld :=
  {| pw_rel := set_indexlist [Example.status_index; partial_owner_index]
                 Example.rel;
     pw_trace := [] |}.

(** The bitmap heap scan plan under a [Result] node. *)
Definition heap_scan_plan : Plan :=
  {| plan_type := T_BitmapHeapScan; lefttree := Some ExampleScan.probe_plan;
     bitmapqualorig_of := [EOpaque 901%N]; indexid := 0%N |}.

Definition result_plan : Plan :=
  {| plan_type := T_Result; lefttree := Some heap_scan_plan;
     bitmapqualorig_of := []; indexid := 0%N |}.

Definition plan_host : PlanHost :=
  {| plan_planner := Example.host;
     plan_executor := ExampleScan.host;
     planner_rt_fetch := λ _ _, Example.rte;
     targetlist_of := λ _, [];
     qual_of := λ plan, bitmapqualorig_of plan;
     primary_inputtype := λ _, 4294967000%N;
     zeroed_snapshot := [0] |}.

(** An explain host whose renderers write to the buffer and keep track of
    the nesting as the host's do: closing a group does nothing in the text
    format and takes one level back in the others. *)
Definition explain_host : ExplainHost :=
  {| ExplainNode := λ planstate _ _ _ es,
       {| str := {| data := take (Z.to_nat (len (str es))) (data (str es))
                            ++ [Ascii.ascii_of_nat 123; newline;
                                Ascii.ascii_of_nat 120; newline;
                                Ascii.ascii_of_nat 125; newline];
                    len := len (str es) + 6 |};
          format := format es; indent := indent es |};
     ExplainCloseGroup := λ _ _ _ es,
       match format es with
       | EXPLAIN_FORMAT_TEXT => es
       | _ => add_indent (-1) es
       end;
     eanalyze_counters_explain := λ _ _ es, es;
     nodeTag_number := λ _, 0 |}.

Definition probe_state (oid : Oid) : PlanState :=
  {| ps_type := T_BitmapIndexScanState;
     ps_plan := {| plan_type := T_Other 30; lefttree := None;
                   bitmapqualorig_of := []; indexid := oid |};
     nplans := 0; ps_children := [] |}.

Definition or_of_probes : PlanState :=
  {| ps_type := T_BitmapOrState; ps_plan := ExampleScan.probe_plan;
     nplans := 2;
     ps_children := [probe_state 16395%N; probe_state 16390%N] |}.

Definition es_json : ExplainState :=
  {| str := {| data := []; len := 0 |}; format := EXPLAIN_FORMAT_JSON;
     indent := 2 |}.

Definition ec_plain : OExplainContext :=
  {| ancestors := []; ec_ocstate := ExampleScan.created 0%N;
     ec_descr := Example.descr |}.

End ExampleMore.

(** The plan state tree holds only kinds the explain walker renders. *)
Fixpoint tree_supported (planstate : PlanState) : bool :=
  supported_shape (ps_type planstate)
  && forallb tree_supported (ps_children planstate).

(** The walker's context for the instrumented example scan after [Open]. *)
Module ExampleWalk.

Definition ec_instrumented : OExplainContext :=
  {| ancestors := [];
     ec_ocstate := opened (H := ExampleScan.host) ExampleScan.estate 0
                     (ExampleScan.created 300%N);
     ec_descr := Example.descr |}.

End ExampleWalk.

(** ** Returnable columns *)

(** The index returns the column directly: the column is one of its columns,
    at a position that is marked returnable. *)
Definition returns_key (index : IndexOptInfo) (key : Z) : Prop :=
  (key, true) ∈ take (ncolumns index) (zip (indexkeys index) (canreturn index)).

#[global] Instance returns_key_dec index key : Decision (returns_key index key).
Proof. unfold returns_key. apply _. Defined.

(** The example table with an index on [id] whose only column is not marked
    returnable. *)
Module ExampleKeys.

Definition id_index_not_returnable : IndexOptInfo :=
  {| indexoid := 16397%N; rel_relid := 1%N; ncolumns := 1; nkeycolumns := 1;
     indexkeys := [1]; canreturn := [false];
     indextlist :=
       [makeTargetEntry (EVar (makeVar 1%N 1 23%N (-1) 0%N 0%N)) 1 None false];
     indpred := []; predOK := false;
     indrestrictinfo := Example.restrictions |}.

Definition world_id_not_returnable : PlannerWorld :=
  {| pw_rel := set_indexlist [id_index_not_returnable; Example.status_index]
                 Example.rel;
     pw_trace := [] |}.

End ExampleKeys.

(** * Properties *)

(** ** The monad *)

Lemma bind_Ok {W A B} (m : M W A) (k : A → M W B) (w w' : W) (a : A) :
  m w = Ok a w' → bind m k w = k a w'.
Proof. unfold bind. by intros ->. Qed.

(** ** Host list primitives *)

Lemma list_delete_nth_cell_middle {A} (pre post : list A) (x : A) :
  list_delete_nth_cell (pre ++ x :: post) (length pre) = pre ++ post.
Proof.
  unfold list_delete_nth_cell. induction pre as [|y pre IH]; [done|].
  simpl. by rewrite IH.
Qed.

Lemma list_replace_middle {A} (pre post : list A) (x y : A) :
  list_insert_nth (list_delete_nth_cell (pre ++ x :: post) (length pre))
    (length pre) y = pre ++ y :: post.
Proof.
  rewrite list_delete_nth_cell_middle. unfold list_insert_nth.
  by rewrite take_app_length, drop_app_length.
Qed.

(** ** The loops of [orioledb_set_rel_pathlist_hook] *)

Lemma rewritten_plain descr path :
  IsA path T_BitmapHeapPath = false → rewritten descr path = path.
Proof. unfold rewritten. by intros ->. Qed.

Lemma rewrite_until_sample_none descr l :
  Forall (λ p, is_sample_scan p = false) l →
  rewrite_until_sample descr l = (rewritten descr <$> l, false).
Proof.
  induction 1 as [|p l Hp _ IH]; [done|].
  simpl. by rewrite Hp, IH.
Qed.

Lemma rewrite_until_sample_first descr pre sample post :
  Forall (λ p, is_sample_scan p = false) pre →
  is_sample_scan sample = true →
  rewrite_until_sample descr (pre ++ sample :: post)
  = ((rewritten descr <$> pre) ++ sample :: post, true).
Proof.
  intros Hpre Hs. induction Hpre as [|p l Hp _ IH]; simpl.
  - by rewrite Hs.
  - by rewrite Hp, IH.
Qed.

(** The first loop never runs out of the rounds it is given, and leaves the
    list and the report [rewrite_until_sample] describes. *)
Lemma pathlist_loop_spec relation descr post :
  ∀ pre fuel rel tr,
    (length post ≤ fuel)%nat →
    pathlist rel = pre ++ post →
    pathlist_loop fuel relation descr (length pre)
      {| pw_rel := rel; pw_trace := tr |}
    = let '(r, raised) := rewrite_until_sample descr post in
      let w' := {| pw_rel := set_pathlist (pre ++ r) rel; pw_trace := tr |} in
      if raised then Raise (tablesample_error relation) w' else Ok tt w'.
Proof.
  induction post as [|path post IH]; intros pre fuel rel tr Hfuel Hrel.
  - destruct rel as [rid il pl ppl]; simpl in *; subst pl.
    destruct fuel; simpl; unfold bind, get_rel; simpl;
      rewrite bool_decide_eq_false_2 by (rewrite length_app; simpl; lia);
      by rewrite app_nil_r.
  - destruct fuel as [|fuel]; [simpl in Hfuel; lia|].
    destruct rel as [rid il pl ppl]; simpl in Hrel; subst pl.
    assert (Hlook : (pre ++ path :: post) !! length pre = Some path)
      by (by rewrite list_lookup_middle).
    cbn [pathlist_loop]. unfold bind at 1, get_rel at 1. simpl.
    rewrite bool_decide_eq_true_2 by (rewrite length_app; simpl; lia).
    unfold bind at 1, list_nth at 1. rewrite Hlook. simpl.
    assert (IH' : ∀ x rel',
               pathlist rel' = pre ++ x :: post →
               pathlist_loop fuel relation descr (S (length pre))
                 {| pw_rel := rel'; pw_trace := tr |}
               = let '(r, raised) := rewrite_until_sample descr post in
                 let w' := {| pw_rel := set_pathlist (pre ++ x :: r) rel';
                              pw_trace := tr |} in
                 if raised then Raise (tablesample_error relation) w'
                 else Ok tt w').
    { intros x rel' Hrel'.
      specialize (IH (pre ++ [x]) fuel rel' tr).
      rewrite length_app in IH; simpl in IH.
      replace (length pre + 1)%nat with (S (length pre)) in IH by lia.
      rewrite IH; [| simpl in Hfuel; lia | by rewrite <- app_assoc].
      destruct (rewrite_until_sample descr post) as [r raised]; simpl.
      by rewrite <- app_assoc. }
    clear IH. unfold is_sample_scan.
    destruct (IsA path T_Path) eqn:HP; simpl.
    + destruct (bool_decide (pathtype path = T_SampleScan)) eqn:HS.
      * done.
      * unfold bind at 1. simpl. unfold bind at 1. simpl.
        rewrite (IH' path) by done.
        assert (IsA path T_BitmapHeapPath = false) as HB.
        { unfold IsA in *. apply bool_decide_eq_true in HP.
          apply bool_decide_eq_false. congruence. }
        rewrite (rewritten_plain _ _ HB).
        destruct (rewrite_until_sample descr post) as [r raised]; simpl.
        by destruct raised.
    + destruct (IsA path T_BitmapHeapPath) eqn:HB; simpl.
      * unfold bind at 1. simpl. unfold bind at 1. simpl.
        rewrite list_replace_middle.
        rewrite (IH' (transform_path path descr)) by done.
        unfold rewritten. rewrite HB.
        destruct (rewrite_until_sample descr post) as [r raised]; simpl.
        by destruct raised.
      * rewrite (IH' path) by done.
        rewrite (rewritten_plain _ _ HB).
        destruct (rewrite_until_sample descr post) as [r raised]; simpl.
        by destruct raised.
Qed.

(** The second loop never runs out of rounds either and keeps exactly the
    cells whose node is a plain [Path]. *)
Lemma partial_pathlist_loop_spec post :
  ∀ pre fuel rel tr,
    (length post ≤ fuel)%nat →
    partial_pathlist rel = pre ++ post →
    partial_pathlist_loop fuel (length pre)
      {| pw_rel := rel; pw_trace := tr |}
    = Ok tt {| pw_rel :=
                 set_partial_pathlist
                   (pre ++ filter (λ p, type p = T_Path) post) rel;
               pw_trace := tr |}.
Proof.
  induction post as [|path post IH]; intros pre fuel rel tr Hfuel Hrel.
  - destruct rel as [rid il pl ppl]; simpl in *; subst ppl.
    destruct fuel; simpl; unfold bind, get_rel; simpl;
      rewrite bool_decide_eq_false_2 by (rewrite length_app; simpl; lia);
      by rewrite filter_nil, app_nil_r.
  - destruct fuel as [|fuel]; [simpl in Hfuel; lia|].
    destruct rel as [rid il pl ppl]; simpl in Hrel; subst ppl.
    assert (Hlook : (pre ++ path :: post) !! length pre = Some path)
      by (by rewrite list_lookup_middle).
    cbn [partial_pathlist_loop]. unfold bind at 1, get_rel at 1. simpl.
    rewrite bool_decide_eq_true_2 by (rewrite length_app; simpl; lia).
    unfold bind at 1, list_nth at 1. rewrite Hlook. simpl.
    unfold IsA. rewrite filter_cons.
    destruct (decide (type path = T_Path)) as [HP|HP].
    + rewrite bool_decide_eq_true_2 by done. simpl.
      specialize (IH (pre ++ [path]) fuel).
      rewrite length_app in IH; simpl in IH.
      replace (length pre + 1)%nat with (S (length pre)) in IH by lia.
      rewrite IH; [| simpl in Hfuel; lia | simpl; by rewrite <- app_assoc].
      simpl. by rewrite <- app_assoc.
    + rewrite bool_decide_eq_false_2 by done. simpl.
      unfold bind at 1. simpl.
      rewrite list_delete_nth_cell_middle.
      rewrite (IH pre fuel); [done | simpl in Hfuel; lia | done].
Qed.

Section planner_facts.
Context `{PlannerHost}.

Lemma call_old_set_rel_pathlist_hook_spec root rti rte w :
  call_old_set_rel_pathlist_hook root rti rte w
  = Ok tt (after_old_hook root rti rte w).
Proof.
  unfold call_old_set_rel_pathlist_hook, after_old_hook.
  destruct old_set_rel_pathlist_hook; [|done]. by destruct w.
Qed.

Lemma old_hook_calls_app tr1 tr2 :
  old_hook_calls (tr1 ++ tr2) = (old_hook_calls tr1 + old_hook_calls tr2)%nat.
Proof. unfold old_hook_calls. by rewrite List.filter_app, length_app. Qed.

(** The whole hook in closed form. *)
Lemma orioledb_set_rel_pathlist_hook_spec root rti rte rel tr :
  orioledb_set_rel_pathlist_hook root rti rte
    {| pw_rel := rel; pw_trace := tr |}
  = if is_plain_or_matview rte then
      let relation := open_relation (rte_relid rte) in
      let opened := tr ++ [EvRelationOpen (rte_relid rte)] in
      if is_orioledb_rel relation then
        let descr := relation_get_descr relation in
        let '(r, raised) := rewrite_until_sample descr (pathlist rel) in
        if raised then
          Raise (tablesample_error relation)
            {| pw_rel := set_pathlist r rel; pw_trace := opened |}
        else
          Ok tt (after_old_hook root rti rte
                   {| pw_rel :=
                        set_partial_pathlist
                          (filter (λ p, type p = T_Path)
                             (partial_pathlist rel))
                          (set_pathlist r rel);
                      pw_trace :=
                        opened ++ [EvRelationClose (rd_id relation)] |})
      else
        Ok tt (after_old_hook root rti rte
                 {| pw_rel := rel;
                    pw_trace :=
                      opened ++ [EvRelationClose (rd_id relation)] |})
    else
      Ok tt (after_old_hook root rti rte {| pw_rel := rel; pw_trace := tr |}).
Proof.
  unfold orioledb_set_rel_pathlist_hook.
  destruct (is_plain_or_matview rte); simpl.
  2: { unfold bind at 1. simpl. apply call_old_set_rel_pathlist_hook_spec. }
  unfold table_open, table_close, emit, modify, bind, get_rel, get, ret.
  simpl.
  destruct (is_orioledb_rel (open_relation (rte_relid rte))); simpl.
  2: { apply call_old_set_rel_pathlist_hook_spec. }
  rewrite (pathlist_loop_spec _ _ (pathlist rel) [] _ rel) by done.
  destruct (rewrite_until_sample _ (pathlist rel)) as [r raised]; simpl.
  destruct raised; [done|].
  rewrite (partial_pathlist_loop_spec (partial_pathlist rel) [] _
             (set_pathlist r rel)) by done.
  simpl. apply call_old_set_rel_pathlist_hook_spec.
Qed.

(** C4: on an orioledb table every bitmap heap path of the path list is
    replaced, at the position it stood, by a custom path that has the row
    estimate, the startup and total cost, the path keys and the parallel
    fields of the source path, carries one fresh [O_BitmapHeapPath]
    descriptor and keeps the source path as its only nested path; the other
    cells and the length of the list are as before.  (The list holds no
    sample scan here; with one the hook leaves by its report.) *)
Theorem C4_bitmap_heap_path_replaced_in_place root rti rte w i path :
  is_plain_or_matview rte = true →
  is_orioledb_rel (open_relation (rte_relid rte)) = true →
  Forall (λ p, is_sample_scan p = false) (pathlist (pw_rel w)) →
  pathlist (pw_rel w) !! i = Some path →
  type path = T_BitmapHeapPath →
  ∃ w' custom,
    orioledb_set_rel_pathlist_hook root rti rte w
    = Ok tt (after_old_hook root rti rte w')
    ∧ length (pathlist (pw_rel w')) = length (pathlist (pw_rel w))
    ∧ pathlist (pw_rel w') !! i = Some custom
    ∧ type custom = T_CustomPath
    ∧ pathtype custom = T_CustomScan
    ∧ rows custom = rows path
    ∧ startup_cost custom = startup_cost path
    ∧ total_cost custom = total_cost path
    ∧ pathkeys custom = pathkeys path
    ∧ parallel_aware custom = parallel_aware path
    ∧ parallel_safe custom = parallel_safe path
    ∧ parallel_workers custom = parallel_workers path
    ∧ methods custom = Some o_path_methods
    ∧ custom_private custom = [ {| o_path := {| o_type := O_BitmapHeapPath |} |} ]
    ∧ custom_paths custom = [path]
    ∧ (∀ j other,
         pathlist (pw_rel w) !! j = Some other →
         type other ≠ T_BitmapHeapPath →
         pathlist (pw_rel w') !! j = Some other).
Proof.
  intros Hrte Horiole Hnosample Hi Htype.
  destruct w as [rel tr]; simpl in *.
  rewrite orioledb_set_rel_pathlist_hook_spec, Hrte. simpl.
  rewrite Horiole, (rewrite_until_sample_none _ _ Hnosample).
  set (descr := relation_get_descr (open_relation (rte_relid rte))).
  eexists _, (transform_path path descr). split; [reflexivity|]. simpl.
  assert (IsA path T_BitmapHeapPath = true) as HB
    by (by apply bool_decide_eq_true).
  split; [by rewrite length_fmap|].
  split; [rewrite list_lookup_fmap, Hi; simpl; unfold rewritten; by rewrite HB|].
  simpl. rewrite HB. repeat (split; [done|]).
  intros j other Hj Hother.
  rewrite list_lookup_fmap, Hj. simpl. f_equal.
  apply rewritten_plain. by apply bool_decide_eq_false.
Qed.

(** C5 (as the code has it): on an orioledb table whose path list holds a
    sample scan the hook leaves by a report classified "feature not
    supported" whose message names the table.  It is raised when the loop
    reaches the first sample scan: that cell and the cells behind it are
    untouched, the partial path list is untouched, the relation is not
    closed and the previously installed hook is not called; the cells before
    it have been rewritten, so the list is unchanged exactly when no bitmap
    heap path stands before the sample scan. *)
Theorem C5_sample_scan_rejected root rti rte rel tr pre sample post :
  is_plain_or_matview rte = true →
  is_orioledb_rel (open_relation (rte_relid rte)) = true →
  pathlist rel = pre ++ sample :: post →
  Forall (λ p, is_sample_scan p = false) pre →
  is_sample_scan sample = true →
  let relation := open_relation (rte_relid rte) in
  let descr := relation_get_descr relation in
  orioledb_set_rel_pathlist_hook root rti rte
    {| pw_rel := rel; pw_trace := tr |}
  = Raise (tablesample_error relation)
      {| pw_rel :=
           set_pathlist ((rewritten descr <$> pre) ++ sample :: post) rel;
         pw_trace := tr ++ [EvRelationOpen (rte_relid rte)] |}
  ∧ sqlerrcode (tablesample_error relation) = ERRCODE_FEATURE_NOT_SUPPORTED
  ∧ message (tablesample_error relation)
    = "orioledb table " +:+ dquote +:+ relname relation +:+ dquote
      +:+ " does not support TABLESAMPLE"
  ∧ (Forall (λ p, type p ≠ T_BitmapHeapPath) pre
     ↔ (rewritten descr <$> pre) ++ sample :: post = pathlist rel).
Proof.
  intros Hrte Horiole Hrel Hpre Hsample relation descr.
  rewrite orioledb_set_rel_pathlist_hook_spec, Hrte. simpl.
  rewrite Horiole, Hrel, (rewrite_until_sample_first _ _ _ _ Hpre Hsample).
  repeat (split; [done|]).
  clear Hrel Hpre. split.
  - intros Hnobitmap. f_equal.
    induction Hnobitmap as [|p l Hp _ IH]; [done|].
    rewrite fmap_cons. f_equal; [|done].
    apply rewritten_plain. by apply bool_decide_eq_false.
  - intros Hsame%app_inv_tail.
    induction pre as [|p l IH]; [done|].
    rewrite fmap_cons in Hsame. injection Hsame as Hp Hl.
    constructor; [|by apply IH].
    intros Hbitmap. unfold rewritten, IsA in Hp.
    rewrite bool_decide_eq_true_2 in Hp by done.
    apply (f_equal type) in Hp. simpl in Hp. congruence.
Qed.

(** C6: on an orioledb table the hook leaves in the partial path list
    exactly the cells whose node is a plain [Path], in their order; every
    other node - a bitmap heap path among them - is deleted from it. *)
Theorem C6_partial_pathlist_keeps_plain_paths_only root rti rte w :
  is_plain_or_matview rte = true →
  is_orioledb_rel (open_relation (rte_relid rte)) = true →
  Forall (λ p, is_sample_scan p = false) (pathlist (pw_rel w)) →
  ∃ w',
    orioledb_set_rel_pathlist_hook root rti rte w
    = Ok tt (after_old_hook root rti rte w')
    ∧ partial_pathlist (pw_rel w')
      = filter (λ p, type p = T_Path) (partial_pathlist (pw_rel w))
    ∧ (∀ p, p ∈ partial_pathlist (pw_rel w')
            ↔ p ∈ partial_pathlist (pw_rel w) ∧ type p = T_Path)
    ∧ (∀ p, p ∈ partial_pathlist (pw_rel w) →
            type p = T_BitmapHeapPath →
            p ∉ partial_pathlist (pw_rel w')).
Proof.
  intros Hrte Horiole Hnosample.
  destruct w as [rel tr]; simpl in *.
  rewrite orioledb_set_rel_pathlist_hook_spec, Hrte. simpl.
  rewrite Horiole, (rewrite_until_sample_none _ _ Hnosample).
  eexists. split; [reflexivity|]. simpl.
  split; [done|]. split.
  - intros p. rewrite list_elem_of_filter. tauto.
  - intros p _ Hp. rewrite list_elem_of_filter. intros [Hq _]. congruence.
Qed.

(** C10: whatever the range-table entry and the table, when the hook has
    finished its own work it calls the previously installed hook, once, if
    there is one, and does nothing more; the only other way it ends is the
    report for a sample scan on an orioledb table. *)
Theorem C10_old_hook_called_once root rti rte w :
  match orioledb_set_rel_pathlist_hook root rti rte w with
  | Ok _ wf =>
      ∃ w',
        wf = after_old_hook root rti rte w'
        ∧ old_hook_calls (pw_trace w') = old_hook_calls (pw_trace w)
        ∧ old_hook_calls (pw_trace wf)
          = (old_hook_calls (pw_trace w)
             + match old_set_rel_pathlist_hook with
               | Some _ => 1
               | None => 0
               end)%nat
        ∧ match old_set_rel_pathlist_hook with
          | Some hook =>
              pw_rel wf = hook root (pw_rel w') rti rte
              ∧ last (pw_trace wf) = Some (EvOldHook root (pw_rel w') rti rte)
          | None => True
          end
  | Raise e _ =>
      is_plain_or_matview rte = true
      ∧ is_orioledb_rel (open_relation (rte_relid rte)) = true
      ∧ e = tablesample_error (open_relation (rte_relid rte))
  | Undef _ | OutOfFuel => False
  end.
Proof.
  assert (Hafter : ∀ w0 w',
            old_hook_calls (pw_trace w') = old_hook_calls (pw_trace w0) →
            ∃ w'',
              after_old_hook root rti rte w' = after_old_hook root rti rte w''
              ∧ old_hook_calls (pw_trace w'') = old_hook_calls (pw_trace w0)
              ∧ old_hook_calls (pw_trace (after_old_hook root rti rte w'))
                = (old_hook_calls (pw_trace w0)
                   + match old_set_rel_pathlist_hook with
                     | Some _ => 1
                     | None => 0
                     end)%nat
              ∧ match old_set_rel_pathlist_hook with
                | Some hook =>
                    pw_rel (after_old_hook root rti rte w')
                    = hook root (pw_rel w'') rti rte
                    ∧ last (pw_trace (after_old_hook root rti rte w'))
                      = Some (EvOldHook root (pw_rel w'') rti rte)
                | None => True
                end).
  { intros w0 w' Hcount. exists w'. split; [done|]. split; [done|].
    unfold after_old_hook. destruct old_set_rel_pathlist_hook; simpl.
    - rewrite old_hook_calls_app, Hcount. split; [done|].
      split; [done|]. by rewrite last_snoc.
    - split; [lia|done]. }
  destruct w as [rel tr].
  rewrite orioledb_set_rel_pathlist_hook_spec.
  destruct (is_plain_or_matview rte); simpl;
    [|by apply (Hafter {| pw_rel := rel; pw_trace := tr |})].
  destruct (is_orioledb_rel (open_relation (rte_relid rte))); simpl.
  - destruct (rewrite_until_sample _ (pathlist rel)) as [r [|]]; [done|].
    apply (Hafter {| pw_rel := rel; pw_trace := tr |}). simpl.
    rewrite !old_hook_calls_app. simpl. unfold old_hook_calls at 2 3. simpl.
    lia.
  - apply (Hafter {| pw_rel := rel; pw_trace := tr |}). simpl.
    rewrite !old_hook_calls_app. simpl. unfold old_hook_calls at 2 3. simpl.
    lia.
Qed.

End planner_facts.

(** ** The augmentation loop of [orioledb_set_plain_rel_pathlist_hook] *)

Lemma array_grow_set_snoc {A} (pad : A) (a : list A) (x : A) (n : nat) :
  length a = n → array_grow_set pad a (S n) x = a ++ [x].
Proof.
  intros <-. unfold array_grow_set. simpl.
  replace (S (length a)) with (length a + 1)%nat by lia.
  rewrite resize_add_eq by done. simpl.
  rewrite insert_app_r_alt by lia.
  by rewrite Nat.sub_diag.
Qed.

Lemma key_is_member_spec (keys : list Z) (key : Z) (w : PlannerWorld) n :
  ∀ s, (s + n ≤ length keys)%nat →
    key_is_member keys key (seq s n) w
    = Ok (bool_decide (key ∈ take n (drop s keys))) w.
Proof.
  induction n as [|n IH]; intros s Hlen; simpl.
  - done.
  - destruct (lookup_lt_is_Some_2 keys s) as [k Hk]; [lia|].
    unfold bind, array_get. rewrite Hk. simpl.
    rewrite (drop_S _ _ _ Hk). simpl.
    destruct (decide (key = k)) as [->|Hne].
    + rewrite bool_decide_eq_true_2 by done.
      rewrite bool_decide_eq_true_2; [done|]. apply list_elem_of_here.
    + rewrite bool_decide_eq_false_2 by done.
      rewrite IH by lia. f_equal. apply bool_decide_ext.
      rewrite elem_of_cons. tauto.
Qed.

Lemma TupleDescAttr_spec relation pk_field (w : PlannerWorld) :
  pk_field_ok relation pk_field →
  TupleDescAttr (rd_att relation) (attnum pk_field) w
  = Ok (rd_att relation !!! Z.to_nat (attnum pk_field)) w.
Proof.
  intros [Hlo Hhi]. unfold TupleDescAttr, array_get.
  rewrite bool_decide_eq_true_2 by done.
  destruct (lookup_lt_is_Some_2 (rd_att relation)
              (Z.to_nat (attnum pk_field))) as [att Hatt]; [lia|].
  rewrite Hatt. by rewrite (list_lookup_total_correct _ _ _ Hatt).
Qed.

(** On a well-formed index the loop body is [with_pkey_field]. *)
Lemma add_pkey_field_spec relation pk_field index w :
  index_arrays_ok index →
  pk_field_ok relation pk_field →
  add_pkey_field relation pk_field index w
  = Ok (with_pkey_field relation pk_field index) w.
Proof.
  intros [Hkeys Hret] Hfield. unfold add_pkey_field, with_pkey_field.
  unfold bind at 1.
  rewrite (key_is_member_spec _ _ _ _ 0) by (simpl; lia).
  rewrite drop_0. unfold has_key.
  destruct (decide (attnum pk_field + 1 ∈ take (ncolumns index) (indexkeys index)))
    as [Hin|Hnin].
  - by rewrite bool_decide_eq_true_2.
  - rewrite bool_decide_eq_false_2 by done. simpl.
    unfold bind. rewrite TupleDescAttr_spec by done. simpl.
    unfold append_pkey_column, pkey_entry.
    by rewrite !array_grow_set_snoc by done.
Qed.

Lemma append_pkey_column_arrays_ok relation pk_field index :
  index_arrays_ok index →
  index_arrays_ok (append_pkey_column relation pk_field index).
Proof.
  intros [Hkeys Hret]. split; simpl; rewrite length_app; simpl; lia.
Qed.

Lemma with_pkey_field_arrays_ok relation pk_field index :
  index_arrays_ok index →
  index_arrays_ok (with_pkey_field relation pk_field index).
Proof.
  intros Hok. unfold with_pkey_field. case_decide; [done|].
  by apply append_pkey_column_arrays_ok.
Qed.

Lemma with_pkey_fields_arrays_ok relation pk_fields :
  ∀ index, index_arrays_ok index →
    index_arrays_ok (with_pkey_fields relation pk_fields index).
Proof.
  unfold with_pkey_fields.
  induction pk_fields as [|f fs IH]; intros index Hok; [done|].
  simpl. apply IH. by apply with_pkey_field_arrays_ok.
Qed.

Lemma map_in_place_spec {W A} (body : A → M W A) (f : A → A) (w : W) l :
  Forall (λ x, body x w = Ok (f x) w) l →
  map_in_place body l w = Ok (f <$> l) w.
Proof.
  induction 1 as [|x l Hx _ IH]; [done|].
  simpl. unfold bind at 1. rewrite Hx. unfold bind at 1. by rewrite IH.
Qed.

(** The first loop, entered at field [s] with [n] fields to go. *)
Lemma pkey_fields_loop_from relation (all_fields : list OTableIndexField) tr n :
  ∀ s rel,
    (s + n ≤ length all_fields)%nat →
    Forall (pk_field_ok relation) all_fields →
    Forall index_arrays_ok (indexlist rel) →
    for_each (seq s n) (λ i,
      pk_field <- array_get all_fields i ;;
      rel <- get_rel ;;
      indexlist' <- map_in_place (add_pkey_field relation pk_field)
                      (indexlist rel) ;;
      put_rel (set_indexlist indexlist' rel))
      {| pw_rel := rel; pw_trace := tr |}
    = Ok tt {| pw_rel :=
                 set_indexlist
                   (with_pkey_fields relation (take n (drop s all_fields))
                    <$> indexlist rel) rel;
               pw_trace := tr |}.
Proof.
  induction n as [|n IH]; intros s rel Hlen Hfields Hix.
  - simpl. unfold ret. f_equal. destruct rel; simpl. f_equal. f_equal.
    unfold with_pkey_fields. simpl. by rewrite list_fmap_id.
  - destruct (lookup_lt_is_Some_2 all_fields s) as [f Hf]; [lia|].
    simpl. unfold bind at 1. unfold bind at 1. unfold array_get at 1.
    rewrite Hf. simpl. unfold bind at 1. simpl. unfold bind at 1.
    rewrite (map_in_place_spec _ (with_pkey_field relation f)).
    2: { eapply Forall_impl; [exact Hix|]. intros index Hok. simpl.
         apply add_pkey_field_spec; [done|].
         eapply Forall_forall; [exact Hfields|].
         by eapply list_elem_of_lookup_2. }
    simpl. rewrite IH; [| lia | done |].
    2: { simpl. apply Forall_fmap. eapply Forall_impl; [exact Hix|].
         intros index Hok. by apply with_pkey_field_arrays_ok. }
    simpl. rewrite (drop_S _ _ _ Hf). simpl.
    rewrite <- list_fmap_compose. done.
Qed.

(** ** What the augmentation does to one index *)

Lemma has_key_append relation pk_field index key :
  index_arrays_ok index →
  has_key index key →
  has_key (append_pkey_column relation pk_field index) key.
Proof.
  intros [Hkeys _]. unfold has_key. simpl.
  rewrite <- Hkeys, take_ge by lia.
  replace (S (length (indexkeys index)))
    with (length (indexkeys index ++ [attnum pk_field + 1]))
    by (rewrite length_app; simpl; lia).
  rewrite take_ge by lia. set_solver.
Qed.

Lemma has_key_with_pkey_field relation pk_field index key :
  index_arrays_ok index →
  has_key index key →
  has_key (with_pkey_field relation pk_field index) key.
Proof.
  intros Hok Hkey. unfold with_pkey_field. case_decide; [done|].
  by apply has_key_append.
Qed.

Lemma has_key_after_with_pkey_field relation pk_field index :
  index_arrays_ok index →
  has_key (with_pkey_field relation pk_field index) (attnum pk_field + 1).
Proof.
  intros [Hkeys _]. unfold with_pkey_field. case_decide; [done|].
  unfold has_key. simpl.
  replace (S (ncolumns index))
    with (length (indexkeys index ++ [attnum pk_field + 1]))
    by (rewrite length_app; simpl; lia).
  rewrite take_ge by lia. set_solver.
Qed.

Lemma has_key_with_pkey_fields relation pk_fields key :
  ∀ index,
    index_arrays_ok index →
    has_key index key →
    has_key (with_pkey_fields relation pk_fields index) key.
Proof.
  unfold with_pkey_fields.
  induction pk_fields as [|f fs IH]; intros index Hok Hkey; [done|].
  simpl. apply IH.
  - by apply with_pkey_field_arrays_ok.
  - by apply has_key_with_pkey_field.
Qed.

(** After the loop every primary key column is a column of the index. *)
Lemma with_pkey_fields_complete relation pk_fields :
  ∀ index,
    index_arrays_ok index →
    Forall (λ f, has_key (with_pkey_fields relation pk_fields index)
                   (attnum f + 1)) pk_fields.
Proof.
  induction pk_fields as [|f fs IH]; intros index Hok; [done|].
  constructor.
  - unfold with_pkey_fields. simpl.
    apply has_key_with_pkey_fields.
    + by apply with_pkey_field_arrays_ok.
    + by apply has_key_after_with_pkey_field.
  - apply (IH (with_pkey_field relation f index)).
    by apply with_pkey_field_arrays_ok.
Qed.

(** An index that has every primary key column is left as it is. *)
Lemma with_pkey_fields_noop relation pk_fields index :
  Forall (λ f, has_key index (attnum f + 1)) pk_fields →
  with_pkey_fields relation pk_fields index = index.
Proof.
  unfold with_pkey_fields.
  induction 1 as [|f fs Hf _ IH]; [done|].
  simpl. unfold with_pkey_field at 2. by rewrite decide_True.
Qed.

Lemma with_pkey_fields_idempotent relation pk_fields index :
  index_arrays_ok index →
  with_pkey_fields relation pk_fields
    (with_pkey_fields relation pk_fields index)
  = with_pkey_fields relation pk_fields index.
Proof.
  intros Hok. apply with_pkey_fields_noop.
  by apply with_pkey_fields_complete.
Qed.

Lemma extended_by_nil relation index : extended_by relation [] index index.
Proof.
  unfold extended_by. destruct index; simpl.
  by rewrite Nat.add_0_r, !app_nil_r.
Qed.

Lemma extended_by_snoc relation added pk_field index index' :
  extended_by relation added index index' →
  extended_by relation (added ++ [pk_field]) index
    (append_pkey_column relation pk_field index').
Proof.
  unfold extended_by. intros ->. unfold append_pkey_column. simpl.
  rewrite length_app, fmap_app, replicate_add, imap_app. simpl.
  rewrite <- !app_assoc, Nat.add_0_r.
  f_equal. lia.
Qed.

(** The loop appends fields of the primary key that the index lacked, and
    changes nothing else. *)
Lemma with_pkey_fields_extends relation pk_fields :
  ∀ index,
    index_arrays_ok index →
    ∃ added,
      Forall (λ f, f ∈ pk_fields ∧ ¬ has_key index (attnum f + 1)) added
      ∧ extended_by relation added index
          (with_pkey_fields relation pk_fields index).
Proof.
  induction pk_fields as [|f fs IH] using rev_ind; intros index Hok.
  - exists []. split; [done|]. apply extended_by_nil.
  - destruct (IH index Hok) as (added & Hadded & Hext).
    unfold with_pkey_fields in *. rewrite foldl_app. simpl.
    set (index' := foldl _ index fs) in *.
    assert (index_arrays_ok index') as Hok'
      by (by apply with_pkey_fields_arrays_ok).
    unfold with_pkey_field at 1.
    destruct (decide (has_key index' (attnum f + 1))) as [Hin|Hnin].
    + exists added. split; [|done].
      eapply Forall_impl; [exact Hadded|].
      intros g [Hg Hlack]. split; [|done]. apply elem_of_app. by left.
    + exists (added ++ [f]). split; [|by apply extended_by_snoc].
      apply Forall_app. split.
      * eapply Forall_impl; [exact Hadded|].
        intros g [Hg Hlack]. split; [|done]. apply elem_of_app. by left.
      * constructor; [|done].
        split; [apply elem_of_app; right; apply list_elem_of_here|].
        intros Hhas. apply Hnin.
        by apply (has_key_with_pkey_fields relation fs).
Qed.

(** An attribute number that fits an [int16] passes unchanged. *)
Lemma int16_of_int_small z :
  - 2 ^ 15 ≤ z < 2 ^ 15 → int16_of_int z = z.
Proof.
  intros Hz. unfold int16_of_int. rewrite Z.mod_small; lia.
Qed.

(** In range, the entry made for a primary key field carries the column
    number of the table and the position of the new index column. *)
Lemma pkey_entry_in_range relation index_relid col pk_field :
  attnum pk_field + 1 < 2 ^ 15 →
  0 ≤ attnum pk_field →
  Z.of_nat (S col) < 2 ^ 15 →
  resno (pkey_entry relation index_relid col pk_field) = Z.of_nat (S col)
  ∧ ∃ v, expr (pkey_entry relation index_relid col pk_field) = EVar v
         ∧ varattno v = attnum pk_field + 1
         ∧ varno v = index_relid.
Proof.
  intros Hatt Hpos Hcol. unfold pkey_entry, makeTargetEntry, makeVar.
  cbn [resno expr]. split; [apply int16_of_int_small; lia|].
  eexists. split; [reflexivity|]. cbn [varattno varno].
  split; [apply int16_of_int_small; lia|done].
Qed.

(** The columns of an extended index: those it had and those appended. *)
Lemma has_key_extended relation added index index' key :
  index_arrays_ok index →
  extended_by relation added index index' →
  has_key index' key
  ↔ has_key index key ∨ key ∈ ((λ f, attnum f + 1) <$> added).
Proof.
  intros [Hkeys _] ->. unfold has_key. simpl.
  rewrite !take_ge, elem_of_app; [done|lia|].
  rewrite length_app, length_fmap. lia.
Qed.

Lemma zip_replicate_true (keys : list Z) :
  zip keys (replicate (length keys) true) = (λ k, (k, true)) <$> keys.
Proof. induction keys as [|k keys IH]; [done|]. simpl. by rewrite IH. Qed.

(** The columns an extended index returns: those it returned and those
    appended. *)
Lemma returns_key_extended relation added index index' key :
  index_arrays_ok index →
  extended_by relation added index index' →
  returns_key index' key
  ↔ returns_key index key ∨ key ∈ ((λ f, attnum f + 1) <$> added).
Proof.
  intros [Hkeys Hreturn] ->. unfold returns_key. simpl.
  assert (length (zip (indexkeys index) (canreturn index)) = ncolumns index)
    as Hzip by (rewrite length_zip_with; lia).
  rewrite zip_with_app by lia.
  rewrite !take_ge, elem_of_app.
  - rewrite <- (length_fmap (λ f, attnum f + 1) added), zip_replicate_true.
    rewrite list_elem_of_fmap. split.
    + intros [?|(k & [= ->] & ?)]; [by left|by right].
    + intros [?|?]; [by left|]. right. by exists key.
  - lia.
  - rewrite length_app, Hzip, length_zip_with, length_fmap, length_replicate.
    lia.
Qed.

(** The fields the loop appends are fields of the primary key in their
    order, none of them twice, and they are the fields the index lacked. *)
Lemma with_pkey_fields_added relation pk_fields :
  ∀ index,
    index_arrays_ok index →
    ∃ added,
      added `sublist_of` pk_fields
      ∧ NoDup ((λ f, attnum f + 1) <$> added)
      ∧ (∀ f, f ∈ pk_fields →
              (attnum f + 1 ∈ ((λ f, attnum f + 1) <$> added)
               ↔ ¬ has_key index (attnum f + 1)))
      ∧ extended_by relation added index
          (with_pkey_fields relation pk_fields index).
Proof.
  induction pk_fields as [|f fs IH] using rev_ind; intros index Hok.
  - exists []. split; [done|]. split; [constructor|].
    split; [by intros f ?%elem_of_nil|]. apply extended_by_nil.
  - destruct (IH index Hok) as (added & Hsub & Hnodup & Hiff & Hext).
    unfold with_pkey_fields in *. rewrite foldl_app. simpl.
    set (index' := foldl _ index fs) in *.
    pose proof (has_key_extended relation added index index') as Hkey.
    unfold with_pkey_field at 1.
    destruct (decide (has_key index' (attnum f + 1))) as [Hin|Hnin].
    + exists added. split; [by apply sublist_inserts_r|].
      split; [done|]. split; [|done].
      intros g [Hg|Hg%list_elem_of_singleton]%elem_of_app; [by apply Hiff|].
      subst g. apply (Hkey _ Hok Hext) in Hin. split.
      * intros Hadded Hhas.
        apply list_elem_of_fmap in Hadded as (g & Hg & Hadded).
        assert (g ∈ fs) as Hgfs by (by eapply elem_of_sublist).
        apply (Hiff g Hgfs); [|by rewrite <- Hg].
        apply list_elem_of_fmap. by exists g.
      * intros Hlack. by destruct Hin.
    + assert ((attnum f + 1 ∉ (λ f, attnum f + 1) <$> added)
              ∧ ¬ has_key index (attnum f + 1)) as [Hfresh Hlack].
      { split; intros ?; apply Hnin, (Hkey _ Hok Hext); [by right|by left]. }
      exists (added ++ [f]). split; [by apply sublist_app|].
      split.
      { rewrite fmap_app. apply NoDup_app. split; [done|].
        split; [|apply NoDup_singleton].
        intros k Hk ->%list_elem_of_singleton. done. }
      split; [|by apply extended_by_snoc].
      intros g Hg. rewrite fmap_app, elem_of_app. simpl.
      rewrite list_elem_of_singleton.
      apply elem_of_app in Hg as [Hg|Hg%list_elem_of_singleton].
      * split.
        -- intros [Hin|Heq]; [by apply (Hiff g Hg)|]. by rewrite Heq.
        -- intros Hl. left. by apply (Hiff g Hg).
      * subst g. split; [done|]. by right.
Qed.

Section plain_hook_facts.
Context `{PlannerHost}.

(** The value the second loop leaves in [result]: decided by the last index
    it examines. *)
Lemma restriction_loop_last root l :
  ∀ result,
    restriction_loop root l result
    = match last (List.filter examined l) with
      | Some index => negb (has_matching_clause root index)
      | None => result
      end.
Proof.
  induction l as [|index l IH]; intros result; [done|].
  simpl.
  assert (examined index
          = negb (negb (is_NIL (indpred index)) && negb (predOK index)))
    as -> by done.
  destruct (negb (is_NIL (indpred index)) && negb (predOK index)); simpl.
  - apply IH.
  - rewrite IH. destruct (List.filter examined l) as [|i l'] eqn:Hl; [done|].
    change (last (index :: i :: l')) with (last (i :: l')).
    by destruct (last (i :: l')) eqn:Hlast; [|apply last_None in Hlast].
Qed.

(** The plain-scan hook in closed form, on a table with a primary key whose
    descriptors are well formed. *)
Lemma orioledb_set_plain_rel_pathlist_hook_spec root rte rel tr primary :
  let relation := open_relation (rte_relid rte) in
  let o_table := o_tables_get (ORelOidsSetFromRel relation) in
  is_plain_or_matview rte = true →
  is_orioledb_rel relation = true →
  has_primary o_table = true →
  indices o_table !! PrimaryIndexNumber = Some primary →
  (nfields primary ≤ length (fields primary))%nat →
  Forall (pk_field_ok relation) (fields primary) →
  Forall index_arrays_ok (indexlist rel) →
  let indexlist' :=
    with_pkey_fields relation (pkey_fields primary) <$> indexlist rel in
  orioledb_set_plain_rel_pathlist_hook root rte
    {| pw_rel := rel; pw_trace := tr |}
  = Ok (restriction_loop root indexlist' true)
      {| pw_rel := set_indexlist indexlist' rel;
         pw_trace := tr ++ [EvRelationOpen (rte_relid rte); EvTableFree;
                            EvRelationClose (rd_id relation)] |}.
Proof.
  intros relation o_table Hrte Horiole Hprimary Hlookup Hn Hfields Hix.
  unfold orioledb_set_plain_rel_pathlist_hook. rewrite Hrte.
  unfold relation_open, table_open, relation_close, table_close, o_table_free.
  unfold emit, modify. unfold bind at 1. unfold bind at 1. simpl.
  fold relation. rewrite Horiole. fold o_table. rewrite Hprimary.
  unfold bind at 1. unfold bind at 1. unfold bind at 1. unfold bind at 1.
  unfold array_get at 1. rewrite Hlookup. simpl.
  unfold bind at 1. unfold pkey_fields_loop.
  rewrite (pkey_fields_loop_from relation (fields primary) _ _ 0);
    [| simpl; lia | done | done].
  rewrite drop_0. unfold get_rel, bind, get, ret. simpl.
  by rewrite <- !app_assoc.
Qed.

End plain_hook_facts.

Section plain_hook_claims.
Context `{PlannerHost}.

(** C3 (as the code has it): for a table with a primary key, after the
    augmentation step every index of the table has every primary key column
    among its columns.  The columns appended to an index are the primary
    key columns it lacked, in the order of the primary key and each once;
    each is appended to the key columns, marked returnable and given a
    target-list entry, whose attribute number and position go through
    [AttrNumber]; nothing else in the index changes.  A primary key column
    the index already had keeps the returnable mark it had: after the step
    the index returns a primary key column directly exactly when it lacked
    the column or returned it before.  Run again on the result, the step
    changes nothing. *)
Theorem C3_missing_primary_key_columns_appended root rte w primary :
  let relation := open_relation (rte_relid rte) in
  let o_table := o_tables_get (ORelOidsSetFromRel relation) in
  is_plain_or_matview rte = true →
  is_orioledb_rel relation = true →
  has_primary o_table = true →
  indices o_table !! PrimaryIndexNumber = Some primary →
  (nfields primary ≤ length (fields primary))%nat →
  Forall (pk_field_ok relation) (fields primary) →
  Forall index_arrays_ok (indexlist (pw_rel w)) →
  ∃ result w',
    orioledb_set_plain_rel_pathlist_hook root rte w = Ok result w'
    ∧ Forall2 (λ index index',
                 (∃ added,
                    added `sublist_of` pkey_fields primary
                    ∧ NoDup ((λ f, attnum f + 1) <$> added)
                    ∧ (∀ f, f ∈ pkey_fields primary →
                            (attnum f + 1 ∈ ((λ f, attnum f + 1) <$> added)
                             ↔ ¬ has_key index (attnum f + 1)))
                    ∧ extended_by relation added index index')
                 ∧ Forall (λ f,
                             has_key index' (attnum f + 1)
                             ∧ (returns_key index' (attnum f + 1)
                                ↔ returns_key index (attnum f + 1)
                                  ∨ ¬ has_key index (attnum f + 1)))
                     (pkey_fields primary))
        (indexlist (pw_rel w)) (indexlist (pw_rel w'))
    ∧ ∃ result' w'',
        orioledb_set_plain_rel_pathlist_hook root rte w' = Ok result' w''
        ∧ indexlist (pw_rel w'') = indexlist (pw_rel w').
Proof.
  intros relation o_table Hrte Horiole Hprimary Hlookup Hn Hfields Hix.
  destruct w as [rel tr]; simpl in *.
  eexists _, _. split.
  { by apply orioledb_set_plain_rel_pathlist_hook_spec. }
  simpl. fold relation.
  assert (Forall index_arrays_ok
            (with_pkey_fields relation (pkey_fields primary) <$> indexlist rel))
    as Hix'.
  { apply Forall_fmap. eapply Forall_impl; [exact Hix|].
    intros index Hok. by apply with_pkey_fields_arrays_ok. }
  split.
  - apply Forall2_fmap_r, Forall_Forall2_diag.
    eapply Forall_impl; [exact Hix|].
    intros index Hok.
    destruct (with_pkey_fields_added relation (pkey_fields primary) index Hok)
      as (added & Hsub & Hnodup & Hiff & Hext).
    split; [by exists added|].
    apply Forall_forall. intros f Hf.
    split.
    { pose proof (with_pkey_fields_complete relation (pkey_fields primary)
                    index Hok) as Hall.
      by apply (proj1 (Forall_forall _ _) Hall f). }
    rewrite (returns_key_extended relation added index _ _ Hok Hext).
    by rewrite (Hiff f Hf).
  - eexists _, _. split.
    { by apply orioledb_set_plain_rel_pathlist_hook_spec. }
    simpl. fold relation. rewrite <- list_fmap_compose.
    apply list_fmap_ext. intros i index Hi. simpl.
    apply with_pkey_fields_idempotent.
    eapply Forall_forall; [exact Hix|]. by eapply list_elem_of_lookup_2.
Qed.

(** C1 (as the code has it): for an orioledb table with a primary key the
    hook, after the augmentation step, has the planner match the restriction
    clauses against each extended index that is not a partial index with an
    unproven predicate, and returns the verdict on the plain scan path as a
    boolean: true (the path is still to be made) when none of these indexes
    has a matching clause - in particular when there is no such index -, and
    false (the path may be left out) when there is such an index and each of
    them has a matching clause. *)
Theorem C1_plain_scan_verdict root rte w primary :
  let relation := open_relation (rte_relid rte) in
  let o_table := o_tables_get (ORelOidsSetFromRel relation) in
  is_plain_or_matview rte = true →
  is_orioledb_rel relation = true →
  has_primary o_table = true →
  indices o_table !! PrimaryIndexNumber = Some primary →
  (nfields primary ≤ length (fields primary))%nat →
  Forall (pk_field_ok relation) (fields primary) →
  Forall index_arrays_ok (indexlist (pw_rel w)) →
  ∃ result w',
    orioledb_set_plain_rel_pathlist_hook root rte w = Ok result w'
    ∧ indexlist (pw_rel w')
      = with_pkey_fields relation (pkey_fields primary)
        <$> indexlist (pw_rel w)
    ∧ let examined_indexes := List.filter examined (indexlist (pw_rel w')) in
      (Forall (λ index, has_matching_clause root index = false)
         examined_indexes →
       result = true)
      ∧ (examined_indexes ≠ [] →
         Forall (λ index, has_matching_clause root index = true)
           examined_indexes →
         result = false).
Proof.
  intros relation o_table Hrte Horiole Hprimary Hlookup Hn Hfields Hix.
  destruct w as [rel tr]; simpl in *.
  eexists _, _. split.
  { by apply orioledb_set_plain_rel_pathlist_hook_spec. }
  simpl. fold relation. split; [done|].
  rewrite restriction_loop_last.
  set (l := List.filter examined _).
  destruct (last l) as [index|] eqn:Hlast.
  - assert (index ∈ l) as Hin.
    { apply last_Some in Hlast as [l' ->]. set_solver. }
    split.
    + intros Hall. rewrite Forall_forall in Hall. by rewrite (Hall _ Hin).
    + intros _ Hall. rewrite Forall_forall in Hall. by rewrite (Hall _ Hin).
  - apply last_None in Hlast. split; [done|]. by intros [].
Qed.

End plain_hook_claims.

(** ** The planner hooks on the example table *)

Lemma C4_witness :
  ∃ w' custom,
    orioledb_set_rel_pathlist_hook (H := Example.host) Example.root
      Example.rti Example.rte Example.world
    = Ok tt (after_old_hook (H := Example.host) Example.root Example.rti
               Example.rte w')
    ∧ pathlist (pw_rel w') !! 1%nat = Some custom
    ∧ rows custom = rows Example.bitmap_path
    ∧ total_cost custom = total_cost Example.bitmap_path
    ∧ custom_paths custom = [Example.bitmap_path].
Proof.
  destruct (C4_bitmap_heap_path_replaced_in_place (H := Example.host)
              Example.root Example.rti Example.rte Example.world 1
              Example.bitmap_path)
    as (w' & custom & Hrun & _ & Hlook & _ & _ & Hrows & _ & Htotal & _ & _
        & _ & _ & _ & _ & Hnested & _).
  - reflexivity.
  - reflexivity.
  - repeat constructor.
  - reflexivity.
  - reflexivity.
  - exists w', custom. repeat split; assumption.
Defined.

(** C5, as the spec states it, fails here: the bitmap heap path in front of
    the sample scan has been replaced by a custom path when the report is
    raised, and the list the failed hook leaves behind holds that custom
    path. *)
Lemma C5_counterexample :
  ∃ w',
    orioledb_set_rel_pathlist_hook (H := Example.host) Example.root
      Example.rti Example.rte Example.world_sampled
    = Raise (tablesample_error Example.relation) w'
    ∧ pathlist (pw_rel w')
      = [transform_path Example.bitmap_path Example.descr; Example.sample_path]
    ∧ type <$> pathlist (pw_rel w') = [T_CustomPath; T_Path]
    ∧ pathlist (pw_rel w') ≠ pathlist (pw_rel Example.world_sampled).
Proof.
  eexists. split; [reflexivity|]. split; [reflexivity|].
  split; [reflexivity|]. simpl. intros Heq. by inversion Heq.
Qed.

Lemma C5_witness :
  orioledb_set_rel_pathlist_hook (H := Example.host) Example.root
    Example.rti Example.rte
    {| pw_rel := set_pathlist [Example.seq_path; Example.sample_path;
                               Example.bitmap_path] Example.rel;
       pw_trace := [] |}
  = Raise (tablesample_error Example.relation)
      {| pw_rel := set_pathlist [Example.seq_path; Example.sample_path;
                                 Example.bitmap_path] Example.rel;
         pw_trace := [EvRelationOpen 16384%N] |}.
Proof.
  destruct (C5_sample_scan_rejected (H := Example.host) Example.root
              Example.rti Example.rte
              (set_pathlist [Example.seq_path; Example.sample_path;
                             Example.bitmap_path] Example.rel)
              [] [Example.seq_path] Example.sample_path
              [Example.bitmap_path])
    as (Hrun & _ & _ & _).
  - reflexivity.
  - reflexivity.
  - reflexivity.
  - repeat constructor.
  - reflexivity.
  - exact Hrun.
Defined.

Lemma C6_witness :
  ∃ w',
    orioledb_set_rel_pathlist_hook (H := Example.host) Example.root
      Example.rti Example.rte Example.world
    = Ok tt (after_old_hook (H := Example.host) Example.root Example.rti
               Example.rte w')
    ∧ partial_pathlist (pw_rel w') = [Example.seq_path].
Proof.
  destruct (C6_partial_pathlist_keeps_plain_paths_only (H := Example.host)
              Example.root Example.rti Example.rte Example.world)
    as (w' & Hrun & Hfilter & _).
  - reflexivity.
  - reflexivity.
  - repeat constructor.
  - exists w'. split; [exact Hrun|]. rewrite Hfilter. reflexivity.
Defined.

(** C1, as the spec states it, fails here.  The only restriction clause
    matches the index on [status], so every restriction clause matches the
    extended index set, whichever way round the two indexes are listed; yet
    the hook answers true with the primary index listed last and false with
    it listed first. *)
Lemma C1_counterexample :
  (∃ w',
     orioledb_set_plain_rel_pathlist_hook (H := Example.host) Example.root
       Example.rte Example.world
     = Ok true w'
     ∧ Forall (λ clause,
                 Exists (λ index, Example.clause_matches clause index = true)
                   (indexlist (pw_rel w')))
         Example.restrictions)
  ∧ (∃ w',
       orioledb_set_plain_rel_pathlist_hook (H := Example.host) Example.root
         Example.rte Example.world_primary_first
       = Ok false w'
       ∧ Forall (λ clause,
                   Exists (λ index, Example.clause_matches clause index = true)
                     (indexlist (pw_rel w')))
           Example.restrictions).
Proof.
  split.
  - eexists. split; [reflexivity|]. simpl.
    constructor; [|constructor]. apply Exists_cons_hd. reflexivity.
  - eexists. split; [reflexivity|]. simpl.
    constructor; [|constructor]. apply Exists_cons_tl, Exists_cons_hd.
    reflexivity.
Qed.

Lemma Example_plain_hook_hypotheses (w : PlannerWorld) :
  Forall index_arrays_ok (indexlist (pw_rel w)) →
  is_plain_or_matview Example.rte = true
  ∧ is_orioledb_rel (PlannerHost := Example.host)
      (open_relation (PlannerHost := Example.host) (rte_relid Example.rte))
    = true
  ∧ has_primary Example.o_table = true
  ∧ indices Example.o_table !! 0%nat = Some Example.primary
  ∧ (nfields Example.primary ≤ length (fields Example.primary))%nat
  ∧ Forall (pk_field_ok Example.relation) (fields Example.primary).
Proof.
  intros _. repeat split; try reflexivity.
  constructor; [|constructor]. unfold pk_field_ok. simpl. lia.
Defined.

Lemma C1_witness :
  ∃ w',
    orioledb_set_plain_rel_pathlist_hook (H := Example.host) Example.root
      Example.rte Example.world_status_only
    = Ok false w'.
Proof.
  assert (Forall index_arrays_ok
            (indexlist (pw_rel Example.world_status_only))) as Hix
    by (repeat constructor).
  destruct (Example_plain_hook_hypotheses _ Hix)
    as (H1 & H2 & H3 & H4 & H5 & H6).
  destruct (C1_plain_scan_verdict (H := Example.host) Example.root
              Example.rte Example.world_status_only Example.primary
              H1 H2 H3 H4 H5 H6 Hix)
    as (result & w' & Hrun & Hlist & _ & Hfalse).
  exists w'. rewrite Hrun. f_equal. apply Hfalse.
  - rewrite Hlist. discriminate.
  - rewrite Hlist. repeat constructor.
Defined.

Lemma C3_witness :
  ∃ result w',
    orioledb_set_plain_rel_pathlist_hook (H := Example.host) Example.root
      Example.rte Example.world
    = Ok result w'
    ∧ Forall2 (λ index index',
                 has_key index' 1
                 ∧ (returns_key index' 1
                    ↔ returns_key index 1 ∨ ¬ has_key index 1))
        (indexlist (pw_rel Example.world)) (indexlist (pw_rel w'))
    ∧ ∃ result' w'',
        orioledb_set_plain_rel_pathlist_hook (H := Example.host) Example.root
          Example.rte w'
        = Ok result' w''
        ∧ indexlist (pw_rel w'') = indexlist (pw_rel w').
Proof.
  assert (Forall index_arrays_ok (indexlist (pw_rel Example.world))) as Hix
    by (repeat constructor).
  destruct (Example_plain_hook_hypotheses _ Hix)
    as (H1 & H2 & H3 & H4 & H5 & H6).
  destruct (C3_missing_primary_key_columns_appended (H := Example.host)
              Example.root Example.rte Example.world Example.primary
              H1 H2 H3 H4 H5 H6 Hix)
    as (result & w' & Hrun & Hkeys & Hagain).
  exists result, w'. split; [exact Hrun|]. split; [|exact Hagain].
  eapply Forall2_impl; [exact Hkeys|].
  intros index index' [_ Hall]. by apply Forall_cons_1 in Hall as [Hk _].
Defined.

(** C3, as the spec states it, fails here.  The table has a primary key on
    [id] and an index on [id] whose column is not marked returnable: the
    augmentation step finds the column among the columns of the index and
    leaves the index as it is, so after the step this index has the primary
    key column but does not return it directly. *)
Lemma C3_counterexample :
  ∃ result w',
    orioledb_set_plain_rel_pathlist_hook (H := Example.host) Example.root
      Example.rte ExampleKeys.world_id_not_returnable
    = Ok result w'
    ∧ has_primary Example.o_table = true
    ∧ pkey_fields Example.primary = [ {| attnum := 0 |} ]
    ∧ indexlist (pw_rel w') !! 0%nat = Some ExampleKeys.id_index_not_returnable
    ∧ has_key ExampleKeys.id_index_not_returnable 1
    ∧ ¬ returns_key ExampleKeys.id_index_not_returnable 1.
Proof.
  eexists _, _. split; [reflexivity|].
  split; [reflexivity|]. split; [reflexivity|]. split; [reflexivity|].
  split; [by vm_compute; left|].
  unfold returns_key. simpl. intros Hin.
  apply list_elem_of_singleton in Hin. discriminate.
Qed.

(** ** The custom scan callbacks *)

Lemma load_spec node ocstate w :
  heap w !! node = Some ocstate → load node w = Ok ocstate w.
Proof. intros Hnode. unfold load, bind, get. simpl. by rewrite Hnode. Qed.

Lemma alter_loop_fmap {A} (f : A → A) (l : list A) (n : nat) :
  (n ≤ length l)%nat →
  foldl (λ a i, alter f i a) l (seq 0 n) = (f <$> take n l) ++ drop n l.
Proof.
  induction n as [|n IH]; intros Hn.
  - simpl. by rewrite drop_0.
  - rewrite seq_S, foldl_app, IH by lia. simpl.
    destruct (lookup_lt_is_Some_2 l n) as [x Hx]; [lia|].
    rewrite (take_S_r _ _ _ Hx), (drop_S _ _ _ Hx), fmap_app. simpl.
    rewrite alter_app_r_alt by (rewrite length_fmap, length_take; lia).
    rewrite length_fmap, length_take, Nat.min_l, Nat.sub_diag by lia.
    simpl. by rewrite <- app_assoc.
Qed.

Section executor_facts.
Context `{ExecutorHost}.

Lemma init_counters_loop_spec descr :
  init_counters_loop descr (replicate (nIndices descr) zeroed_counters)
  = fresh_counters descr.
Proof.
  unfold init_counters_loop, fresh_counters.
  rewrite alter_loop_fmap by (by rewrite length_replicate).
  rewrite take_replicate, drop_replicate, Nat.min_id, Nat.sub_diag.
  simpl. by rewrite app_nil_r, fmap_replicate.
Qed.

(** [Open] in closed form. *)
Lemma o_begin_custom_scan_spec node estate eflags ocstate w :
  heap w !! node = Some ocstate →
  o_begin_custom_scan node estate eflags w
  = Ok tt {| heap := <[node := opened estate eflags ocstate]> (heap w);
             ea_counters := ea_counters w;
             ex_trace :=
               ex_trace w
               ++ (if is_bitmap_heap_plan ocstate
                   then [EvExecInitNode (bitmapqualplan (o_plan_state ocstate))]
                   else []) |}.
Proof.
  intros Hnode.
  unfold o_begin_custom_scan, opened, is_bitmap_heap_plan.
  rewrite (bind_Ok _ _ _ _ _ (load_spec _ _ _ Hnode)).
  destruct w as [hp slot tr]; simpl in *.
  unfold store, modify, load, get, ExecInitNode, log, modify, bind, ret.
  simpl. rewrite lookup_insert_eq. simpl.
  destruct (is_explain_analyze (css ocstate)) eqn:Hea; simpl;
    rewrite ?lookup_insert_eq; simpl;
    destruct (bool_decide (ops_type (o_plan_state ocstate) = O_BitmapHeapPlan));
    simpl; rewrite ?insert_insert_eq, ?init_counters_loop_spec,
             ?app_nil_r; try done.
Qed.

(** [Fetch] in closed form, on a scan whose cursor has not been released. *)
Lemma o_exec_custom_scan_spec node ocstate w :
  heap w !! node = Some ocstate →
  scan (o_plan_state ocstate) ≠ Freed →
  o_exec_custom_scan node w
  = Ok (project (ps_ProjInfo (css ocstate)) (ps_ExprContext (css ocstate))
          (fetched_row ocstate) None)
      {| heap := <[node := after_fetch ocstate]> (heap w);
         ea_counters := slot_for node ocstate;
         ex_trace := ex_trace w ++ fetch_events node ocstate |}.
Proof.
  intros Hnode Hscan.
  unfold o_exec_custom_scan.
  rewrite (bind_Ok _ _ _ _ _ (load_spec _ _ _ Hnode)).
  destruct w as [hp slot tr]; simpl in *.
  unfold fetch_events, after_fetch, fetched_row, fetch_cursor, slot_for,
    is_bitmap_heap_plan.
  unfold o_exec_project, o_exec_bitmap_fetch, o_make_bitmap_scan, store,
    set_ea_counters, modify, load, get, log, modify, bind, ret.
  destruct (bool_decide (ops_type (o_plan_state ocstate) = O_BitmapHeapPlan));
    simpl.
  - destruct (scan (o_plan_state ocstate)) as [|cursor|] eqn:Hcur;
      [| |done]; simpl.
    + destruct (useEaCounters ocstate); simpl;
        rewrite lookup_insert_eq; simpl;
        rewrite insert_insert_eq, <- !app_assoc;
        unfold set_o_plan_state, set_scan; simpl; done.
    + destruct (useEaCounters ocstate); simpl;
        rewrite Hnode; simpl; rewrite Hcur; simpl;
        rewrite <- !app_assoc; done.
  - destruct (useEaCounters ocstate); simpl;
      by rewrite (insert_id _ _ _ Hnode).
Qed.

Lemma opened_ready estate eflags ocstate :
  scan (o_plan_state ocstate) ≠ Freed →
  ready (opened estate eflags ocstate).
Proof.
  intros Hscan. unfold ready, opened, is_bitmap_heap_plan. simpl.
  destruct (bool_decide (ops_type (o_plan_state ocstate) = O_BitmapHeapPlan))
    eqn:Hb; simpl; rewrite Hb; [|done].
  intros _. split; [done|]. split.
  { by destruct (init_node _ _ _). }
  split; [by eexists|].
  intros ->. by eexists.
Qed.

Lemma after_fetch_ready ocstate :
  ready ocstate → ready (after_fetch ocstate).
Proof.
  unfold ready, after_fetch, is_bitmap_heap_plan.
  destruct (bool_decide (ops_type (o_plan_state ocstate) = O_BitmapHeapPlan))
    eqn:Hb; simpl; [|by rewrite Hb].
  rewrite Hb. intros Hready _. destruct (Hready eq_refl) as (_ & ? & ? & ?).
  done.
Qed.

Lemma ready_scan_not_freed ocstate :
  ready ocstate →
  is_bitmap_heap_plan ocstate = false ∨ scan (o_plan_state ocstate) ≠ Freed.
Proof.
  unfold ready. destruct (is_bitmap_heap_plan ocstate); [|by left].
  intros Hready. right. by destruct (Hready eq_refl).
Qed.

(** [Fetch] on a ready scan returns and leaves the scan ready. *)
Lemma o_exec_custom_scan_ready node ocstate w :
  heap w !! node = Some ocstate →
  ready ocstate →
  ∃ slot w' ocstate',
    o_exec_custom_scan node w = Ok slot w'
    ∧ heap w' !! node = Some ocstate'
    ∧ ready ocstate'
    ∧ useEaCounters ocstate' = useEaCounters ocstate.
Proof.
  intros Hnode Hready.
  destruct (ready_scan_not_freed _ Hready) as [Hplain|Hscan].
  - exists (project (ps_ProjInfo (css ocstate)) (ps_ExprContext (css ocstate))
              None None),
      {| heap := heap w; ea_counters := slot_for node ocstate;
         ex_trace := ex_trace w ++ [EvProject None] |}, ocstate.
    split; [|done].
    unfold o_exec_custom_scan.
    rewrite (bind_Ok _ _ _ _ _ (load_spec _ _ _ Hnode)).
    destruct w as [hp slot tr]; simpl in *.
    unfold is_bitmap_heap_plan in Hplain.
    unfold o_exec_project, set_ea_counters, modify, log, modify, bind, ret,
      slot_for.
    rewrite Hplain. by destruct (useEaCounters ocstate).
  - eexists _, _, (after_fetch ocstate).
    split; [by apply o_exec_custom_scan_spec|]. simpl.
    split; [by rewrite lookup_insert_eq|].
    split; [by apply after_fetch_ready|].
    unfold after_fetch. by destruct (is_bitmap_heap_plan ocstate).
Qed.

Lemma fetches_ready node n :
  ∀ ocstate w,
    heap w !! node = Some ocstate →
    ready ocstate →
    ∃ w' ocstate',
      fetches node n w = Ok tt w'
      ∧ heap w' !! node = Some ocstate'
      ∧ ready ocstate'.
Proof.
  induction n as [|n IH]; intros ocstate w Hnode Hready.
  - by exists w, ocstate.
  - destruct (o_exec_custom_scan_ready _ _ _ Hnode Hready)
      as (slot & w1 & ocstate1 & Hrun & Hnode1 & Hready1 & _).
    destruct (IH _ _ Hnode1 Hready1) as (w' & ocstate' & Hrest & ? & ?).
    exists w', ocstate'. split; [|done].
    simpl. by rewrite (bind_Ok _ _ _ _ _ Hrun).
Qed.

(** [End] on a ready scan returns, and whenever [End] returns the slot is
    null. *)
Lemma o_end_custom_scan_slot node w w' :
  o_end_custom_scan node w = Ok tt w' → ea_counters w' = None.
Proof.
  unfold o_end_custom_scan. unfold bind at 1.
  destruct (load node w) as [ocstate w1| | |]; [|done..].
  unfold bind at 1. destruct (log EvStopEventScanEnd w1) as [[] w2| | |];
    [|done..].
  unfold bind at 1.
  match goal with |- context [match ?m w2 with _ => _ end] =>
    destruct (m w2) as [[] w3| | |] end; [|done..].
  unfold set_ea_counters, modify. by intros [= <-].
Qed.

Lemma o_end_custom_scan_ready node ocstate w :
  heap w !! node = Some ocstate →
  ready ocstate →
  ∃ w', o_end_custom_scan node w = Ok tt w' ∧ ea_counters w' = None.
Proof.
  intros Hnode Hready.
  assert (∃ w', o_end_custom_scan node w = Ok tt w') as [w' Hrun].
  { unfold o_end_custom_scan.
    rewrite (bind_Ok _ _ _ _ _ (load_spec _ _ _ Hnode)).
    unfold ready, is_bitmap_heap_plan in Hready.
    unfold ExecEndNode, o_free_bitmap_scan, pfree_counters,
      MemoryContextDelete, store, set_ea_counters, log, modify, bind, ret.
    destruct (bool_decide (ops_type (o_plan_state ocstate) = O_BitmapHeapPlan));
      simpl; [|by eexists].
    destruct (Hready eq_refl) as (Hscan & Hps & [c Hc] & Hcounters).
    rewrite Hc.
    destruct (bitmapqualplanstate (o_plan_state ocstate)) as [|ps|];
      [| |done]; simpl;
      destruct (scan (o_plan_state ocstate)) as [|cursor|]; try done; simpl;
      destruct (useEaCounters ocstate); simpl;
      try (destruct (Hcounters eq_refl) as [cs ->]; simpl);
      by eexists. }
  exists w'. split; [done|]. by eapply o_end_custom_scan_slot.
Qed.

End executor_facts.

Section executor_claims.
Context `{ExecutorHost}.

(** [Rescan] in closed form, on an instrumented bitmap heap scan whose
    counter array is allocated. *)
Lemma o_rescan_custom_scan_instrumented node ocstate counters w :
  heap w !! node = Some ocstate →
  is_bitmap_heap_plan ocstate = true →
  scan (o_plan_state ocstate) ≠ Freed →
  useEaCounters ocstate = true →
  bitmap_eaCounters (o_plan_state ocstate) = Live counters →
  o_rescan_custom_scan node w
  = Ok tt {| heap :=
               <[node := set_o_plan_state
                           (set_scan NULL
                              (set_bitmap_eaCounters Freed
                                 (o_plan_state ocstate)))
                           ocstate]> (heap w);
             ea_counters := ea_counters w;
             ex_trace :=
               ex_trace w
               ++ (if is_null (scan (o_plan_state ocstate))
                   then [] else [EvFreeBitmapScan])
               ++ [EvPfreeCounters] |}.
Proof.
  intros Hnode Hbitmap Hscan Hea Hcounters.
  unfold o_rescan_custom_scan.
  rewrite (bind_Ok _ _ _ _ _ (load_spec _ _ _ Hnode)).
  unfold is_bitmap_heap_plan in Hbitmap. cbv beta.
  rewrite Hbitmap, Hea, Hcounters.
  unfold o_free_bitmap_scan, pfree_counters, store, log, modify, bind, ret.
  destruct (scan (o_plan_state ocstate)) as [|cursor|]; [| |done]; simpl.
  - done.
  - by rewrite <- app_assoc.
Qed.

(** C2 (where the code departs from it): [Open] under an instrumented
    execution builds one initialised counter set per index of the table
    descriptor, but [Rescan] only releases the array: afterwards the scan
    still counts as instrumented while its counter pointer dangles - no
    counter set exists, none is zeroed - and the [End] that follows releases
    the same array a second time. *)
Theorem C2_rescan_leaves_counters_released node ocstate estate eflags w :
  heap w !! node = Some ocstate →
  is_bitmap_heap_plan ocstate = true →
  is_explain_analyze (css ocstate) = true →
  scan (o_plan_state ocstate) ≠ Freed →
  let descr := relation_get_descr (ss_currentRelation (css ocstate)) in
  ∃ w1 ocstate1 w2 ocstate2 w3,
    o_begin_custom_scan node estate eflags w = Ok tt w1
    ∧ heap w1 !! node = Some ocstate1
    ∧ bitmap_eaCounters (o_plan_state ocstate1) = Live (fresh_counters descr)
    ∧ length (fresh_counters descr) = nIndices descr
    ∧ o_rescan_custom_scan node w1 = Ok tt w2
    ∧ heap w2 !! node = Some ocstate2
    ∧ useEaCounters ocstate2 = true
    ∧ bitmap_eaCounters (o_plan_state ocstate2) = Freed
    ∧ o_end_custom_scan node w2 = Undef w3.
Proof.
  intros Hnode Hbitmap Hea Hscan descr.
  assert (is_bitmap_heap_plan (opened estate eflags ocstate) = true) as Hb1.
  { unfold is_bitmap_heap_plan at 1. unfold opened.
    cbn [o_plan_state]. rewrite Hbitmap. exact Hbitmap. }
  assert (bitmap_eaCounters (o_plan_state (opened estate eflags ocstate))
          = Live (fresh_counters descr)) as Hc1.
  { unfold opened. cbn [o_plan_state]. by rewrite Hbitmap, Hea. }
  assert (scan (o_plan_state (opened estate eflags ocstate))
          = scan (o_plan_state ocstate)) as Hs1.
  { unfold opened. cbn [o_plan_state]. by rewrite Hbitmap. }
  assert (useEaCounters (opened estate eflags ocstate) = true) as Hu1
    by done.
  pose proof (o_begin_custom_scan_spec node estate eflags _ _ Hnode) as Hbegin.
  set (w1 := {| heap := _ |}) in Hbegin.
  assert (heap w1 !! node = Some (opened estate eflags ocstate)) as Hnode1
    by (simpl; by rewrite lookup_insert_eq).
  pose proof (o_rescan_custom_scan_instrumented node _ _ w1 Hnode1 Hb1
                ltac:(by rewrite Hs1) Hu1 Hc1) as Hrescan.
  set (w2 := {| heap := _ |}) in Hrescan.
  set (ocstate2 := set_o_plan_state _ (opened estate eflags ocstate))
    in (value of w2).
  assert (heap w2 !! node = Some ocstate2) as Hnode2
    by (simpl; by rewrite lookup_insert_eq).
  assert (∃ w3, o_end_custom_scan node w2 = Undef w3) as [w3 Hend].
  { unfold o_end_custom_scan.
    rewrite (bind_Ok _ _ _ _ _ (load_spec _ _ _ Hnode2)).
    unfold ExecEndNode, o_free_bitmap_scan, pfree_counters,
      MemoryContextDelete, store, set_ea_counters, log, modify, bind, ret.
    unfold ocstate2, opened.
    rewrite Hbitmap, Hea. simpl.
    unfold is_bitmap_heap_plan in Hbitmap. rewrite Hbitmap. simpl.
    destruct (init_node _ _ _); simpl; by eexists. }
  exists w1, (opened estate eflags ocstate), w2, ocstate2, w3.
  repeat (split; [done|]).
  split; [by unfold fresh_counters; rewrite length_replicate|].
  repeat (split; [done|]). done.
Qed.

(** C7: every [Fetch] sets the process-wide slot - to this scan's counters
    when the scan is instrumented, to null when it is not - before it pulls
    a row, so that the bitmap scan primitive sees that value; [End] leaves
    the slot null; and after [Open], any number of [Fetch]es and [End] the
    slot is null. *)
Theorem C7_current_counters_slot node ocstate w :
  heap w !! node = Some ocstate →
  scan (o_plan_state ocstate) ≠ Freed →
  (∃ slot w',
     o_exec_custom_scan node w = Ok slot w'
     ∧ ea_counters w' = (if useEaCounters ocstate then Some node else None)
     ∧ ex_trace w' = ex_trace w ++ fetch_events node ocstate
     ∧ Forall (λ ev, ∀ seen,
                 ev = EvBitmapFetch seen →
                 seen = if useEaCounters ocstate then Some node else None)
         (fetch_events node ocstate))
  ∧ (∀ w', o_end_custom_scan node w = Ok tt w' → ea_counters w' = None)
  ∧ (∀ estate eflags n,
       ∃ w',
         (o_begin_custom_scan node estate eflags ;;;
          fetches node n ;;;
          o_end_custom_scan node) w = Ok tt w'
         ∧ ea_counters w' = None).
Proof.
  intros Hnode Hscan. split; [|split].
  - eexists _, _. split; [by apply o_exec_custom_scan_spec|]. simpl.
    split; [done|]. split; [done|].
    unfold fetch_events, slot_for.
    destruct (is_bitmap_heap_plan ocstate); simpl.
    + destruct (is_null (scan (o_plan_state ocstate))); simpl;
        repeat constructor; intros seen; by intros [= <-].
    + repeat constructor. by intros seen.
  - intros w'. apply o_end_custom_scan_slot.
  - intros estate eflags n.
    pose proof (o_begin_custom_scan_spec node estate eflags _ _ Hnode)
      as Hbegin.
    set (w1 := {| heap := _ |}) in Hbegin.
    assert (heap w1 !! node = Some (opened estate eflags ocstate)) as Hnode1
      by (simpl; by rewrite lookup_insert_eq).
    destruct (fetches_ready node n _ _ Hnode1 (opened_ready _ _ _ Hscan))
      as (w2 & ocstate2 & Hfetch & Hnode2 & Hready2).
    destruct (o_end_custom_scan_ready _ _ _ Hnode2 Hready2)
      as (w' & Hend & Hslot).
    exists w'. split; [|done].
    rewrite (bind_Ok _ _ _ _ _ Hbegin), (bind_Ok _ _ _ _ _ Hfetch).
    exact Hend.
Qed.

(** C8: what [Fetch] returns is the output of the projection, applied to
    the slot it fetched: the row the bitmap scan primitive yields when the
    plan is the bitmap heap variant, and the null slot when it is not - the
    projection is called on it all the same, as the last thing [Fetch]
    does. *)
Theorem C8_fetch_returns_projection node ocstate w :
  heap w !! node = Some ocstate →
  scan (o_plan_state ocstate) ≠ Freed →
  ∃ fetched w',
    o_exec_custom_scan node w
    = Ok (project (ps_ProjInfo (css ocstate)) (ps_ExprContext (css ocstate))
            fetched None) w'
    ∧ last (ex_trace w') = Some (EvProject fetched)
    ∧ (is_bitmap_heap_plan ocstate = true →
       fetched = bitmap_row (fetch_cursor ocstate))
    ∧ (is_bitmap_heap_plan ocstate = false →
       fetched = None
       ∧ ex_trace w' = ex_trace w ++ [EvProject None]).
Proof.
  intros Hnode Hscan.
  eexists (fetched_row ocstate), _.
  split; [by apply o_exec_custom_scan_spec|]. simpl.
  unfold fetch_events, fetched_row.
  split; [by rewrite !app_assoc, last_snoc|].
  split; intros ->; done.
Qed.

End executor_claims.

(** ** The explain walker *)

Section explain_claims.
Context `{ExplainHost}.

Lemma o_explain_node_at_unfold planstate ec :
  o_explain_node_at planstate ec
  = ((match ps_type planstate with
      | T_BitmapOrState => explain_bitmap_combiner planstate ec
      | T_BitmapAndState => explain_bitmap_combiner planstate ec
      | T_BitmapIndexScanState => explain_bitmap_index_scan planstate ec
      | tag => ereport (cant_explain_error tag)
      end) ;;;
     result <- planstate_walk_members (λ child, o_explain_node_at child ec)
                 (ps_children planstate) ;;
     (match ps_type planstate with
      | T_BitmapOrState => modify (add_indent (-3))
      | T_BitmapAndState => modify (add_indent (-3))
      | _ => ret tt
      end) ;;;
     ret result).
Proof. by destruct planstate. Qed.

(** C9: a plan state of any kind other than bitmap AND, bitmap OR and
    bitmap index probe makes the walker leave by an internal error whose
    message gives the number of the node kind; nothing is rendered for it
    and it is not skipped.  The error also ends the walk of a bitmap AND or
    OR state that has such a state as its first member. *)
Theorem C9_unsupported_node_raises planstate ec es :
  supported_shape (ps_type planstate) = false →
  o_explain_node (Some planstate) ec es
  = Raise (cant_explain_error (ps_type planstate)) es
  ∧ sqlerrcode (cant_explain_error (ps_type planstate))
    = ERRCODE_INTERNAL_ERROR
  ∧ message (cant_explain_error (ps_type planstate))
    = "can't explain node: " +:+ pretty (nodeTag_number (ps_type planstate))
  ∧ (∀ parent rest,
       ps_type parent = T_BitmapAndState ∨ ps_type parent = T_BitmapOrState →
       ps_children parent = planstate :: rest →
       raises (o_explain_node (Some parent) ec es)).
Proof.
  intros Hshape.
  assert (∀ es', o_explain_node_at planstate ec es'
                 = Raise (cant_explain_error (ps_type planstate)) es')
    as Hraise.
  { intros es'. rewrite o_explain_node_at_unfold. unfold bind at 1.
    by destruct (ps_type planstate). }
  split; [apply Hraise|]. split; [done|]. split; [done|].
  intros parent rest Hparent Hchildren. unfold o_explain_node.
  rewrite o_explain_node_at_unfold, Hchildren.
  unfold explain_bitmap_combiner, modify.
  destruct Hparent as [-> | ->]; simpl; unfold bind; by rewrite Hraise.
Qed.

End explain_claims.

(** ** The callbacks and the walker on the example scan *)

Lemma C2_witness :
  ∃ w2 ocstate2 w3,
    (o_begin_custom_scan (H := ExampleScan.host) ExampleScan.node
       ExampleScan.estate 0 ;;;
     o_rescan_custom_scan (H := ExampleScan.host) ExampleScan.node)
      ExampleScan.world = Ok tt w2
    ∧ heap w2 !! ExampleScan.node = Some ocstate2
    ∧ useEaCounters ocstate2 = true
    ∧ bitmap_eaCounters (o_plan_state ocstate2) = Freed
    ∧ o_end_custom_scan (H := ExampleScan.host) ExampleScan.node w2
      = Undef w3.
Proof.
  destruct (C2_rescan_leaves_counters_released (H := ExampleScan.host)
              ExampleScan.node (ExampleScan.created 300%N)
              ExampleScan.estate 0 ExampleScan.world)
    as (w1 & ocstate1 & w2 & ocstate2 & w3 & Hbegin & _ & _ & _ & Hrescan
        & Hnode2 & Hea2 & Hfreed & Hend).
  - reflexivity.
  - reflexivity.
  - reflexivity.
  - discriminate.
  - exists w2, ocstate2, w3.
    split; [by rewrite (bind_Ok _ _ _ _ _ Hbegin)|]. by repeat split.
Defined.

Lemma C7_witness :
  ∃ w',
    (o_begin_custom_scan (H := ExampleScan.host) ExampleScan.node
       ExampleScan.estate 0 ;;;
     fetches (H := ExampleScan.host) ExampleScan.node 3 ;;;
     o_end_custom_scan (H := ExampleScan.host) ExampleScan.node)
      ExampleScan.world_plain = Ok tt w'
    ∧ ea_counters w' = None.
Proof.
  destruct (C7_current_counters_slot (H := ExampleScan.host)
              ExampleScan.node (ExampleScan.created 0%N)
              ExampleScan.world_plain)
    as (_ & _ & Hsequence).
  - reflexivity.
  - discriminate.
  - exact (Hsequence ExampleScan.estate 0 3%nat).
Defined.

Lemma C8_witness :
  (∃ w',
     o_exec_custom_scan (H := ExampleScan.host) ExampleScan.node
       ExampleScan.world_opened
     = Ok (Some [Some 1; Some 10]) w')
  ∧ (∃ w',
       o_exec_custom_scan (H := ExampleScan.host) ExampleScan.node
         ExampleScan.world_other_kind
       = Ok None w'
       ∧ ex_trace w' = [EvProject None]).
Proof.
  split.
  - destruct (C8_fetch_returns_projection (H := ExampleScan.host)
                ExampleScan.node
                (opened (H := ExampleScan.host) ExampleScan.estate 0
                   (ExampleScan.created 300%N))
                ExampleScan.world_opened)
      as (fetched & w' & Hrun & _ & Hbitmap & _).
    + reflexivity.
    + discriminate.
    + exists w'. rewrite Hrun, (Hbitmap eq_refl). reflexivity.
  - destruct (C8_fetch_returns_projection (H := ExampleScan.host)
                ExampleScan.node ExampleScan.other_kind
                ExampleScan.world_other_kind)
      as (fetched & w' & Hrun & _ & _ & Hother).
    + reflexivity.
    + discriminate.
    + destruct (Hother eq_refl) as [-> Htrace].
      exists w'. split; [exact Hrun | exact Htrace].
Defined.

Lemma C9_witness :
  o_explain_node (H := ExampleScan.explain_host)
    (Some ExampleScan.result_state) ExampleScan.ec ExampleScan.es
  = Raise {| sqlerrcode := ERRCODE_INTERNAL_ERROR;
             message := "can't explain node: 325";
             detail := None |}
      ExampleScan.es
  ∧ raises (o_explain_node (H := ExampleScan.explain_host)
              (Some ExampleScan.or_state) ExampleScan.ec ExampleScan.es).
Proof.
  destruct (C9_unsupported_node_raises (H := ExampleScan.explain_host)
              ExampleScan.result_state ExampleScan.ec ExampleScan.es)
    as (Hraise & _ & _ & Hparent).
  - reflexivity.
  - split; [exact Hraise|].
    apply (Hparent ExampleScan.or_state []); [by right | reflexivity].
Defined.

(** * Further properties of the planner hooks *)

Lemma rewrite_until_sample_raised descr l :
  (rewrite_until_sample descr l).2 = true
  ↔ Exists (λ p, is_sample_scan p = true) l.
Proof.
  induction l as [|p l IH]; simpl.
  - split; [done|]. by intros ?%Exists_nil.
  - destruct (is_sample_scan p) eqn:Hp; simpl.
    + split; [|done]. intros _. by apply Exists_cons_hd.
    + destruct (rewrite_until_sample descr l) as [r b]; simpl in *.
      rewrite IH, Exists_cons. split; [by right|].
      intros [Hhd|Htl]; [congruence|done].
Qed.

Lemma rewritten_not_sample descr p :
  is_sample_scan p = false → is_sample_scan (rewritten descr p) = false.
Proof.
  intros Hp. unfold rewritten. by destruct (IsA p T_BitmapHeapPath).
Qed.

Lemma rewritten_idempotent descr p :
  rewritten descr (rewritten descr p) = rewritten descr p.
Proof.
  unfold rewritten at 2 3. destruct (IsA p T_BitmapHeapPath) eqn:Hp.
  - by apply rewritten_plain.
  - by apply rewritten_plain.
Qed.

Section planner_more.
Context `{PlannerHost}.

(** X1: for a range-table entry that is not a plain relation or
    materialized view, and for a table of another access method, the hook
    hands the [RelOptInfo] to the previously installed hook exactly as it
    received it: no path is replaced and none is removed. *)
Theorem X1_other_tables_left_alone root rti rte w :
  is_plain_or_matview rte = false
  ∨ is_orioledb_rel (open_relation (rte_relid rte)) = false →
  ∃ w',
    orioledb_set_rel_pathlist_hook root rti rte w
    = Ok tt (after_old_hook root rti rte w')
    ∧ pw_rel w' = pw_rel w.
Proof.
  intros Hother. destruct w as [rel tr].
  rewrite orioledb_set_rel_pathlist_hook_spec.
  destruct (is_plain_or_matview rte); simpl; [|by eexists].
  destruct Hother as [Hplain|Hforeign]; [done|].
  rewrite Hforeign. by eexists.
Qed.

(** X2: the hook leaves by the TABLESAMPLE report exactly when the entry is
    a plain relation or materialized view of an orioledb table and its path
    list holds a plain [Path] node of type sample scan; in every other case
    it returns. *)
Theorem X2_report_exactly_for_sample_scans root rti rte w :
  (raises (orioledb_set_rel_pathlist_hook root rti rte w)
   ↔ is_plain_or_matview rte = true
     ∧ is_orioledb_rel (open_relation (rte_relid rte)) = true
     ∧ Exists (λ p, is_sample_scan p = true) (pathlist (pw_rel w)))
  ∧ (¬ raises (orioledb_set_rel_pathlist_hook root rti rte w) →
     ∃ wf, orioledb_set_rel_pathlist_hook root rti rte w = Ok tt wf).
Proof.
  destruct w as [rel tr]. rewrite orioledb_set_rel_pathlist_hook_spec.
  simpl.
  rewrite <- (rewrite_until_sample_raised
                (relation_get_descr (open_relation (rte_relid rte)))).
  destruct (is_plain_or_matview rte); simpl.
  2: { split; [|by eexists]. split; [done|]. by intros [? _]. }
  destruct (is_orioledb_rel (open_relation (rte_relid rte))); simpl.
  2: { split; [|by eexists]. split; [done|]. by intros (_ & ? & _). }
  destruct (rewrite_until_sample _ (pathlist rel)) as [r [|]]; simpl.
  - split; [done|]. by intros [].
  - split; [|by eexists]. split; [done|]. by intros (_ & _ & ?).
Qed.

(** X3: with no previously installed hook, running the hook a second time
    on its own result changes nothing: the custom paths it has made are not
    wrapped again and the partial path list stays as it is. *)
Theorem X3_rewrite_is_idempotent root rti rte w w1 :
  old_set_rel_pathlist_hook = None →
  orioledb_set_rel_pathlist_hook root rti rte w = Ok tt w1 →
  ∃ w2,
    orioledb_set_rel_pathlist_hook root rti rte w1 = Ok tt w2
    ∧ pw_rel w2 = pw_rel w1.
Proof.
  intros Hnone. destruct w as [rel tr], w1 as [rel1 tr1].
  rewrite !orioledb_set_rel_pathlist_hook_spec.
  unfold after_old_hook. rewrite Hnone.
  destruct (is_plain_or_matview rte); simpl; [|intros _; by eexists].
  destruct (is_orioledb_rel (open_relation (rte_relid rte))); simpl;
    [|intros _; by eexists].
  set (descr := relation_get_descr (open_relation (rte_relid rte))).
  destruct (rewrite_until_sample descr (pathlist rel)) as [r raised] eqn:Hr.
  destruct raised; [done|]. intros [= <- <-]. simpl.
  assert (Forall (λ p, is_sample_scan p = false) (pathlist rel)) as Hclean.
  { apply Forall_forall. intros p Hp.
    destruct (is_sample_scan p) eqn:Hs; [|done].
    assert ((rewrite_until_sample descr (pathlist rel)).2 = true) as Hraised.
    { apply rewrite_until_sample_raised, Exists_exists. eauto. }
    rewrite Hr in Hraised. done. }
  rewrite (rewrite_until_sample_none _ _ Hclean) in Hr.
  injection Hr as <-.
  rewrite rewrite_until_sample_none.
  2: { apply Forall_fmap. eapply Forall_impl; [exact Hclean|].
       intros p Hp. by apply rewritten_not_sample. }
  eexists. split; [reflexivity|]. simpl.
  unfold set_partial_pathlist, set_pathlist. simpl. f_equal.
  - rewrite <- list_fmap_compose. apply list_fmap_ext.
    intros i p _. simpl. apply rewritten_idempotent.
  - apply list_filter_filter_l. done.
Qed.

(** X4: a return of the hook has closed the relation it opened, and opened
    none for an entry that is not a plain relation or materialized view;
    when the report is raised the relation is still open (it is left to the
    error cleanup of the host). *)
Theorem X4_relation_closed_on_return root rti rte w :
  match orioledb_set_rel_pathlist_hook root rti rte w with
  | Ok _ wf =>
      ∃ w',
        wf = after_old_hook root rti rte w'
        ∧ pw_trace w'
          = pw_trace w
            ++ (if is_plain_or_matview rte
                then [EvRelationOpen (rte_relid rte);
                      EvRelationClose
                        (rd_id (open_relation (rte_relid rte)))]
                else [])
  | Raise _ wf => pw_trace wf = pw_trace w ++ [EvRelationOpen (rte_relid rte)]
  | Undef _ | OutOfFuel => False
  end.
Proof.
  destruct w as [rel tr]. rewrite orioledb_set_rel_pathlist_hook_spec.
  destruct (is_plain_or_matview rte); simpl.
  2: { eexists. split; [done|]. simpl. by rewrite app_nil_r. }
  destruct (is_orioledb_rel (open_relation (rte_relid rte))); simpl.
  2: { eexists. split; [done|]. simpl. by rewrite <- app_assoc. }
  destruct (rewrite_until_sample _ (pathlist rel)) as [r [|]]; [done|].
  eexists. split; [done|]. simpl. by rewrite <- app_assoc.
Qed.

(** X5: for an entry that is not a plain relation or materialized view,
    for a table of another access method and for an orioledb table without
    a primary key the plain-scan hook answers true - the plain scan path is
    to be made - and leaves the [RelOptInfo] as it is. *)
Theorem X5_plain_scan_kept_without_primary_key root rte w :
  is_plain_or_matview rte = false
  ∨ is_orioledb_rel (open_relation (rte_relid rte)) = false
  ∨ has_primary (o_tables_get
                   (ORelOidsSetFromRel (open_relation (rte_relid rte))))
    = false →
  ∃ w',
    orioledb_set_plain_rel_pathlist_hook root rte w = Ok true w'
    ∧ pw_rel w' = pw_rel w.
Proof.
  intros Hcase. destruct w as [rel tr].
  unfold orioledb_set_plain_rel_pathlist_hook.
  destruct (is_plain_or_matview rte); [|by eexists].
  unfold relation_open, table_open, relation_close, table_close, o_table_free,
    emit, modify, bind, ret. simpl.
  destruct (is_orioledb_rel (open_relation (rte_relid rte))); [|by eexists].
  destruct (has_primary _); [|by eexists].
  by destruct Hcase as [?|[?|?]].
Qed.

(** X6: on a table with a primary key the answer of the plain-scan hook is
    decided by the last index of the list that is not a partial index with
    an unproven predicate: false when the planner matched a restriction
    clause to that extended index, true when it matched none, and true when
    every index is such a partial index or there is no index.  The indexes
    before it have no influence. *)
Theorem X6_last_examined_index_decides root rte w primary :
  let relation := open_relation (rte_relid rte) in
  let o_table := o_tables_get (ORelOidsSetFromRel relation) in
  is_plain_or_matview rte = true →
  is_orioledb_rel relation = true →
  has_primary o_table = true →
  indices o_table !! PrimaryIndexNumber = Some primary →
  (nfields primary ≤ length (fields primary))%nat →
  Forall (pk_field_ok relation) (fields primary) →
  Forall index_arrays_ok (indexlist (pw_rel w)) →
  ∃ w',
    orioledb_set_plain_rel_pathlist_hook root rte w
    = Ok (match last (List.filter examined (indexlist (pw_rel w'))) with
          | Some index => negb (has_matching_clause root index)
          | None => true
          end) w'
    ∧ indexlist (pw_rel w')
      = with_pkey_fields relation (pkey_fields primary)
        <$> indexlist (pw_rel w).
Proof.
  intros relation o_table Hrte Horiole Hprimary Hlookup Hn Hfields Hix.
  destruct w as [rel tr]; simpl in *.
  pose proof (orioledb_set_plain_rel_pathlist_hook_spec root rte rel tr
                primary Hrte Horiole Hprimary Hlookup Hn Hfields Hix) as Hrun.
  simpl in Hrun. fold relation in Hrun.
  rewrite restriction_loop_last in Hrun.
  exists {| pw_rel :=
              set_indexlist
                (with_pkey_fields relation (pkey_fields primary)
                 <$> indexlist rel) rel;
            pw_trace :=
              tr ++ [EvRelationOpen (rte_relid rte); EvTableFree;
                     EvRelationClose (rd_id relation)] |}.
  split; [exact Hrun|]. reflexivity.
Qed.

Lemma with_pkey_fields_ncolumns relation pk_fields :
  ∀ index,
    (ncolumns index
     ≤ ncolumns (with_pkey_fields relation pk_fields index)
     ≤ ncolumns index + length pk_fields)%nat.
Proof.
  unfold with_pkey_fields.
  induction pk_fields as [|f fs IH]; intros index; simpl; [lia|].
  specialize (IH (with_pkey_field relation f index)).
  unfold with_pkey_field in *. case_decide; simpl in *; lia.
Qed.

(** X7: on a table with a primary key the plain-scan hook changes the index
    list only: the path lists and the relation id stay, no index is added
    or dropped, every index keeps one array cell per column, gains at most
    one column for each field of the primary key and loses none; the
    relation it opened is closed and the table it fetched is freed. *)
Theorem X7_augmentation_frame root rte w primary :
  let relation := open_relation (rte_relid rte) in
  let o_table := o_tables_get (ORelOidsSetFromRel relation) in
  is_plain_or_matview rte = true →
  is_orioledb_rel relation = true →
  has_primary o_table = true →
  indices o_table !! PrimaryIndexNumber = Some primary →
  (nfields primary ≤ length (fields primary))%nat →
  Forall (pk_field_ok relation) (fields primary) →
  Forall index_arrays_ok (indexlist (pw_rel w)) →
  ∃ result w',
    orioledb_set_plain_rel_pathlist_hook root rte w = Ok result w'
    ∧ pathlist (pw_rel w') = pathlist (pw_rel w)
    ∧ partial_pathlist (pw_rel w') = partial_pathlist (pw_rel w)
    ∧ relid (pw_rel w') = relid (pw_rel w)
    ∧ Forall index_arrays_ok (indexlist (pw_rel w'))
    ∧ Forall2 (λ index index',
                 (ncolumns index ≤ ncolumns index'
                  ≤ ncolumns index + nfields primary)%nat
                 ∧ nkeycolumns index' = nkeycolumns index
                 ∧ indexkeys index `prefix_of` indexkeys index')
        (indexlist (pw_rel w)) (indexlist (pw_rel w'))
    ∧ pw_trace w'
      = pw_trace w ++ [EvRelationOpen (rte_relid rte); EvTableFree;
                       EvRelationClose (rd_id relation)].
Proof.
  intros relation o_table Hrte Horiole Hprimary Hlookup Hn Hfields Hix.
  destruct w as [rel tr]; simpl in *.
  eexists _, _. split.
  { by apply orioledb_set_plain_rel_pathlist_hook_spec. }
  simpl. fold relation. repeat (split; [done|]).
  split; [|split; [|done]].
  - apply Forall_fmap. eapply Forall_impl; [exact Hix|].
    intros index Hok. by apply with_pkey_fields_arrays_ok.
  - apply Forall2_fmap_r, Forall_Forall2_diag.
    eapply Forall_impl; [exact Hix|]. intros index Hok. simpl.
    split.
    { pose proof (with_pkey_fields_ncolumns relation (pkey_fields primary)
                    index) as Hcols.
      unfold pkey_fields in Hcols at 3. rewrite length_take in Hcols. lia. }
    destruct (with_pkey_fields_extends relation (pkey_fields primary)
                index Hok) as (added & _ & ->).
    simpl. split; [done|]. by eexists.
Qed.

End planner_more.

Lemma X1_witness :
  ∃ w',
    orioledb_set_rel_pathlist_hook (H := ExampleMore.heap_host) Example.root
      Example.rti Example.rte Example.world
    = Ok tt (after_old_hook (H := ExampleMore.heap_host) Example.root
               Example.rti Example.rte w')
    ∧ pw_rel w' = Example.rel.
Proof.
  apply (X1_other_tables_left_alone (H := ExampleMore.heap_host)).
  right. reflexivity.
Defined.

Lemma X3_witness :
  ∃ w1 w2,
    orioledb_set_rel_pathlist_hook (H := ExampleMore.host_no_old_hook)
      Example.root Example.rti Example.rte Example.world = Ok tt w1
    ∧ orioledb_set_rel_pathlist_hook (H := ExampleMore.host_no_old_hook)
        Example.root Example.rti Example.rte w1 = Ok tt w2
    ∧ pw_rel w2 = pw_rel w1.
Proof.
  eexists.
  refine (let Hfirst := eq_refl : orioledb_set_rel_pathlist_hook
            (H := ExampleMore.host_no_old_hook) Example.root Example.rti
            Example.rte Example.world = Ok tt _ in _).
  destruct (X3_rewrite_is_idempotent (H := ExampleMore.host_no_old_hook)
              Example.root Example.rti Example.rte Example.world _
              eq_refl Hfirst) as (w2 & Hsecond & Hsame).
  exists w2. split; [exact Hfirst|]. split; [exact Hsecond | exact Hsame].
Defined.

Lemma X5_witness :
  ∃ w',
    orioledb_set_plain_rel_pathlist_hook (H := ExampleMore.heap_host)
      Example.root Example.rte Example.world = Ok true w'
    ∧ pw_rel w' = Example.rel.
Proof.
  apply (X5_plain_scan_kept_without_primary_key (H := ExampleMore.heap_host)).
  right. left. reflexivity.
Defined.

Lemma X6_witness :
  ∃ w',
    orioledb_set_plain_rel_pathlist_hook (H := Example.host) Example.root
      Example.rte ExampleMore.world_with_partial_index = Ok false w'.
Proof.
  assert (Forall index_arrays_ok
            (indexlist (pw_rel ExampleMore.world_with_partial_index))) as Hix
    by (repeat constructor).
  destruct (Example_plain_hook_hypotheses _ Hix)
    as (H1 & H2 & H3 & H4 & H5 & H6).
  destruct (X6_last_examined_index_decides (H := Example.host) Example.root
              Example.rte ExampleMore.world_with_partial_index
              Example.primary H1 H2 H3 H4 H5 H6 Hix)
    as (w' & Hrun & Hlist).
  exists w'. rewrite Hrun, Hlist. reflexivity.
Defined.

Lemma X7_witness :
  ∃ result w',
    orioledb_set_plain_rel_pathlist_hook (H := Example.host) Example.root
      Example.rte Example.world = Ok result w'
    ∧ pathlist (pw_rel w') = pathlist Example.rel
    ∧ Forall index_arrays_ok (indexlist (pw_rel w')).
Proof.
  assert (Forall index_arrays_ok (indexlist (pw_rel Example.world))) as Hix
    by (repeat constructor).
  destruct (Example_plain_hook_hypotheses _ Hix)
    as (H1 & H2 & H3 & H4 & H5 & H6).
  destruct (X7_augmentation_frame (H := Example.host) Example.root
              Example.rte Example.world Example.primary
              H1 H2 H3 H4 H5 H6 Hix)
    as (result & w' & Hrun & Hpaths & _ & _ & Hok & _).
  exists result, w'. split; [exact Hrun|]. split; [exact Hpaths | exact Hok].
Defined.

(** * The plan compiler and the creation of the scan state *)

Lemma uint32_round_trip (n : N) :
  (n < 2 ^ 32)%N → uint32_of_int (int_of_uint32 n) = n.
Proof.
  intros Hn. unfold uint32_of_int, int_of_uint32.
  assert (0 ≤ Z.of_N n < 2 ^ 32) as Hz by lia.
  rewrite (Z.mod_small (Z.of_N n)) by done.
  case_bool_decide.
  - rewrite Z.mod_small by lia. lia.
  - replace (Z.of_N n - 2 ^ 32) with (Z.of_N n + (-1) * 2 ^ 32) by lia.
    rewrite Z.mod_add by lia. rewrite Z.mod_small by lia. lia.
Qed.

Section plan_compiler_facts.
Context `{PlanHost}.

(** X8: the plan made from a custom path of the path rewriter is
    recognised as this provider's, carries the sub-plans, the flags, the
    target list and the qualifiers of the bitmap heap scan found under an
    optional [Result] node, and closes the relation it opened; the scan
    state created from that plan is recognised as this provider's, has the
    bitmap heap tag and gets back the type of the primary key column that
    went through the [Integer] node of the private list, every 32-bit [Oid]
    surviving the passage through [int]; its pointers are all null. *)
Theorem X8_plan_then_create_round_trip {W} root src_path tlist clauses plan
  rest bh_scan w :
  let rel := pw_rel w in
  let relation :=
    open_relation (rte_relid (planner_rt_fetch (relid rel) root)) in
  let descr := relation_get_descr (TableDescrs := planner_descrs) relation in
  type src_path = T_BitmapHeapPath →
  unwrap_result plan = Some bh_scan →
  (primary_inputtype descr < 2 ^ 32)%N →
  ∃ cscan w',
    o_plan_custom_path root (transform_path src_path descr) tlist clauses
      (plan :: rest) w = Ok cscan w'
    ∧ pw_rel w' = rel
    ∧ pw_trace w'
      = pw_trace w
        ++ [EvRelationOpen (rte_relid (planner_rt_fetch (relid rel) root));
            EvRelationClose (rd_id relation)]
    ∧ is_o_custom_scan cscan = true
    ∧ scanrelid cscan = relid rel
    ∧ cscan_custom_plans cscan = plan :: rest
    ∧ cscan_targetlist cscan = targetlist_of bh_scan
    ∧ cscan_qual cscan = qual_of bh_scan
    ∧ ∀ blank (v : W),
        ∃ ocstate,
          o_create_custom_scan_state blank cscan v = Ok ocstate v
          ∧ is_o_custom_scan_state (css ocstate) = true
          ∧ ops_type (o_plan_state ocstate) = O_BitmapHeapPlan
          ∧ typeoid (o_plan_state ocstate) = primary_inputtype descr
          ∧ bitmapqualplan (o_plan_state ocstate) = lefttree bh_scan
          ∧ bitmapqualorig (o_plan_state ocstate) = bitmapqualorig_of bh_scan
          ∧ scan (o_plan_state ocstate) = NULL
          ∧ cxt (o_plan_state ocstate) = NULL
          ∧ bitmap_eaCounters (o_plan_state ocstate) = NULL
          ∧ bitmapqualplanstate (o_plan_state ocstate) = NULL.
Proof.
  intros rel relation descr Htype Hplan Hoid.
  destruct w as [rel0 tr]. simpl in rel. subst rel.
  eexists _, _. split.
  { unfold o_plan_custom_path, linitial, array_get, transform_path, IsA.
    simpl. rewrite bool_decide_eq_true_2 by done. simpl.
    unfold table_open, table_close, emit, modify, get_rel, get, bind, ret,
      deref. simpl.
    fold relation. rewrite Hplan. simpl. reflexivity. }
  simpl. split; [done|]. split; [by rewrite <- app_assoc|].
  repeat (split; [done|]).
  intros blank v. eexists. split.
  { unfold o_create_custom_scan_state, linitial, lsecond, array_get, bind,
      ret, deref. simpl.
    rewrite bool_decide_eq_true_2 by done. rewrite Hplan. reflexivity. }
  simpl. repeat (split; [done|]).
  split; [|done]. fold relation descr. by apply uint32_round_trip.
Qed.

(** X9: [o_create_custom_scan_state] returns only scan states of the bitmap
    heap kind, with the methods and slot operations of this provider, not
    instrumented and with null pointers; on a private list whose first
    integer is another tag it does not return a state but writes through
    the null plan state pointer. *)
Theorem X9_created_state_is_bitmap_heap {W} blank cscan (v : W) :
  match o_create_custom_scan_state blank cscan v with
  | Ok ocstate v' =>
      v' = v
      ∧ is_bitmap_heap_plan ocstate = true
      ∧ css_type (css ocstate) = T_CustomScanState
      ∧ css_methods (css ocstate) = Some o_scan_exec_methods
      ∧ slotOps (css ocstate) = Some TTSOpsOrioleDB
      ∧ useEaCounters ocstate = false
      ∧ scan (o_plan_state ocstate) = NULL
      ∧ cxt (o_plan_state ocstate) = NULL
      ∧ bitmap_eaCounters (o_plan_state ocstate) = NULL
      ∧ bitmapqualplanstate (o_plan_state ocstate) = NULL
      ∧ ∃ type_int rest,
          cscan_custom_private cscan = O_BitmapHeapPlan :: type_int :: rest
  | Undef v' =>
      v' = v
      ∧ (∀ tag type_int rest plan plans bh_scan,
           cscan_custom_private cscan = tag :: type_int :: rest →
           cscan_custom_plans cscan = plan :: plans →
           unwrap_result plan = Some bh_scan →
           tag ≠ O_BitmapHeapPlan)
  | Raise _ _ | OutOfFuel => False
  end.
Proof.
  unfold o_create_custom_scan_state, linitial, lsecond, array_get, bind, ret,
    deref, undefined, is_bitmap_heap_plan.
  destruct (cscan_custom_private cscan) as [|tag [|type_int rest]];
    simpl; [done| |].
  - destruct (cscan_custom_plans cscan) as [|plan plans]; simpl; [done|].
    by case_bool_decide.
  - destruct (cscan_custom_plans cscan) as [|plan plans]; simpl; [done|].
    case_bool_decide as Htag; simpl.
    + destruct (unwrap_result plan) as [bh_scan|] eqn:Hplan; simpl.
      * rewrite bool_decide_eq_true_2 by done.
        repeat (split; [done|]). subst tag. by eexists _, _.
      * split; [done|]. intros ?????? [= <- <- <-] [= <- <-]. congruence.
    + split; [done|]. by intros ?????? [= <- <- <-] _ _.
Qed.

End plan_compiler_facts.

Lemma X8_witness :
  ∃ cscan w' ocstate,
    o_plan_custom_path (H := ExampleMore.plan_host) Example.root
      (transform_path Example.bitmap_path Example.descr) [] []
      [ExampleMore.result_plan] Example.world = Ok cscan w'
    ∧ cscan_custom_private cscan = [0; -296]
    ∧ o_create_custom_scan_state (H := ExampleMore.plan_host)
        (ExampleScan.node_state 0%N) cscan tt = Ok ocstate tt
    ∧ typeoid (o_plan_state ocstate) = 4294967000%N
    ∧ bitmapqualplan (o_plan_state ocstate) = Some ExampleScan.probe_plan.
Proof.
  destruct (X8_plan_then_create_round_trip (H := ExampleMore.plan_host)
              (W := unit) Example.root Example.bitmap_path [] []
              ExampleMore.result_plan [] ExampleMore.heap_scan_plan
              Example.world)
    as (cscan & w' & Hplan & _ & _ & _ & _ & _ & _ & _ & Hcreate).
  - reflexivity.
  - reflexivity.
  - reflexivity.
  - destruct (Hcreate (ExampleScan.node_state 0%N) tt)
      as (ocstate & Hrun & _ & _ & Hoid & Hqual & _).
    exists cscan, w', ocstate.
    split; [exact Hplan|].
    split; [by injection Hplan as <- _|].
    split; [exact Hrun|]. split; [exact Hoid | exact Hqual].
Defined.

(** * Further properties of the scan callbacks *)

Lemma cursor_after_0 cursor : cursor_after cursor 0 = cursor.
Proof. destruct cursor. unfold cursor_after. simpl. f_equal. lia. Qed.

Lemma cursor_after_add cursor a b :
  cursor_after (cursor_after cursor a) b = cursor_after cursor (a + b).
Proof. unfold cursor_after. simpl. f_equal. lia. Qed.

Lemma cursors_made_app tr1 tr2 :
  cursors_made (tr1 ++ tr2) = (cursors_made tr1 + cursors_made tr2)%nat.
Proof. unfold cursors_made. by rewrite List.filter_app, length_app. Qed.

Section executor_more.
Context `{ExecutorHost}.

Lemma after_fetch_bitmap ocstate :
  is_bitmap_heap_plan (after_fetch ocstate) = is_bitmap_heap_plan ocstate.
Proof.
  unfold after_fetch. destruct (is_bitmap_heap_plan ocstate) eqn:Hb; [|done].
  unfold is_bitmap_heap_plan in *. done.
Qed.

Lemma after_fetch_cursor ocstate :
  is_bitmap_heap_plan ocstate = true →
  scan (o_plan_state (after_fetch ocstate))
  = Live (cursor_after (fetch_cursor ocstate) 1).
Proof.
  intros Hb. unfold after_fetch. rewrite Hb. simpl.
  unfold cursor_after. do 2 f_equal. lia.
Qed.

Lemma after_fetch_fetch_cursor ocstate :
  is_bitmap_heap_plan ocstate = true →
  fetch_cursor (after_fetch ocstate) = cursor_after (fetch_cursor ocstate) 1.
Proof.
  intros Hb. unfold fetch_cursor at 1. by rewrite after_fetch_cursor.
Qed.

Lemma after_fetch_css ocstate : css (after_fetch ocstate) = css ocstate.
Proof. unfold after_fetch. by destruct (is_bitmap_heap_plan ocstate). Qed.

Lemma row_at_after_fetch ocstate k :
  is_bitmap_heap_plan ocstate = true →
  row_at (after_fetch ocstate) k = row_at ocstate (S k).
Proof.
  intros Hb. unfold row_at.
  by rewrite after_fetch_css, after_fetch_fetch_cursor, cursor_after_add.
Qed.

(** The slots that [n] calls of [Fetch] return, and the state they leave. *)
Lemma fetch_rows_spec node n :
  ∀ ocstate w,
    heap w !! node = Some ocstate →
    is_bitmap_heap_plan ocstate = true →
    scan (o_plan_state ocstate) ≠ Freed →
    ∃ w',
      fetch_rows node n w = Ok (row_at ocstate <$> seq 0 n) w'
      ∧ heap w' !! node = Some (Nat.iter n after_fetch ocstate)
      ∧ ea_counters w' = (if n is O then ea_counters w
                          else slot_for node ocstate).
Proof.
  induction n as [|n IH]; intros ocstate w Hnode Hb Hscan.
  - exists w. by repeat split.
  - pose proof (o_exec_custom_scan_spec node ocstate w Hnode Hscan) as Hrun.
    set (w1 := {| heap := _ |}) in Hrun.
    destruct (IH (after_fetch ocstate) w1) as (w' & Hrest & Hnode' & Hslot).
    { simpl. by rewrite lookup_insert_eq. }
    { by rewrite after_fetch_bitmap. }
    { by rewrite after_fetch_cursor. }
    exists w'. split; [|split].
    + cbn [fetch_rows]. rewrite (bind_Ok _ _ _ _ _ Hrun).
      rewrite (bind_Ok _ _ _ _ _ Hrest). unfold ret. f_equal.
      cbn [seq]. rewrite fmap_cons. f_equal.
      * unfold row_at, fetched_row. by rewrite Hb, cursor_after_0.
      * rewrite <- seq_shift, <- list_fmap_compose.
        apply list_fmap_ext. intros i k _. simpl.
        by apply row_at_after_fetch.
    + rewrite Hnode'. f_equal. by rewrite Nat.iter_succ_r.
    + rewrite Hslot. destruct n; simpl; [done|].
      unfold slot_for, after_fetch. by destruct (is_bitmap_heap_plan ocstate).
Qed.

(** X11: on a bitmap heap scan the [k]-th [Fetch] returns the projection of
    the [k]-th row the cursor yields, counted from the position the cursor
    had - from its first row when the scan has no cursor yet; once the
    cursor is exhausted every further [Fetch] projects the null slot again
    without any error. *)
Theorem X11_fetches_return_rows_in_order node ocstate w n :
  heap w !! node = Some ocstate →
  is_bitmap_heap_plan ocstate = true →
  scan (o_plan_state ocstate) ≠ Freed →
  ∃ w',
    fetch_rows node n w
    = Ok ((λ k, project (ps_ProjInfo (css ocstate))
                  (ps_ExprContext (css ocstate))
                  (bitmap_row (cursor_after (fetch_cursor ocstate) k)) None)
          <$> seq 0 n) w'
    ∧ (scan (o_plan_state ocstate) = NULL →
       bs_fetched (fetch_cursor ocstate) = 0%nat).
Proof.
  intros Hnode Hb Hscan.
  destruct (fetch_rows_spec node n ocstate w Hnode Hb Hscan)
    as (w' & Hrun & _).
  exists w'. split; [exact Hrun|].
  intros Hnull. unfold fetch_cursor. by rewrite Hnull.
Qed.

Lemma same_source_refl s : same_source s s.
Proof. by repeat split. Qed.

Lemma same_source_after_fetch s s' :
  same_source s s' → same_source s (after_fetch s').
Proof.
  intros (? & ? & ? & ? & ?). unfold after_fetch.
  destruct (is_bitmap_heap_plan s'); by repeat split.
Qed.

Lemma same_source_row_at s s' k :
  same_source s s' →
  scan (o_plan_state s) = NULL →
  scan (o_plan_state s') = NULL →
  row_at s' k = row_at s k.
Proof.
  intros (Hcss & Hps & Htype & Hsnap & Hcxt) Hnull Hnull'.
  unfold row_at, fetch_cursor.
  by rewrite Hnull, Hnull', Hcss, Hps, Htype, Hsnap, Hcxt.
Qed.

(** What any number of [Fetch]es keep of a bitmap heap scan state. *)
Lemma iter_after_fetch_keeps n s :
  is_bitmap_heap_plan s = true →
  let s' := Nat.iter n after_fetch s in
  same_source s s'
  ∧ is_bitmap_heap_plan s' = true
  ∧ useEaCounters s' = useEaCounters s
  ∧ bitmap_eaCounters (o_plan_state s') = bitmap_eaCounters (o_plan_state s)
  ∧ (scan (o_plan_state s) ≠ Freed → scan (o_plan_state s') ≠ Freed)
  ∧ (n ≠ 0%nat → is_live (scan (o_plan_state s')) = true)
  ∧ (n = 0%nat → s' = s).
Proof.
  intros Hb. induction n as [|n (Hsrc & Hb' & Hu & Hc & Hs & _ & _)]; simpl.
  - split; [apply same_source_refl|]. by repeat split.
  - split; [by apply same_source_after_fetch|].
    split; [by rewrite after_fetch_bitmap|].
    revert Hb' Hu Hc Hs. generalize (Nat.iter n after_fetch s). intros sn.
    unfold after_fetch. intros -> <- <- Hs. simpl.
    by repeat split.
Qed.

(** [n] calls of [Fetch]: the state they leave and the cursors they make. *)
Lemma fetches_state node n :
  ∀ s w,
    heap w !! node = Some s →
    is_bitmap_heap_plan s = true →
    scan (o_plan_state s) ≠ Freed →
    ∃ w',
      fetches node n w = Ok tt w'
      ∧ heap w' !! node = Some (Nat.iter n after_fetch s)
      ∧ cursors_made (ex_trace w')
        = (cursors_made (ex_trace w)
           + (if n is O then 0
              else if is_null (scan (o_plan_state s)) then 1 else 0))%nat.
Proof.
  induction n as [|n IH]; intros s w Hnode Hb Hscan.
  - exists w. split; [done|]. split; [done|]. lia.
  - pose proof (o_exec_custom_scan_spec node s w Hnode Hscan) as Hrun.
    set (w1 := {| heap := _ |}) in Hrun.
    destruct (IH (after_fetch s) w1) as (w' & Hrest & Hnode' & Hmade).
    { simpl. by rewrite lookup_insert_eq. }
    { by rewrite after_fetch_bitmap. }
    { by rewrite after_fetch_cursor. }
    exists w'. split; [|split].
    + cbn [fetches]. by rewrite (bind_Ok _ _ _ _ _ Hrun).
    + rewrite Hnode'. f_equal. by rewrite Nat.iter_succ_r.
    + rewrite Hmade. unfold w1. simpl.
      rewrite cursors_made_app, after_fetch_cursor by done.
      unfold fetch_events. rewrite Hb.
      destruct (is_null (scan (o_plan_state s))), n; simpl;
        unfold cursors_made; simpl; lia.
Qed.

(** X10: [Open] makes no cursor; the first [Fetch] makes it and the
    [Fetch]es after it pull from the same one: a scan that is opened and
    fetched from [n] times has had the bitmap scan primitive set up once
    when [n] is positive and never when it is zero. *)
Theorem X10_cursor_made_once_on_first_fetch node ocstate w estate eflags n :
  heap w !! node = Some ocstate →
  is_bitmap_heap_plan ocstate = true →
  scan (o_plan_state ocstate) = NULL →
  ∃ w1 w',
    o_begin_custom_scan node estate eflags w = Ok tt w1
    ∧ cursors_made (ex_trace w1) = cursors_made (ex_trace w)
    ∧ (o_begin_custom_scan node estate eflags ;;; fetches node n) w = Ok tt w'
    ∧ cursors_made (ex_trace w')
      = (cursors_made (ex_trace w) + (if n is O then 0 else 1))%nat.
Proof.
  intros Hnode Hb Hnull.
  pose proof (o_begin_custom_scan_spec node estate eflags _ _ Hnode) as Hbegin.
  set (w1 := {| heap := _ |}) in Hbegin.
  assert (scan (o_plan_state (opened estate eflags ocstate)) = NULL) as Hnull1.
  { unfold opened. cbn [o_plan_state]. by rewrite Hb. }
  assert (is_bitmap_heap_plan (opened estate eflags ocstate) = true) as Hb1.
  { unfold is_bitmap_heap_plan at 1. unfold opened. cbn [o_plan_state].
    rewrite Hb. exact Hb. }
  assert (cursors_made (ex_trace w1) = cursors_made (ex_trace w)) as Hmade1.
  { unfold w1. simpl. rewrite cursors_made_app.
    destruct (is_bitmap_heap_plan ocstate); unfold cursors_made; simpl; lia. }
  destruct (fetches_state node n (opened estate eflags ocstate) w1)
    as (w' & Hfetch & _ & Hmade).
  { simpl. by rewrite lookup_insert_eq. }
  { done. }
  { by rewrite Hnull1. }
  exists w1, w'. split; [done|]. split; [done|].
  split; [by rewrite (bind_Ok _ _ _ _ _ Hbegin)|].
  rewrite Hmade, Hmade1, Hnull1. simpl. done.
Qed.

(** [Rescan] in closed form on a bitmap heap scan whose cursor and counter
    array have not been released. *)
Lemma o_rescan_custom_scan_spec node s w :
  heap w !! node = Some s →
  is_bitmap_heap_plan s = true →
  scan (o_plan_state s) ≠ Freed →
  (useEaCounters s = true → is_live (bitmap_eaCounters (o_plan_state s)) = true) →
  ∃ w',
    o_rescan_custom_scan node w = Ok tt w'
    ∧ heap w'
      = <[node := set_o_plan_state
                    (set_scan NULL
                       (set_bitmap_eaCounters
                          (if useEaCounters s then Freed
                           else bitmap_eaCounters (o_plan_state s))
                          (o_plan_state s)))
                    s]> (heap w)
    ∧ ea_counters w' = ea_counters w.
Proof.
  intros Hnode Hb Hscan Hcounters.
  unfold o_rescan_custom_scan.
  rewrite (bind_Ok _ _ _ _ _ (load_spec _ _ _ Hnode)).
  unfold is_bitmap_heap_plan in Hb. cbv beta. rewrite Hb.
  unfold o_free_bitmap_scan, pfree_counters, store, log, modify, bind, ret.
  destruct (useEaCounters s).
  - destruct (bitmap_eaCounters (o_plan_state s)) as [|cs|];
      [by specialize (Hcounters eq_refl)| |by specialize (Hcounters eq_refl)].
    destruct (scan (o_plan_state s)) as [|cursor|]; [| |done]; simpl;
      by eexists.
  - destruct (scan (o_plan_state s)) as [|cursor|]; [| |done]; simpl;
      by eexists.
Qed.

(** X12: [Rescan] resets the row stream.  On a bitmap heap scan that has
    been opened, [k] calls of [Fetch] followed by [Rescan] leave a scan
    whose next [n] calls of [Fetch] return the slots that the first [n]
    calls after [Open] return: the cursor is made anew from the sub-plan
    state, the snapshot and the memory context that [Open] set up. *)
Theorem X12_rescan_resets_row_stream node ocstate w k n :
  heap w !! node = Some ocstate →
  is_bitmap_heap_plan ocstate = true →
  scan (o_plan_state ocstate) = NULL →
  (useEaCounters ocstate = true →
   is_live (bitmap_eaCounters (o_plan_state ocstate)) = true) →
  ∃ rows w1 w2,
    fetch_rows node n w = Ok rows w1
    ∧ (fetches node k ;;; o_rescan_custom_scan node ;;; fetch_rows node n) w
      = Ok rows w2
    ∧ rows = row_at ocstate <$> seq 0 n.
Proof.
  intros Hnode Hb Hnull Hcounters.
  assert (scan (o_plan_state ocstate) ≠ Freed) as Hscan by (by rewrite Hnull).
  destruct (fetch_rows_spec node n ocstate w Hnode Hb Hscan)
    as (w1 & Hrows & _).
  destruct (fetches_state node k ocstate w Hnode Hb Hscan)
    as (wk & Hfetch & Hnodek & _).
  destruct (iter_after_fetch_keeps k ocstate Hb)
    as (Hsrc & Hbk & Huk & Hck & Hsk & _ & _).
  set (sk := Nat.iter k after_fetch ocstate) in *.
  destruct (o_rescan_custom_scan_spec node sk wk Hnodek Hbk (Hsk Hscan))
    as (wr & Hrescan & Hheap & _).
  { rewrite Huk, Hck. exact Hcounters. }
  set (sr := set_o_plan_state _ sk) in Hheap.
  assert (heap wr !! node = Some sr) as Hnoder
    by (rewrite Hheap; by rewrite lookup_insert_eq).
  destruct (fetch_rows_spec node n sr wr Hnoder) as (w2 & Hrows2 & _).
  { exact Hbk. }
  { done. }
  exists (row_at ocstate <$> seq 0 n), w1, w2.
  split; [exact Hrows|]. split; [|done].
  rewrite (bind_Ok _ _ _ _ _ Hfetch), (bind_Ok _ _ _ _ _ Hrescan), Hrows2.
  f_equal. apply list_fmap_ext. intros i j _.
  apply same_source_row_at; [|done|done].
  destruct Hsrc as (? & ? & ? & ? & ?). by repeat split.
Qed.



End executor_more.

Lemma X10_witness :
  ∃ w1 w',
    o_begin_custom_scan (H := ExampleScan.host) ExampleScan.node
      ExampleScan.estate 0 ExampleScan.world = Ok tt w1
    ∧ cursors_made (ex_trace w1) = cursors_made (ex_trace ExampleScan.world)
    ∧ (o_begin_custom_scan (H := ExampleScan.host) ExampleScan.node
         ExampleScan.estate 0 ;;;
       fetches (H := ExampleScan.host) ExampleScan.node 2) ExampleScan.world
      = Ok tt w'
    ∧ cursors_made (ex_trace w')
      = (cursors_made (ex_trace ExampleScan.world) + 1)%nat.
Proof.
  apply (X10_cursor_made_once_on_first_fetch (H := ExampleScan.host)
           ExampleScan.node (ExampleScan.created 300%N) ExampleScan.world
           ExampleScan.estate 0 2%nat); reflexivity.
Defined.

Lemma X11_witness :
  ∃ w',
    fetch_rows (H := ExampleScan.host) ExampleScan.node 2
      ExampleScan.world_opened
    = Ok ((λ k, project (ExecutorHost := ExampleScan.host) 200%N 201%N
                  (bitmap_row (ExecutorHost := ExampleScan.host)
                     (cursor_after
                        (fetch_cursor
                           (opened (H := ExampleScan.host)
                              ExampleScan.estate 0
                              (ExampleScan.created 300%N))) k)) None)
            <$> seq 0 2) w'.
Proof.
  destruct (X11_fetches_return_rows_in_order (H := ExampleScan.host)
              ExampleScan.node
              (opened (H := ExampleScan.host) ExampleScan.estate 0
                 (ExampleScan.created 300%N))
              ExampleScan.world_opened 2%nat)
    as (w' & Hrows & _).
  - reflexivity.
  - reflexivity.
  - discriminate.
  - exists w'. exact Hrows.
Defined.

Lemma X12_witness :
  ∃ rows w1 w2,
    fetch_rows (H := ExampleScan.host) ExampleScan.node 2
      ExampleScan.world_opened = Ok rows w1
    ∧ (fetches (H := ExampleScan.host) ExampleScan.node 1 ;;;
       o_rescan_custom_scan (H := ExampleScan.host) ExampleScan.node ;;;
       fetch_rows (H := ExampleScan.host) ExampleScan.node 2)
        ExampleScan.world_opened = Ok rows w2
    ∧ rows
      = row_at (H := ExampleScan.host)
          (opened (H := ExampleScan.host) ExampleScan.estate 0
             (ExampleScan.created 300%N)) <$> seq 0 2.
Proof.
  apply (X12_rescan_resets_row_stream (H := ExampleScan.host)
           ExampleScan.node
           (opened (H := ExampleScan.host) ExampleScan.estate 0
              (ExampleScan.created 300%N))
           ExampleScan.world_opened 1%nat 2%nat); reflexivity.
Defined.


(** * Further properties of the explain walker *)

Lemma scan_back_spec {W} stop buf n (w : W) :
  (n ≤ length buf)%nat →
  ∃ i,
    scan_back stop buf n w = Ok i w
    ∧ (i ≤ n)%nat
    ∧ (i = 0%nat ∨ ∃ c, buf !! pred i = Some c ∧ stop c = true)
    ∧ (∀ j c, (i ≤ j < n)%nat → buf !! j = Some c → stop c = false).
Proof.
  induction n as [|n IH]; intros Hn.
  - exists 0%nat. split; [done|]. split; [done|]. split; [by left|].
    intros j c ?. lia.
  - simpl. unfold array_get, bind.
    destruct (lookup_lt_is_Some_2 buf n) as [c Hc]; [lia|]. rewrite Hc.
    unfold ret at 1. destruct (stop c) eqn:Hstop.
    + exists (S n). split; [done|]. split; [done|]. split.
      * right. by exists c.
      * intros j c' ?. lia.
    + destruct IH as (i & Hrun & Hle & Hat & Hafter); [lia|].
      exists i. split; [done|]. split; [lia|]. split; [done|].
      intros j c' Hj Hc'. destruct (decide (j = n)) as [->|Hne].
      * congruence.
      * apply (Hafter j c'); [lia|done].
Qed.

Lemma scan_back_cases {W} stop buf n (w : W) :
  (∃ i, scan_back stop buf n w = Ok i w) ∨ scan_back stop buf n w = Undef w.
Proof.
  induction n as [|n IH]; [left; by eexists|].
  simpl. unfold array_get, bind.
  destruct (buf !! n) as [c|]; [|by right].
  unfold ret. destruct (stop c); [left; by eexists|done].
Qed.

Lemma scan_back_from_cases {W} stop buf start (w : W) :
  (∃ i, scan_back_from stop buf start w = Ok i w)
  ∨ scan_back_from stop buf start w = Undef w.
Proof.
  unfold scan_back_from. destruct (bool_decide (0 < start));
    [|left; by eexists].
  unfold bind.
  destruct (scan_back_cases stop buf (Z.to_nat start) w) as [[i ->]| ->];
    [left; by eexists|by right].
Qed.

Lemma scan_back_from_spec {W} stop buf start (w : W) :
  start ≤ Z.of_nat (length buf) →
  ∃ i,
    scan_back_from stop buf start w = Ok i w
    ∧ i ≤ start
    ∧ (0 < start → 0 ≤ i)
    ∧ (i ≤ 0 ∨ ∃ c, buf !! Z.to_nat (i - 1) = Some c ∧ stop c = true)
    ∧ (∀ j c, Z.max 0 i ≤ j < start → buf !! Z.to_nat j = Some c →
              stop c = false).
Proof.
  intros Hstart. unfold scan_back_from. case_bool_decide as Hpos.
  - destruct (scan_back_spec stop buf (Z.to_nat start) w)
      as (i & Hrun & Hle & Hat & Hafter); [lia|].
    exists (Z.of_nat i). unfold bind. rewrite Hrun. split; [done|].
    split; [lia|]. split; [lia|]. split.
    + destruct Hat as [->|(c & Hc & Hstop)]; [left; lia|].
      destruct i as [|i]; [left; lia|]. right. exists c.
      split; [|done]. simpl in Hc. rewrite <- Hc. f_equal. lia.
    + intros j c Hj. apply Hafter. lia.
  - exists start. split; [done|]. split; [lia|]. split; [lia|].
    split; [left; lia|]. intros j c ?. lia.
Qed.

Lemma find_ix_num_cases {W} descr target candidates (w : W) :
  (∃ ix, find_ix_num descr target candidates w = Ok ix w)
  ∨ find_ix_num descr target candidates w = Undef w.
Proof.
  induction candidates as [|ix rest IH]; [left; by eexists|].
  simpl. unfold array_get, bind.
  destruct (descr_indices descr !! ix) as [d|]; [|by right].
  unfold ret. case_bool_decide; [left; by eexists|done].
Qed.

(** The ordinal loop in closed form: the first position of [a, a + k) whose
    descriptor has the oid, [nIndices] when there is none. *)
Lemma find_ix_num_spec {W} descr target (w : W) k :
  ∀ a,
    (a + k ≤ length (descr_indices descr))%nat →
    ∃ ix,
      find_ix_num descr target (seq a k) w = Ok ix w
      ∧ ((∃ d, (a ≤ ix < a + k)%nat
               ∧ descr_indices descr !! ix = Some d
               ∧ reloid (oids d) = target
               ∧ ∀ j d', (a ≤ j < ix)%nat → descr_indices descr !! j = Some d' →
                         reloid (oids d') ≠ target)
         ∨ (ix = nIndices descr
            ∧ ∀ j d', (a ≤ j < a + k)%nat → descr_indices descr !! j = Some d' →
                      reloid (oids d') ≠ target)).
Proof.
  induction k as [|k IH]; intros a Hlen.
  - exists (nIndices descr). split; [done|]. right. split; [done|].
    intros j d' ?. lia.
  - simpl. unfold array_get, bind.
    destruct (lookup_lt_is_Some_2 (descr_indices descr) a) as [d Hd]; [lia|].
    rewrite Hd. unfold ret at 1. case_bool_decide as Hoid.
    + exists a. split; [done|]. left. exists d. split; [lia|].
      split; [done|]. split; [done|]. intros j d' ?. lia.
    + destruct (IH (S a)) as (ix & Hrun & Hix); [lia|].
      exists ix. split; [done|].
      destruct Hix as [(d' & Hrange & Hd' & Htarget & Hbefore)|[-> Hnone]].
      * left. exists d'. split; [lia|]. split; [done|]. split; [done|].
        intros j d'' Hj Hd''. destruct (decide (j = a)) as [->|Hne].
        -- congruence.
        -- apply (Hbefore j d''); [lia|done].
      * right. split; [done|].
        intros j d'' Hj Hd''. destruct (decide (j = a)) as [->|Hne].
        -- congruence.
        -- apply (Hnone j d''); [lia|done].
Qed.

Section explain_more.
Context `{ExplainHost}.

Lemma leaf_general planstate ec es :
  match explain_bitmap_index_scan planstate ec es with
  | Ok _ es' =>
      renderers_balanced → indent es' = indent es ∧ format es' = format es
  | Raise _ _ => False
  | Undef _ => True
  | OutOfFuel => False
  end.
Proof.
  unfold explain_bitmap_index_scan.
  unfold bind, modify, get, ret, undefined.
  set (es1 := ExplainNode planstate (ancestors ec) "Outer" None es).
  assert (renderers_balanced →
          (∀ p a l n e, indent (ExplainNode p a l n e) = indent e)
          ∧ (∀ p a l n e, format (ExplainNode p a l n e) = format e)
          ∧ (∀ d c e, indent (eanalyze_counters_explain d c e) = indent e)
          ∧ (∀ d c e, format (eanalyze_counters_explain d c e) = format e)
          ∧ (∀ a b c e, format e ≠ EXPLAIN_FORMAT_TEXT →
                        indent (ExplainCloseGroup a b c e) = indent e - 1)
          ∧ (∀ a b c e, format e ≠ EXPLAIN_FORMAT_TEXT →
                        format (ExplainCloseGroup a b c e) = format e))
    as Hsplit.
  { intros (Hnode & Hcount & Hclose). repeat split; intros;
      first [apply Hnode | apply Hcount | by apply Hclose]. }
  destruct (format es1) eqn:Hf1;
    repeat match goal with
      | |- context [scan_back_from ?s ?b ?n ?w] =>
          destruct (scan_back_from_cases s b n w) as [[? ->]| ->]; try done
      end;
    destruct (useEaCounters (ec_ocstate ec)); try done;
    repeat match goal with
      | |- context [find_ix_num ?d ?t ?c ?w] =>
          destruct (find_ix_num_cases d t c w) as [[? ->]| ->]; try done
      end;
    try (destruct (bitmap_eaCounters (o_plan_state (ec_ocstate ec)));
         try done; unfold array_get, ret, undefined;
         match goal with
         | |- context [?a !! ?i] => destruct (a !! i); try done
         end).
  all: match goal with
       | |- context [match format ?e with _ => _ end] =>
           destruct (format e) eqn:Hf2
       end.
  all: intros Hbal;
       destruct (Hsplit Hbal) as (Hni & Hnf & Hci & Hcf & Hgi & Hgf);
       unfold es1 in *;
       try (rewrite Hgi, Hgf by (rewrite Hf2; discriminate));
       repeat first [rewrite Hni in * | rewrite Hnf in * | rewrite Hci in *
                    | rewrite Hcf in * | progress simpl in *];
       try congruence; try (split; [lia|congruence]).
Qed.

Lemma leaf_returns planstate ec es :
  renderers_balanced →
  useEaCounters (ec_ocstate ec) = false →
  format es = EXPLAIN_FORMAT_TEXT ∨ format es = EXPLAIN_FORMAT_YAML →
  ∃ es', explain_bitmap_index_scan planstate ec es = Ok tt es'.
Proof.
  intros (Hnode & _ & _) Hquiet Hformat.
  unfold explain_bitmap_index_scan.
  unfold bind, modify, get, ret, undefined.
  rewrite Hquiet, (proj2 (Hnode _ _ _ _ _)).
  destruct Hformat as [-> | ->]; simpl.
  - destruct (format _); by eexists.
  - destruct (format _); by eexists.
Qed.

Lemma tree_supported_unfold planstate :
  tree_supported planstate
  = supported_shape (ps_type planstate)
    && forallb tree_supported (ps_children planstate).
Proof. by destruct planstate. Qed.

Lemma walker_general ec planstate :
  renderers_balanced →
  ∀ es,
    match o_explain_node_at planstate ec es with
    | Ok stop es' =>
        stop = false ∧ indent es' = indent es ∧ format es' = format es
    | Raise _ _ | Undef _ => True
    | OutOfFuel => False
    end
    ∧ (tree_supported planstate = true →
       useEaCounters (ec_ocstate ec) = false →
       format es = EXPLAIN_FORMAT_TEXT ∨ format es = EXPLAIN_FORMAT_YAML →
       ∃ es', o_explain_node_at planstate ec es = Ok false es').
Proof.
  intros Hbal. induction planstate as [planstate IH] using PlanState_tree_ind.
  assert (∀ es,
            match planstate_walk_members (λ child, o_explain_node_at child ec)
                    (ps_children planstate) es with
            | Ok stop es' =>
                stop = false ∧ indent es' = indent es ∧ format es' = format es
            | Raise _ _ | Undef _ => True
            | OutOfFuel => False
            end
            ∧ (forallb tree_supported (ps_children planstate) = true →
               useEaCounters (ec_ocstate ec) = false →
               format es = EXPLAIN_FORMAT_TEXT
               ∨ format es = EXPLAIN_FORMAT_YAML →
               ∃ es', planstate_walk_members
                        (λ child, o_explain_node_at child ec)
                        (ps_children planstate) es = Ok false es'))
    as Hwalk.
  { induction IH as [|child rest Hchild _ IHrest]; intros es.
    - split; [done|]. intros _ _ _. by eexists.
    - simpl. unfold bind. destruct (Hchild es) as [Hshape Hreturns].
      split.
      + destruct (o_explain_node_at child ec es) as [stop es1| | |];
          [|done|done|done].
        destruct Hshape as (-> & Hi & Hf).
        destruct (IHrest es1) as [Hrest _].
        destruct (planstate_walk_members _ rest es1) as [stop es2| | |];
          [|done|done|done].
        destruct Hrest as (-> & Hi2 & Hf2). by rewrite Hi2, Hf2.
      + intros [Hc Hr]%andb_prop Hquiet Hformat.
        destruct (Hreturns Hc Hquiet Hformat) as [es1 Hrun].
        rewrite Hrun in Hshape. destruct Hshape as (_ & _ & Hf).
        rewrite Hrun.
        destruct (IHrest es1) as [_ Hrest].
        apply Hrest; [done|done|by rewrite Hf]. }
  clear IH. intros es. rewrite o_explain_node_at_unfold.
  rewrite tree_supported_unfold.
  destruct Hbal as (Hnode & Hcount & Hclose).
  assert (renderers_balanced) as Hbal by done.
  destruct (ps_type planstate) eqn:Htag; simpl;
    try (split; [done|]; by intros ?).
  1, 2:
    unfold explain_bitmap_combiner, bind, modify, ret;
    set (es1 := add_indent 3 _);
    assert (indent es1 = indent es + 3 ∧ format es1 = format es) as [Hi1 Hf1]
      by (unfold es1; simpl; by rewrite !(proj1 (Hnode _ _ _ _ _)),
                                        !(proj2 (Hnode _ _ _ _ _)));
    destruct (Hwalk es1) as [Hshape Hreturns];
    (split;
     [ destruct (planstate_walk_members _ _ es1) as [stop es2| | |];
         [|done|done|done];
       destruct Hshape as (-> & Hi2 & Hf2); simpl;
       split; [done|]; split; [lia|congruence]
     | intros Hc Hquiet Hformat;
       destruct Hreturns as [es2 ->]; [done|done|by rewrite Hf1|];
       by eexists ]).
  pose proof (leaf_general planstate ec es) as Hleaf.
  split.
  - unfold bind at 1.
    destruct (explain_bitmap_index_scan planstate ec es) as [[] es1| | |];
      [|done|done|done].
    destruct (Hleaf Hbal) as [Hi1 Hf1].
    unfold bind, ret. destruct (Hwalk es1) as [Hshape _].
    destruct (planstate_walk_members _ _ es1) as [stop es2| | |];
      [|done|done|done].
    destruct Hshape as (-> & Hi2 & Hf2).
    split; [done|]. split; congruence.
  - intros Hc Hquiet Hformat.
    destruct (leaf_returns planstate ec es Hbal Hquiet Hformat) as [es1 Hrun].
    rewrite Hrun in Hleaf. rewrite (bind_Ok _ _ _ _ _ Hrun).
    destruct (Hleaf Hbal) as [_ Hf1].
    unfold bind, ret. destruct (Hwalk es1) as [_ Hreturns].
    destruct Hreturns as [es2 ->]; [done|done|by rewrite Hf1|].
    by eexists.
Qed.

(** X14: the walker never asks the walk to stop, and it leaves the
    indentation and the format as it found them.  With renderers that do
    not move the indentation themselves (closing a group of a structured
    format takes one level back), [o_explain_node] either leaves by an
    error or by a read outside an array, or answers false in a state with
    the indentation and the format it was called with: each of its
    [+= 3], [++] is met by a [-= 3] or by the closing of the group. *)
Theorem X14_walker_answers_false_and_restores_indent planstate ec es :
  renderers_balanced →
  match o_explain_node planstate ec es with
  | Ok stop es' =>
      stop = false ∧ indent es' = indent es ∧ format es' = format es
  | Raise _ _ | Undef _ => True
  | OutOfFuel => False
  end.
Proof.
  intros Hbal. destruct planstate as [planstate|]; [|done].
  apply (walker_general ec planstate Hbal es).
Qed.

(** X15: in the text and YAML formats the walker returns on every tree of
    bitmap AND, bitmap OR and bitmap index probe states when the scan is not
    instrumented: none of its branches reads the output buffer or the
    counters then. *)
Theorem X15_walker_returns_on_supported_trees planstate ec es :
  renderers_balanced →
  tree_supported planstate = true →
  useEaCounters (ec_ocstate ec) = false →
  format es = EXPLAIN_FORMAT_TEXT ∨ format es = EXPLAIN_FORMAT_YAML →
  ∃ es',
    o_explain_node (Some planstate) ec es = Ok false es'
    ∧ indent es' = indent es.
Proof.
  intros Hbal Htree Hquiet Hformat.
  destruct (walker_general ec planstate Hbal es) as [Hshape Hreturns].
  destruct (Hreturns Htree Hquiet Hformat) as [es' Hrun].
  exists es'. split; [exact Hrun|].
  rewrite Hrun in Hshape. by destruct Hshape as (_ & ? & _).
Qed.

(** The walker on a bitmap index probe state without members is the probe
    branch. *)
Lemma o_explain_node_leaf planstate ec es :
  ps_type planstate = T_BitmapIndexScanState →
  ps_children planstate = [] →
  o_explain_node (Some planstate) ec es
  = match explain_bitmap_index_scan planstate ec es with
    | Ok _ es' => Ok false es'
    | Raise e es' => Raise e es'
    | Undef es' => Undef es'
    | OutOfFuel => OutOfFuel
    end.
Proof.
  intros Htag Hleaf. unfold o_explain_node.
  rewrite o_explain_node_at_unfold, Htag, Hleaf. unfold bind at 1.
  by destruct (explain_bitmap_index_scan planstate ec es).
Qed.


Lemma leaf_reads_outside planstate ec es :
  useEaCounters (ec_ocstate ec) = true →
  (∀ (w : ExplainState) ix,
     find_ix_num (ec_descr ec) (indexid (ps_plan planstate))
       (seq 0 (nIndices (ec_descr ec))) w = Ok ix w →
     match bitmap_eaCounters (o_plan_state (ec_ocstate ec)) with
     | Live counters => counters !! ix = None
     | NULL | Freed => True
     end) →
  ∃ es', explain_bitmap_index_scan planstate ec es = Undef es'.
Proof.
  intros Hea Hread.
  unfold explain_bitmap_index_scan.
  unfold bind, modify, get, ret, undefined. rewrite Hea.
  set (es1 := ExplainNode planstate (ancestors ec) "Outer" None es).
  destruct (format es1);
    repeat match goal with
      | |- context [scan_back_from ?s ?b ?n ?w] =>
          destruct (scan_back_from_cases s b n w) as [[? ->]| ->];
          try by eexists
      end;
    match goal with
    | |- context [find_ix_num ?d ?t ?c ?w] =>
        pose proof (Hread w) as Hw;
        destruct (find_ix_num_cases d t c w) as [[ix Hrun]| ->];
        [rewrite Hrun; specialize (Hw ix Hrun)|by eexists]
    end;
    destruct (bitmap_eaCounters (o_plan_state (ec_ocstate ec)));
    try (by eexists); unfold array_get, undefined; rewrite Hw; by eexists.
Qed.

(** X17: when no index descriptor has the oid of the index the probe scans,
    the ordinal loop ends at [nIndices] and the probe branch of an
    instrumented scan reads the cell behind the last counter set of an array
    of [nIndices] cells, which is what [Open] allocates: the walker does not
    return, it leaves by undefined behaviour. *)
Theorem X17_unknown_index_reads_past_counters planstate ec es counters :
  ps_type planstate = T_BitmapIndexScanState →
  useEaCounters (ec_ocstate ec) = true →
  bitmap_eaCounters (o_plan_state (ec_ocstate ec)) = Live counters →
  (nIndices (ec_descr ec) ≤ length (descr_indices (ec_descr ec)))%nat →
  (length counters ≤ nIndices (ec_descr ec))%nat →
  (∀ j d, (j < nIndices (ec_descr ec))%nat →
          descr_indices (ec_descr ec) !! j = Some d →
          reloid (oids d) ≠ indexid (ps_plan planstate)) →
  ∃ es', o_explain_node (Some planstate) ec es = Undef es'.
Proof.
  intros Htag Hea Hlive Hlen Hcounters Hnone.
  destruct (leaf_reads_outside planstate ec es Hea) as [es' Hrun].
  { intros w ix Hfind. rewrite Hlive.
    destruct (find_ix_num_spec (ec_descr ec) (indexid (ps_plan planstate)) w
                (nIndices (ec_descr ec)) 0%nat)
      as (ix' & Hfind' & Hix'); [lia|].
    assert (ix' = ix) as -> by congruence.
    destruct Hix' as [(d & Hrange & Hd & Hoid & _)|[-> _]].
    - destruct (Hnone ix d); [lia|done|done].
    - apply lookup_ge_None. lia. }
  exists es'. unfold o_explain_node.
  rewrite o_explain_node_at_unfold, Htag. unfold bind at 1. by rewrite Hrun.
Qed.

(** X18: what the probe branch takes back from the rendered node in the
    JSON and XML formats.  With [len] bytes rendered, of which the last is
    left out, [i] is the position just behind the last newline of the rest
    ([0] when it has none); the length in use becomes [i - 1] in JSON, which
    drops the last line and the newline before it, and [i] in XML, which
    keeps that newline.  The bytes themselves are not touched, the
    indentation goes up by one and the group is closed. *)
Theorem X18_structured_formats_trim_last_line planstate ec es :
  let es1 := ExplainNode planstate (ancestors ec) "Outer" None es in
  ps_type planstate = T_BitmapIndexScanState →
  ps_children planstate = [] →
  useEaCounters (ec_ocstate ec) = false →
  format es1 = EXPLAIN_FORMAT_JSON ∨ format es1 = EXPLAIN_FORMAT_XML →
  0 < len (str es1) ≤ Z.of_nat (length (data (str es1))) →
  ∃ i,
    o_explain_node (Some planstate) ec es
    = Ok false
        (ExplainCloseGroup "Plan" "Plan" true
           (add_indent 1
              (set_len (match format es1 with
                        | EXPLAIN_FORMAT_JSON => i - 1
                        | _ => i
                        end) es1)))
    ∧ 0 ≤ i ≤ len (str es1) - 1
    ∧ (i = 0 ∨ data (str es1) !! Z.to_nat (i - 1) = Some newline)
    ∧ (∀ j, i ≤ j < len (str es1) - 1 →
            data (str es1) !! Z.to_nat j ≠ Some newline).
Proof.
  intros es1 Htag Hleaf Hquiet Hformat Hlen.
  rewrite o_explain_node_leaf by done.
  unfold explain_bitmap_index_scan.
  unfold bind, modify, get, ret, undefined. fold es1. rewrite Hquiet.
  assert (∀ w : ExplainState,
            ∃ i, scan_back_from (λ c, bool_decide (c = newline))
                   (data (str es1)) (len (str es1) - 1) w = Ok i w
                 ∧ 0 ≤ i ≤ len (str es1) - 1
                 ∧ (i = 0 ∨ data (str es1) !! Z.to_nat (i - 1) = Some newline)
                 ∧ (∀ j, i ≤ j < len (str es1) - 1 →
                         data (str es1) !! Z.to_nat j ≠ Some newline))
    as Hscan.
  { intros w.
    destruct (scan_back_from_spec (λ c, bool_decide (c = newline))
                (data (str es1)) (len (str es1) - 1) w)
      as (i & Hrun & Hle & Hpos & Hat & Hafter); [lia|].
    assert (0 ≤ i) as Hi.
    { destruct (decide (0 < len (str es1) - 1)) as [?|Hzero]; [by apply Hpos|].
      unfold scan_back_from in Hrun. rewrite bool_decide_eq_false_2 in Hrun
        by done. injection Hrun as <-. lia. }
    exists i. split; [done|]. split; [lia|]. split.
    - destruct Hat as [?|(c & Hc & Hstop)]; [left; lia|].
      right. by apply bool_decide_eq_true in Hstop as ->.
    - intros j Hj Hc. specialize (Hafter j newline).
      rewrite bool_decide_eq_true_2 in Hafter by done.
      assert (true = false) by (apply Hafter; [lia|done]). done. }
  destruct (Hscan (set_len (len (str es1) - 1) es1))
    as (i & Hrun & Hrange & Hat & Hafter).
  exists i. split; [|done].
  destruct Hformat as [Hf | Hf]; rewrite Hf; simpl; rewrite Hrun; simpl.
  - destruct (scan_back_from_spec
                (λ c, negb (bool_decide (c = space))) (data (str es1))
                (len (str es1) - 1 - (len (str es1) - 1 - i + 1))
                (set_len (len (str es1) - 1 - (len (str es1) - 1 - i + 1))
                   (set_len (len (str es1) - 1) es1)))
      as (i2 & -> & _); [lia|].
    simpl. rewrite Hf. do 3 f_equal. unfold set_len. simpl. do 2 f_equal. lia.
  - rewrite Hf. do 3 f_equal. unfold set_len. simpl. do 2 f_equal. lia.
Qed.

End explain_more.

(** * The callbacks and the explain walker together *)

Section explain_after_rescan.
Context `{ExecutorHost} `{ExplainHost}.

(** X19: explaining an instrumented bitmap heap scan that has been rescanned
    reads released memory.  [Rescan] releases the per-index counter array
    and leaves the pointer and the flag as they were, and the probe branch
    of the walker indexes that array whenever the flag is set: on every
    bitmap index probe state the walker leaves by undefined behaviour,
    whatever the format and the descriptor. *)
Theorem X19_explain_after_rescan_reads_released_counters
    node ocstate w estate eflags :
  heap w !! node = Some ocstate →
  is_bitmap_heap_plan ocstate = true →
  scan (o_plan_state ocstate) ≠ Freed →
  is_explain_analyze (css ocstate) = true →
  ∃ w' ocstate',
    (o_begin_custom_scan node estate eflags ;;;
     o_rescan_custom_scan node) w = Ok tt w'
    ∧ heap w' !! node = Some ocstate'
    ∧ ∀ planstate ec es,
        ps_type planstate = T_BitmapIndexScanState →
        ec_ocstate ec = ocstate' →
        ∃ es', o_explain_node (Some planstate) ec es = Undef es'.
Proof.
  intros Hnode Hb Hscan Hanalyze.
  pose proof (o_begin_custom_scan_spec node estate eflags _ _ Hnode) as Hbegin.
  set (w1 := {| heap := _ |}) in Hbegin.
  set (s1 := opened estate eflags ocstate) in *.
  assert (is_bitmap_heap_plan s1 = true) as Hb1.
  { unfold is_bitmap_heap_plan at 1. unfold s1, opened. cbn [o_plan_state].
    rewrite Hb. exact Hb. }
  assert (useEaCounters s1 = true) as Hea1 by exact Hanalyze.
  destruct (o_rescan_custom_scan_spec node s1 w1) as (w' & Hrescan & Hheap & _).
  { simpl. by rewrite lookup_insert_eq. }
  { done. }
  { unfold s1, opened. cbn [o_plan_state]. by rewrite Hb. }
  { intros _. unfold s1, opened. cbn [o_plan_state]. by rewrite Hb, Hanalyze. }
  rewrite Hea1 in Hheap.
  set (s2 := set_o_plan_state _ s1) in Hheap.
  exists w', s2. split; [by rewrite (bind_Ok _ _ _ _ _ Hbegin)|].
  split; [by rewrite Hheap, lookup_insert_eq|].
  intros planstate ec es Htag Hec.
  destruct (leaf_reads_outside planstate ec es) as [es' Hrun].
  { by rewrite Hec. }
  { intros ? ? _. by rewrite Hec. }
  exists es'. unfold o_explain_node.
  rewrite o_explain_node_at_unfold, Htag. unfold bind at 1. by rewrite Hrun.
Qed.

End explain_after_rescan.

(** ** The walker on the example scan *)

Lemma X14_witness :
  match o_explain_node (H := ExampleMore.explain_host)
          (Some ExampleMore.or_of_probes) ExampleMore.ec_plain
          ExampleMore.es_json
  with
  | Ok stop es' =>
      stop = false ∧ indent es' = 2 ∧ format es' = EXPLAIN_FORMAT_JSON
  | Raise _ _ | Undef _ => True
  | OutOfFuel => False
  end.
Proof.
  apply (X14_walker_answers_false_and_restores_indent
           (H := ExampleMore.explain_host)
           (Some ExampleMore.or_of_probes) ExampleMore.ec_plain
           ExampleMore.es_json).
  split; [by intros|]. split; [by intros|].
  intros a b c es Hformat. simpl.
  destruct (format es) eqn:Hf; [done| | |]; simpl; (split; [lia|done]).
Defined.

Lemma X15_witness :
  ∃ es',
    o_explain_node (H := ExampleMore.explain_host)
      (Some ExampleMore.or_of_probes) ExampleMore.ec_plain ExampleScan.es
    = Ok false es'
    ∧ indent es' = 2.
Proof.
  apply (X15_walker_returns_on_supported_trees
           (H := ExampleMore.explain_host)
           ExampleMore.or_of_probes ExampleMore.ec_plain ExampleScan.es).
  - split; [by intros|]. split; [by intros|].
    intros a b c es Hformat. simpl.
    destruct (format es) eqn:Hf; [done| | |]; simpl; (split; [lia|done]).
  - reflexivity.
  - reflexivity.
  - left. reflexivity.
Defined.


Lemma X17_witness :
  ∃ es',
    o_explain_node (H := ExampleMore.explain_host)
      (Some (ExampleMore.probe_state 99999%N)) ExampleWalk.ec_instrumented
      ExampleScan.es
    = Undef es'.
Proof.
  apply (X17_unknown_index_reads_past_counters
           (H := ExampleMore.explain_host)
           (ExampleMore.probe_state 99999%N) ExampleWalk.ec_instrumented
           ExampleScan.es
           (fresh_counters (H := ExampleScan.host) Example.descr)).
  - reflexivity.
  - reflexivity.
  - reflexivity.
  - simpl. lia.
  - simpl. lia.
  - intros [|[|j]] d Hj Hd; [| |simpl in Hj; lia];
      injection Hd as <-; discriminate.
Defined.

Lemma X18_witness :
  ∃ i,
    o_explain_node (H := ExampleMore.explain_host)
      (Some (ExampleMore.probe_state 16395%N)) ExampleMore.ec_plain
      ExampleMore.es_json
    = Ok false
        (ExplainCloseGroup (ExplainHost := ExampleMore.explain_host)
           "Plan" "Plan" true
           (add_indent 1
              (set_len (i - 1)
                 (ExplainNode (ExplainHost := ExampleMore.explain_host)
                    (ExampleMore.probe_state 16395%N) [] "Outer" None
                    ExampleMore.es_json))))
    ∧ 0 ≤ i ≤ 5
    ∧ (i = 0
       ∨ [Ascii.ascii_of_nat 123; newline; Ascii.ascii_of_nat 120; newline;
          Ascii.ascii_of_nat 125; newline] !! Z.to_nat (i - 1) = Some newline)
    ∧ (∀ j, i ≤ j < 5 →
            [Ascii.ascii_of_nat 123; newline; Ascii.ascii_of_nat 120; newline;
             Ascii.ascii_of_nat 125; newline] !! Z.to_nat j ≠ Some newline).
Proof.
  apply (X18_structured_formats_trim_last_line
           (H := ExampleMore.explain_host)
           (ExampleMore.probe_state 16395%N) ExampleMore.ec_plain
           ExampleMore.es_json).
  - reflexivity.
  - reflexivity.
  - reflexivity.
  - left. reflexivity.
  - simpl. lia.
Defined.

Lemma X19_witness :
  ∃ w' ocstate',
    (o_begin_custom_scan (H := ExampleScan.host) ExampleScan.node
       ExampleScan.estate 0 ;;;
     o_rescan_custom_scan (H := ExampleScan.host) ExampleScan.node)
      ExampleScan.world = Ok tt w'
    ∧ heap w' !! ExampleScan.node = Some ocstate'
    ∧ ∀ planstate ec es,
        ps_type planstate = T_BitmapIndexScanState →
        ec_ocstate ec = ocstate' →
        ∃ es', o_explain_node (H := ExampleMore.explain_host)
                 (Some planstate) ec es = Undef es'.
Proof.
  apply (X19_explain_after_rescan_reads_released_counters
           (H := ExampleScan.host) (H0 := ExampleMore.explain_host)
           ExampleScan.node (ExampleScan.created 300%N) ExampleScan.world
           ExampleScan.estate 0).
  - reflexivity.
  - reflexivity.
  - discriminate.
  - reflexivity.
Defined.
